(** * Verification of the row engine of excelize (rows.go)

    A shallow embedding of [rows.go] and theorems about it.  Go's [int] is
    modelled as [Z]; the increments of row numbers wrap around at 64 bits
    ([wrapInt]), loop indices stay within the length of the slice they run
    over and are left as they are.  Strings are [string], slices [list], a
    nil pointer [None].  A Go function returning [(T, error)] returns a
    [result T]; an index out of range is the explicit outcome [Panic]. *)

From Stdlib Require Import ZArith List String Ascii Bool Lia Arith Sorted.
From Stdlib Require Import DecimalString DecimalZ DecimalPos Decimal.
Import ListNotations.

Local Open Scope string_scope.
Local Open Scope Z_scope.

(** ** Outcomes of a call *)

Inductive error : Type :=
| InvalidRowNumber (row : Z)
| ErrSheetNotExist (sheet : string)
| InvalidCellName (cell : string)
| InvalidColumnName (name : string)
| InvalidCoordinates (col row : Z)
| ColumnLimit
| ErrSyntax (s : string)
| ErrRange (s : string)
| InvalidArea (ref : string).

Inductive result (A : Type) : Type :=
| Ok (a : A)
| Err (e : error)
| Panic.

Arguments Ok {A} a.
Arguments Err {A} e.
Arguments Panic {A}.

Definition bind {A B : Type} (r : result A) (k : A -> result B) : result B :=
  match r with
  | Ok a => k a
  | Err e => Err e
  | Panic => Panic
  end.

Notation "x <- r ;; k" := (bind r (fun x => k))
  (at level 61, r at next level, right associativity).

(** [v, _ := f()] : the error is dropped and the zero value of the type is
    used in its place (a panic still propagates). *)
Definition ignoreErr {A : Type} (zero : A) (r : result A) : result A :=
  match r with
  | Ok a => Ok a
  | Err _ => Ok zero
  | Panic => Panic
  end.

(** ** strconv.Atoi and fmt's %d *)

Definition maxInt : Z := 9223372036854775807.
Definition minInt : Z := -9223372036854775808.

(** The value of an [int] after an operation whose exact result is [z]. *)
Definition wrapInt (z : Z) : Z := (z - minInt) mod 2 ^ 64 + minInt.

Definition isDigit (c : ascii) : bool :=
  let n := nat_of_ascii c in (48 <=? n)%nat && (n <=? 57)%nat.

Definition isAlpha (c : ascii) : bool :=
  let n := nat_of_ascii c in
  ((65 <=? n)%nat && (n <=? 90)%nat) || ((97 <=? n)%nat && (n <=? 122)%nat).

(** Go standard library ([strconv.Atoi], base 10): an optional sign, then at
    least one decimal digit and nothing else; a value outside [int] is a range
    error. *)
Definition Atoi (s : string) : result Z :=
  let '(neg, body) :=
    match s with
    | String c s' =>
        if Ascii.eqb c "-" then (true, s')
        else if Ascii.eqb c "+" then (false, s')
        else (false, s)
    | EmptyString => (false, s)
    end in
  match body with
  | EmptyString => Err (ErrSyntax s)
  | _ =>
      match NilEmpty.uint_of_string body with
      | Some d =>
          let n := Z.of_uint d in
          let v := if neg then - n else n in
          if (minInt <=? v) && (v <=? maxInt) then Ok v else Err (ErrRange s)
      | None => Err (ErrSyntax s)
      end
  end.

(** [fmt.Sprintf("%d", n)]. *)
Definition itoa (n : Z) : string := NilZero.string_of_int (Z.to_int n).

(** ** Coordinate utility

    The coordinate codec is not part of rows.go; section 6 of the
    specification gives it as a bidirectional codec between column/row
    integers and "A1"-style references that errors on malformed input. *)

(** Modelled from the spec: the constant [TotalColumns] is not part of
    rows.go; the number of columns of the spreadsheet format. *)
Definition TotalColumns : Z := 16384.

(** Modelled from the spec: the value of a column letter, upper or lower
    case (bijective base 26); part of the coordinate codec, which is not in
    rows.go. *)
Definition letterValue (c : ascii) : option Z :=
  let n := Z.of_nat (nat_of_ascii c) in
  if (65 <=? n) && (n <=? 90) then Some (n - 64)
  else if (97 <=? n) && (n <=? 122) then Some (n - 96)
  else None.

(** Modelled from the spec: the number read from column letters, most
    significant first; part of the coordinate codec, which is not in
    rows.go. *)
Fixpoint columnValue (acc : Z) (s : string) : option Z :=
  match s with
  | EmptyString => Some acc
  | String c s' =>
      match letterValue c with
      | Some v => columnValue (acc * 26 + v) s'
      | None => None
      end
  end.

(** Modelled from the spec: [ColumnNameToNumber] is not part of rows.go;
    "column-letter <-> numeric conversion" of the coordinate codec, an error
    on an empty or malformed name or beyond [TotalColumns]. *)
Definition ColumnNameToNumber (name : string) : result Z :=
  match name with
  | EmptyString => Err (InvalidColumnName name)
  | _ =>
      match columnValue 0 name with
      | Some col => if col >? TotalColumns then Err ColumnLimit else Ok col
      | None => Err (InvalidColumnName name)
      end
  end.

(** Modelled from the spec: the letters of a column number, least
    significant first onto [col]; four rounds cover [TotalColumns]. *)
Fixpoint columnLetters (fuel : nat) (num : Z) (col : string) : string :=
  match fuel with
  | O => col
  | S fuel' =>
      if num >? 0
      then columnLetters fuel' ((num - 1) / 26)
             (String (ascii_of_nat (Z.to_nat ((num - 1) mod 26 + 65))) col)
      else col
  end.

(** Modelled from the spec: [ColumnNumberToName] is not part of rows.go;
    the inverse conversion, an error outside [1, TotalColumns]. *)
Definition ColumnNumberToName (num : Z) : result string :=
  if num <? 1 then Err (InvalidCoordinates num 0)
  else if num >? TotalColumns then Err ColumnLimit
  else Ok (columnLetters 4 num EmptyString).

(** Modelled from the spec: the leading letters of a reference and what
    follows them; part of the coordinate codec, which is not in rows.go. *)
Fixpoint spanAlpha (s : string) : string * string :=
  match s with
  | String c s' =>
      if isAlpha c
      then let '(a, b) := spanAlpha s' in (String c a, b)
      else (EmptyString, s)
  | EmptyString => (EmptyString, EmptyString)
  end.

(** Modelled from the spec: [SplitCellName] is not part of rows.go;
    '"A1"-style reference parsing': column letters, then a row number above
    zero. *)
Definition SplitCellName (cell : string) : result (string * Z) :=
  let '(col, rowstr) := spanAlpha cell in
  match col, rowstr with
  | EmptyString, _ => Err (InvalidCellName cell)
  | _, EmptyString => Err (InvalidCellName cell)
  | _, _ =>
      match Atoi rowstr with
      | Ok row => if row >? 0 then Ok (col, row) else Err (InvalidCellName cell)
      | _ => Err (InvalidCellName cell)
      end
  end.

(** Modelled from the spec: [JoinCellName] is not part of rows.go; the
    reference made of column letters and a row number. *)
Definition JoinCellName (col : string) (row : Z) : result string :=
  if row <? 1 then Err (InvalidRowNumber row)
  else Ok (col ++ itoa row)%string.

(** Modelled from the spec: [CellNameToCoordinates] is not part of
    rows.go; section 6 gives [CellRefToCoords(ref) -> (col, row)], "errors
    on malformed input". *)
Definition CellNameToCoordinates (cell : string) : result (Z * Z) :=
  cr <- SplitCellName cell ;;
  col <- ColumnNameToNumber (fst cr) ;;
  Ok (col, snd cr).

(** Modelled from the spec: [CoordinatesToCellName] is not part of
    rows.go; section 6 gives [CoordsToCellRef(col, row) -> ref], an error
    for a column or row below 1. *)
Definition CoordinatesToCellName (col row : Z) : result string :=
  if (col <? 1) || (row <? 1) then Err (InvalidCoordinates col row)
  else
    colname <- ColumnNumberToName col ;;
    Ok (colname ++ itoa row)%string.

(** ** Sparse row store *)

(** [xlsxC]: reference, style index, type, raw value and inline string
    (a nil [IS] is [None]; the rich text is kept as its [String()]). *)
Record xlsxC : Type := mkC {
  cR : string;
  cS : Z;
  cT : string;
  cV : string;
  cIS : option string
}.

(** [xlsxC{R: cellName}] *)
Definition placeholder (name : string) : xlsxC :=
  mkC name 0 EmptyString EmptyString None.

(** [xlsxRow]; the height fields are floating point and left out. *)
Record xlsxRow : Type := mkRow {
  rR : Z;
  rHidden : bool;
  rOutlineLevel : Z;
  rC : list xlsxC
}.

(** [xlsxRow{R: n}] *)
Definition emptyRow (n : Z) : xlsxRow := mkRow n false 0 [].

Record xlsxMergeCell : Type := mkMergeCell { mRef : string }.

(** [xlsxWorksheet]: [SheetData.Row] and [MergeCells] (nil is [None]). *)
Record xlsxWorksheet : Type := mkSheet {
  Row : list xlsxRow;
  MergeCells : option (list xlsxMergeCell)
}.

Definition len {A : Type} (l : list A) : Z := Z.of_nat (List.length l).

(** [l[i]] *)
Definition elemAt {A : Type} (l : list A) (i : Z) : result A :=
  if i <? 0 then Panic
  else match nth_error l (Z.to_nat i) with
       | Some a => Ok a
       | None => Panic
       end.

Fixpoint replaceNth {A : Type} (l : list A) (n : nat) (a : A) : list A :=
  match l, n with
  | [], _ => []
  | _ :: t, O => a :: t
  | h :: t, S n' => h :: replaceNth t n' a
  end.

(** [l[i] = a] *)
Definition assign {A : Type} (l : list A) (i : Z) (a : A) : result (list A) :=
  if (i <? 0) || (len l <=? i) then Panic
  else Ok (replaceNth l (Z.to_nat i) a).

(** Modelled from the spec: the loop of [prepareSheetXML] that appends the
    missing rows, each carrying its position as number. *)
Fixpoint appendRows (n : nat) (from : Z) (rows : list xlsxRow) : list xlsxRow :=
  match n with
  | O => rows
  | S n' => appendRows n' (from + 1) (rows ++ [emptyRow from])
  end.

(** Modelled from the spec: [prepareSheetXML] is not part of rows.go; by
    section 4.4 a setter "auto-creates/extends row storage up to and
    including the target row".  Rows [len+1 .. row] are appended; with
    column 0, as rows.go calls it, no cell is added. *)
Definition prepareSheetXML (xlsx : xlsxWorksheet) (col row : Z) : xlsxWorksheet :=
  let rowCount := len (Row xlsx) in
  if rowCount <? row
  then mkSheet (appendRows (Z.to_nat (row - rowCount)) (rowCount + 1) (Row xlsx))
               (MergeCells xlsx)
  else xlsx.

(** ** Row metadata accessors *)

Definition setHidden (r : xlsxRow) (h : bool) : xlsxRow :=
  mkRow (rR r) h (rOutlineLevel r) (rC r).

Definition SetRowVisible (xlsx : xlsxWorksheet) (row : Z) (visible : bool)
  : result xlsxWorksheet :=
  if row <? 1 then Err (InvalidRowNumber row)
  else
    let xlsx := prepareSheetXML xlsx 0 row in
    r <- elemAt (Row xlsx) (row - 1) ;;
    rows <- assign (Row xlsx) (row - 1) (setHidden r (negb visible)) ;;
    Ok (mkSheet rows (MergeCells xlsx)).

Definition GetRowVisible (xlsx : xlsxWorksheet) (row : Z) : result bool :=
  if row <? 1 then Err (InvalidRowNumber row)
  else if row >? len (Row xlsx) then Ok false
  else
    r <- elemAt (Row xlsx) (row - 1) ;;
    Ok (negb (rHidden r)).

(** ** Row densifier *)

Definition setC (r : xlsxRow) (cs : list xlsxC) : xlsxRow :=
  mkRow (rR r) (rHidden r) (rOutlineLevel r) cs.

(** The loop [for colIdx := 0; colIdx < lastCol; colIdx++] that builds
    [newlist]; [n] counts the iterations left. *)
Fixpoint newlistFrom (n : nat) (colIdx rowIdx : Z) : result (list xlsxC) :=
  match n with
  | O => Ok []
  | S n' =>
      cellName <- CoordinatesToCellName (colIdx + 1) (rowIdx + 1) ;;
      rest <- newlistFrom n' (colIdx + 1) rowIdx ;;
      Ok (placeholder cellName :: rest)
  end.

(** The loop [for colIdx := range oldList] writing each old cell to the slot
    of its column. *)
Fixpoint overlay (oldList cs : list xlsxC) : result (list xlsxC) :=
  match oldList with
  | [] => Ok cs
  | colData :: rest =>
      cn <- CellNameToCoordinates (cR colData) ;;
      cs' <- assign cs (fst cn - 1) colData ;;
      overlay rest cs'
  end.

(** The body of [checkRow]'s loop for the row stored at [rowIdx]. *)
Definition checkRowAt (rowIdx : Z) (rowData : xlsxRow) : result xlsxRow :=
  let colCount := len (rC rowData) in
  if colCount =? 0 then Ok rowData
  else
    last <- elemAt (rC rowData) (colCount - 1) ;;
    lc <- CellNameToCoordinates (cR last) ;;
    let lastCol := fst lc in
    if colCount <? lastCol then
      newlist <- newlistFrom (Z.to_nat lastCol) 0 rowIdx ;;
      cs <- overlay (rC rowData) newlist ;;
      Ok (setC rowData cs)
    else Ok rowData.

Fixpoint checkRowsFrom (rowIdx : Z) (rows : list xlsxRow) : result (list xlsxRow) :=
  match rows with
  | [] => Ok []
  | rowData :: rest =>
      r <- checkRowAt rowIdx rowData ;;
      rest' <- checkRowsFrom (rowIdx + 1) rest ;;
      Ok (r :: rest')
  end.

Definition checkRow (xlsx : xlsxWorksheet) : result xlsxWorksheet :=
  rows <- checkRowsFrom 0 (Row xlsx) ;;
  Ok (mkSheet rows (MergeCells xlsx)).

(** ** Collaborators of the structural editor *)

(** [strings.Split(ref, ":")], as far as the two parts around the first
    separator. *)
Fixpoint splitAt (sep : ascii) (s : string) : option (string * string) :=
  match s with
  | EmptyString => None
  | String c s' =>
      if Ascii.eqb c sep then Some (EmptyString, s')
      else match splitAt sep s' with
           | Some (a, b) => Some (String c a, b)
           | None => None
           end
  end.

(** Modelled from the spec: [areaRefToCoordinates] is not part of rows.go;
    section 6 gives [AreaRefToCoordinates(ref) -> [x1,y1,x2,y2]], an error on
    a malformed reference. *)
Definition areaRefToCoordinates (ref : string) : result (Z * Z * Z * Z) :=
  match splitAt ":" ref with
  | None => Err (InvalidArea ref)
  | Some (first, last) =>
      a <- CellNameToCoordinates first ;;
      b <- CellNameToCoordinates last ;;
      Ok (fst a, snd a, fst b, snd b)
  end.

(** [from + ":" + to] *)
Definition areaRef (from to : string) : string := (from ++ ":" ++ to)%string.

(** Modelled from the spec: [MergeCell] is not part of rows.go; section 6
    gives [MergeCells(sheet, fromRef, toRef) -> error], "creates a merged
    region".  The region is added at the end of the list, a nil list is
    created first, and malformed corners are an error. *)
Definition MergeCell (cells : option (list xlsxMergeCell)) (hcell vcell : string)
  : result (list xlsxMergeCell) :=
  _ <- areaRefToCoordinates (areaRef hcell vcell) ;;
  match cells with
  | Some l => Ok (l ++ [mkMergeCell (areaRef hcell vcell)])%list
  | None => Ok [mkMergeCell (areaRef hcell vcell)]
  end.

(** Modelled from the spec: what [ajustSingleRowDimensions] does to one
    cell: the reference keeps its column letters and takes row [num]. *)
Definition renumberCell (num : Z) (c : xlsxC) : xlsxC :=
  let col := match SplitCellName (cR c) with
             | Ok (col, _) => col
             | _ => EmptyString
             end in
  let name := match JoinCellName col num with
              | Ok n => n
              | _ => EmptyString
              end in
  mkC name (cS c) (cT c) (cV c) (cIS c).

(** Modelled from the spec: [ajustSingleRowDimensions] is not part of
    rows.go; by section 4.3 it renumbers the row and "every copied cell's
    reference" to [num]. *)
Definition ajustSingleRowDimensions (r : xlsxRow) (num : Z) : xlsxRow :=
  mkRow num (rHidden r) (rOutlineLevel r) (map (renumberCell num) (rC r)).

(** Modelled from the spec: the shift of one row record: numbered [num] or
    more, it moves by [offset] (as long as the number stays above zero). *)
Definition shiftRow (num offset : Z) (r : xlsxRow) : xlsxRow :=
  if (rR r >=? num) && (rR r + offset >? 0)
  then ajustSingleRowDimensions r (rR r + offset)
  else r.

(** Modelled from the spec: the shift of one row coordinate. *)
Definition shiftY (num offset y : Z) : Z :=
  if y >=? num then y + offset else y.

(** Modelled from the spec: the shift of the merged regions, corner by
    corner; an error at a reference that does not parse. *)
Fixpoint shiftMerges (num offset : Z) (cells : list xlsxMergeCell)
  : result (list xlsxMergeCell) :=
  match cells with
  | [] => Ok []
  | m :: rest =>
      c <- areaRefToCoordinates (mRef m) ;;
      let '(x1, y1, x2, y2) := c in
      from <- CoordinatesToCellName x1 (shiftY num offset y1) ;;
      to <- CoordinatesToCellName x2 (shiftY num offset y2) ;;
      rest' <- shiftMerges num offset rest ;;
      Ok (mkMergeCell (areaRef from to) :: rest')
  end.

(** Modelled from the spec: [adjustHelper] is not part of rows.go; section 6
    gives [ShiftReferences(sheet, kind=rows, pivot, delta)], which "adjusts
    all structural references ... by delta at pivot": every row record
    numbered [pivot] or more, and every corner of a merged region on such a
    row, moves by [delta]. *)
Definition shiftReferences (xlsx : xlsxWorksheet) (num offset : Z)
  : result xlsxWorksheet :=
  match MergeCells xlsx with
  | None => Ok (mkSheet (map (shiftRow num offset) (Row xlsx)) None)
  | Some cells =>
      cells' <- shiftMerges num offset cells ;;
      Ok (mkSheet (map (shiftRow num offset) (Row xlsx)) (Some cells'))
  end.

(** ** Structural editor *)

(** [for i, r := range rows { if r.R == n { ...; break } }]: the first
    position holding a record numbered [n]. *)
Fixpoint findRow (n : Z) (i : Z) (rows : list xlsxRow) : option (Z * xlsxRow) :=
  match rows with
  | [] => None
  | r :: rest => if rR r =? n then Some (i, r) else findRow n (i + 1) rest
  end.

(** [append(l[:i], l[i+1:]...)[:len(l)-1]] *)
Fixpoint removeNth {A : Type} (l : list A) (n : nat) : list A :=
  match l, n with
  | [], _ => []
  | _ :: t, O => t
  | h :: t, S n' => h :: removeNth t n'
  end.

(** The first loop of [duplicateMergeCells]: [Ok true] when some region
    straddles [row2], an error at the first reference that does not parse. *)
Fixpoint straddled (row2 : Z) (cells : list xlsxMergeCell) : result bool :=
  match cells with
  | [] => Ok false
  | rng :: rest =>
      c <- areaRefToCoordinates (mRef rng) ;;
      let '(_, y1, _, y2) := c in
      if (y1 <? row2) && (row2 <? y2) then Ok true
      else straddled row2 rest
  end.

(** The second loop of [duplicateMergeCells], from index [i].  The list
    grows while it is traversed ([MergeCell] adds to it), so the loop is run
    on [fuel]; [duplicateMergeCells_fuel] shows that the fuel given by
    [duplicateMergeCells] is never used up. *)
Fixpoint duplicateLoop (fuel : nat) (i row row2 : Z) (cells : list xlsxMergeCell)
  : result (list xlsxMergeCell) :=
  match fuel with
  | O => Ok cells
  | S fuel' =>
      if i <? len cells then
        areaData <- elemAt cells i ;;
        c <- ignoreErr (0, 0, 0, 0) (areaRefToCoordinates (mRef areaData)) ;;
        let '(x1, y1, x2, y2) := c in
        if (y1 =? y2) && (y1 =? row) then
          from <- ignoreErr EmptyString (CoordinatesToCellName x1 row2) ;;
          to <- ignoreErr EmptyString (CoordinatesToCellName x2 row2) ;;
          cells' <- MergeCell (Some cells) from to ;;
          duplicateLoop fuel' (i + 1 + 1) row row2 cells'
        else duplicateLoop fuel' (i + 1) row row2 cells
      else Ok cells
  end.

Definition duplicateMergeCells (xlsx : xlsxWorksheet) (row row2 : Z)
  : result xlsxWorksheet :=
  match MergeCells xlsx with
  | None => Ok xlsx
  | Some cells =>
      let row := if row >? row2 then wrapInt (row + 1) else row in
      s <- straddled row2 cells ;;
      if s : bool then Ok xlsx
      else
        cells' <- duplicateLoop (S (List.length cells)) 0 row row2 cells ;;
        Ok (mkSheet (Row xlsx) (Some cells'))
  end.

Section Editor.

(** [f.adjustHelper(sheet, rows, num, offset)], the reference-adjustment
    collaborator, which is not part of rows.go. *)
Variable adjustHelper : xlsxWorksheet -> Z -> Z -> result xlsxWorksheet.

Definition RemoveRow (xlsx : xlsxWorksheet) (row : Z) : result xlsxWorksheet :=
  if row <? 1 then Err (InvalidRowNumber row)
  else if row >? len (Row xlsx) then adjustHelper xlsx row (-1)
  else
    match findRow row 0 (Row xlsx) with
    | Some (rowIdx, _) =>
        adjustHelper
          (mkSheet (removeNth (Row xlsx) (Z.to_nat rowIdx)) (MergeCells xlsx))
          row (-1)
    | None => Ok xlsx
    end.

Definition InsertRow (xlsx : xlsxWorksheet) (row : Z) : result xlsxWorksheet :=
  if row <? 1 then Err (InvalidRowNumber row)
  else adjustHelper xlsx row 1.

(** [rowCopy] is read before the shift and shares its cells with the stored
    row until the [append(make(...), rowCopy.C...)]; a shift renumbers
    references only, and [ajustSingleRowDimensions] overwrites the row part
    of every reference, so the value of the copy is the one computed from
    the row as read. *)
Definition DuplicateRowTo (xlsx : xlsxWorksheet) (row row2 : Z)
  : result xlsxWorksheet :=
  if row <? 1 then Err (InvalidRowNumber row)
  else if (row >? len (Row xlsx)) || (row2 <? 1) || (row =? row2) then Ok xlsx
  else
    match findRow row 0 (Row xlsx) with
    | None => Ok xlsx
    | Some (_, rowCopy) =>
        xlsx <- adjustHelper xlsx row2 1 ;;
        let idx2 := findRow row2 0 (Row xlsx) in
        match idx2 with
        | None =>
            if len (Row xlsx) >=? row2 then Ok xlsx
            else
              let rowCopy := ajustSingleRowDimensions rowCopy row2 in
              duplicateMergeCells
                (mkSheet (Row xlsx ++ [rowCopy]) (MergeCells xlsx)) row row2
        | Some (i, _) =>
            let rowCopy := ajustSingleRowDimensions rowCopy row2 in
            rows <- assign (Row xlsx) i rowCopy ;;
            duplicateMergeCells (mkSheet rows (MergeCells xlsx)) row row2
        end
    end.

Definition DuplicateRow (xlsx : xlsxWorksheet) (row : Z) : result xlsxWorksheet :=
  DuplicateRowTo xlsx row (wrapInt (row + 1)).

End Editor.

(** ** Streaming row reader *)

(** Tokens of Go's [encoding/xml] decoder, as far as rows.go looks at them:
    local names, attributes and character data. *)
Record Attr : Type := mkAttr { aName : string; aValue : string }.

Inductive Token : Type :=
| StartElement (local : string) (attr : list Attr)
| EndElement (local : string)
| CharData (data : string).

(** [for _, attr := range startElement.Attr { if attr.Name.Local == "r" ... }]
    of both scanning loops: the value of [row] after the loop, or the first
    conversion error. *)
Fixpoint rowAttr (row : Z) (attrs : list Attr) : result Z :=
  match attrs with
  | [] => Ok row
  | a :: rest =>
      if String.eqb (aName a) "r"
      then (row' <- Atoi (aValue a) ;; rowAttr row' rest)
      else rowAttr row rest
  end.

(** The iterator [Rows]; [decoder] is what is left of the token stream. *)
Record Rows : Type := mkRows {
  err : option error;
  curRow : Z;
  totalRow : Z;
  stashRow : Z;
  decoder : list Token
}.

(** The pre-scan loop of [File.Rows]: [row] lives across iterations and
    [totalRow] is assigned at every row element. *)
Fixpoint scanTotal (row total : Z) (ts : list Token) : result Z :=
  match ts with
  | [] => Ok total
  | StartElement local attr :: ts' =>
      if String.eqb local "row"
      then (row' <- rowAttr row attr ;; scanTotal row' row' ts')
      else scanTotal row total ts'
  | _ :: ts' => scanTotal row total ts'
  end.

(** [File.Rows] on the tokens of the worksheet's XML part (the sheet is
    found and flushed by collaborators). *)
Definition File_Rows (xml : list Token) : result Rows :=
  total <- scanTotal 0 0 xml ;;
  Ok (mkRows None 0 total 0 xml).

Definition Next (rows : Rows) : bool * Rows :=
  let rows' := mkRows (err rows) (wrapInt (curRow rows + 1)) (totalRow rows)
                      (stashRow rows) (decoder rows) in
  (curRow rows' <=? totalRow rows', rows').

Definition Error (rows : Rows) : option error := err rows.

Fixpoint attrValue (name : string) (attrs : list Attr) : string :=
  match attrs with
  | [] => EmptyString
  | a :: rest =>
      if String.eqb (aName a) name then aValue a else attrValue name rest
  end.

Definition addV (c : xlsxC) (s : string) : xlsxC :=
  mkC (cR c) (cS c) (cT c) (cV c ++ s)%string (cIS c).

Definition addIS (c : xlsxC) (s : string) : xlsxC :=
  mkC (cR c) (cS c) (cT c) (cV c)
      (Some (match cIS c with Some t => t | None => EmptyString end ++ s)%string).

(** Go standard library ([Decoder.DecodeElement] into an [xlsxC], whose
    declaration is not part of rows.go): the children of the cell element
    are consumed up to its end tag; the text of [<v>] is the raw value and
    the text below [<is>] the inline string.  [depth] counts the open
    children, [inV] and [inIS] say where the cursor is. *)
Fixpoint decodeChildren (depth : nat) (inV inIS : bool) (c : xlsxC)
    (ts : list Token) : xlsxC * list Token :=
  match ts with
  | [] => (c, [])
  | StartElement local _ :: ts' =>
      match depth with
      | O =>
          if String.eqb local "v" then decodeChildren 1 true false c ts'
          else if String.eqb local "is"
               then decodeChildren 1 false true (addIS c EmptyString) ts'
               else decodeChildren 1 false false c ts'
      | S _ => decodeChildren (S depth) inV inIS c ts'
      end
  | EndElement _ :: ts' =>
      match depth with
      | O => (c, ts')
      | S O => decodeChildren O false false c ts'
      | S d => decodeChildren d inV inIS c ts'
      end
  | CharData s :: ts' =>
      decodeChildren depth inV inIS
        (if inV then addV c s else if inIS then addIS c s else c) ts'
  end.

Definition DecodeElement (attr : list Attr) (ts : list Token) : xlsxC * list Token :=
  let s := match Atoi (attrValue "s" attr) with Ok n => n | _ => 0 end in
  decodeChildren O false false
    (mkC (attrValue "r" attr) s (attrValue "t" attr) EmptyString None) ts.

(** The attribute loop of [Columns] at a row element: [Ok (Some row)] when a
    declared number [row] is beyond the cursor (the caller stashes [row - 1]
    and returns), [Ok None] when the loop runs to its end. *)
Fixpoint rowAhead (cur : Z) (attrs : list Attr) : result (option Z) :=
  match attrs with
  | [] => Ok None
  | a :: rest =>
      if String.eqb (aName a) "r"
      then (row <- Atoi (aValue a) ;;
            if row >? cur then Ok (Some row) else rowAhead cur rest)
      else rowAhead cur rest
  end.

(** [for i := 1; i < blank; i++ { ... }]: one empty string is appended for
    every round. *)
Definition padBlank (columns : list string) (cellCol : Z) : list string :=
  let blank := cellCol - len columns in
  (columns ++ repeat EmptyString (Z.to_nat (blank - 1)))%list.

(** What [Columns] hands back: the columns, the error, and the iterator as
    the call leaves it; or a run-time panic. *)
Inductive columnsResult : Type :=
| Returned (columns : list string) (e : option error) (rows : Rows)
| Panicked.

Definition setDecoder (rows : Rows) (ts : list Token) : Rows :=
  mkRows (err rows) (curRow rows) (totalRow rows) (stashRow rows) ts.

Definition setStash (rows : Rows) (stash : Z) (ts : list Token) : Rows :=
  mkRows (err rows) (curRow rows) (totalRow rows) stash ts.

Section Reader.

(** [f.formattedValue(s, v)], the style formatting collaborator, which is
    not part of rows.go. *)
Variable formattedValue : Z -> string -> string.

(** [d.SI[i].String()] is the [i]-th element of [d]. *)
Definition getValueFrom (xlsx : xlsxC) (d : list string) : result string :=
  if String.eqb (cT xlsx) "s" then
    if negb (String.eqb (cV xlsx) EmptyString) then
      xlsxSI <- ignoreErr 0 (Atoi (cV xlsx)) ;;
      if len d >? xlsxSI then
        si <- elemAt d xlsxSI ;;
        Ok (formattedValue (cS xlsx) si)
      else Ok (formattedValue (cS xlsx) (cV xlsx))
    else Ok (formattedValue (cS xlsx) (cV xlsx))
  else if String.eqb (cT xlsx) "str" then
    Ok (formattedValue (cS xlsx) (cV xlsx))
  else if String.eqb (cT xlsx) "inlineStr" then
    match cIS xlsx with
    | Some inline => Ok (formattedValue (cS xlsx) inline)
    | None => Ok (formattedValue (cS xlsx) (cV xlsx))
    end
  else Ok (formattedValue (cS xlsx) (cV xlsx)).

(** The token loop of [Columns].  [DecodeElement] takes several tokens at
    once, so the loop runs on [fuel]; every round takes at least one token
    and [Columns] gives one more unit of fuel than there are tokens
    ([Columns_fuel]). *)
Fixpoint columnsLoop (fuel : nat) (d : list string) (rows : Rows)
    (columns : list string) (ts : list Token) : columnsResult :=
  match fuel with
  | O => Returned columns None (setDecoder rows ts)
  | S fuel' =>
      match ts with
      | [] => Returned columns None (setDecoder rows [])
      | StartElement local attr :: ts' =>
          if String.eqb local "row" then
            match rowAhead (curRow rows) attr with
            | Err e => Returned columns (Some e) (setDecoder rows ts')
            | Panic => Panicked
            | Ok (Some row) => Returned columns None (setStash rows (row - 1) ts')
            | Ok None => columnsLoop fuel' d rows columns ts'
            end
          else if String.eqb local "c" then
            let '(colCell, ts'') := DecodeElement attr ts' in
            match CellNameToCoordinates (cR colCell) with
            | Err e => Returned columns (Some e) (setDecoder rows ts'')
            | Panic => Panicked
            | Ok (cellCol, _) =>
                match getValueFrom colCell d with
                | Ok val =>
                    columnsLoop fuel' d rows
                      (padBlank columns cellCol ++ [val]) ts''
                | Err _ =>
                    columnsLoop fuel' d rows
                      (padBlank columns cellCol ++ [EmptyString]) ts''
                | Panic => Panicked
                end
            end
          else columnsLoop fuel' d rows columns ts'
      | EndElement local :: ts' =>
          if String.eqb local "row"
          then Returned columns None (setDecoder rows ts')
          else columnsLoop fuel' d rows columns ts'
      | CharData _ :: ts' => columnsLoop fuel' d rows columns ts'
      end
  end.

Definition Columns (d : list string) (rows : Rows) : columnsResult :=
  if stashRow rows >=? curRow rows then Returned [] None rows
  else columnsLoop (S (List.length (decoder rows))) d rows [] (decoder rows).

(** The loop [for rows.Next() { ... }] of [GetRows]; it stops at the first
    [Next] that answers false, which comes after at most [totalRow] rounds
    when [totalRow] is below the largest [int] ([GetRows_fuel]). *)
Fixpoint drain (fuel : nat) (d : list string) (rows : Rows)
    (results : list (list string)) : result (list (list string)) :=
  match fuel with
  | O => Ok results
  | S fuel' =>
      let '(more, rows) := Next rows in
      if more : bool then
        match Error rows with
        | Some _ => Ok results
        | None =>
            match Columns d rows with
            | Panicked => Panic
            | Returned _ (Some _) _ => Ok results
            | Returned row None rows' => drain fuel' d rows' (results ++ [row])
            end
        end
      else Ok results
  end.

Definition GetRows (xml : list Token) (d : list string)
  : result (list (list string)) :=
  rows <- File_Rows xml ;;
  drain (S (Z.to_nat (totalRow rows))) d rows [].

End Reader.

(** ** Worksheet XML

    The token stream of a worksheet part: row elements with their declared
    number, cell elements with reference, style and type as attributes, the
    raw value below [<v>] and the inline string below [<is><t>]. *)

Definition cellAttrs (c : xlsxC) : list Attr :=
  [mkAttr "r" (cR c); mkAttr "s" (itoa (cS c)); mkAttr "t" (cT c)].

Definition cellChildren (c : xlsxC) : list Token :=
  StartElement "v" [] :: CharData (cV c) :: EndElement "v"
  :: match cIS c with
     | Some t => [StartElement "is" []; StartElement "t" []; CharData t;
                  EndElement "t"; EndElement "is"]
     | None => []
     end ++ [EndElement "c"].

Definition cellElement (c : xlsxC) : list Token :=
  StartElement "c" (cellAttrs c) :: cellChildren c.

Definition rowElement (n : Z) (body : list Token) : list Token :=
  StartElement "row" [mkAttr "r" (itoa n)] :: body ++ [EndElement "row"].

Fixpoint sheetDataXML (rows : list (Z * list Token)) : list Token :=
  match rows with
  | [] => []
  | (n, body) :: rest => rowElement n body ++ sheetDataXML rest
  end.

Definition worksheetXML (rows : list (Z * list Token)) : list Token :=
  StartElement "worksheet" [] :: StartElement "sheetData" []
  :: sheetDataXML rows ++ [EndElement "sheetData"; EndElement "worksheet"].

Definition cellsXML (cells : list xlsxC) : list Token :=
  flat_map cellElement cells.

(** The dense value list of a declared row, in the words of the
    specification (section 4.1): for every cell in turn, "compute its column
    number from its reference, left-pad the result sequence with empty
    strings for any skipped columns, resolve its display value ... and
    append".  [None] when a reference does not parse or a value does not
    resolve. *)
Fixpoint denseValues (formattedValue : Z -> string -> string) (d : list string)
    (columns : list string) (cells : list xlsxC) : option (list string) :=
  match cells with
  | [] => Some columns
  | c :: rest =>
      match CellNameToCoordinates (cR c), getValueFrom formattedValue c d with
      | Ok (col, _), Ok val =>
          denseValues formattedValue d (padBlank columns col ++ [val]) rest
      | _, _ => None
      end
  end.

(** No row element starts inside the tokens. *)
Fixpoint noRowStart (ts : list Token) : bool :=
  match ts with
  | [] => true
  | StartElement local _ :: ts' => negb (String.eqb local "row") && noRowStart ts'
  | _ :: ts' => noRowStart ts'
  end.

(** The iterator after [k] calls of [Next]. *)
Fixpoint NextTimes (k : nat) (rows : Rows) : Rows :=
  match k with
  | O => rows
  | S k' => NextTimes k' (snd (Next rows))
  end.

(** ** Slices and their backing arrays

    The three statements of [DuplicateRowTo] that build the copy, on a store
    of backing arrays: a row holds the address of the array of its cells, a
    struct copy of the row shares that address, and writes through a slice
    are seen through every slice of the same array. *)

Module Slices.

Definition store : Type := list (list xlsxC).

(** A row record whose field [C] is a slice over the array at [cells]. *)
Record rowRef : Type := mkRowRef { number : Z; cells : nat }.

Definition read (s : store) (addr : nat) : list xlsxC := nth addr s [].

Definition write (s : store) (addr : nat) (a : list xlsxC) : store :=
  replaceNth s addr a.


(** [f.ajustSingleRowDimensions(&rowCopy, num)]: the number of the row and
    the reference of every cell, written in place. *)
Definition ajustInPlace (s : store) (r : rowRef) (num : Z) : store * rowRef :=
  (write s (cells r) (map (renumberCell num) (read s (cells r))),
   mkRowRef num (cells r)).


(** The same without the copy of the cells: the renumbering then writes
    into the array of the source row. *)
Definition duplicateCellsShared (s : store) (source : rowRef) (row2 : Z)
  : store * rowRef :=
  let rowCopy := source in
  ajustInPlace s rowCopy row2.

End Slices.

(** ** Checks on references *)

Fixpoint allChars (p : ascii -> bool) (s : string) : bool :=
  match s with
  | EmptyString => true
  | String c s' => p c && allChars p s'
  end.

(** [p] holds of the [n] numbers from [from] on. *)
Fixpoint allFrom (n : nat) (from : Z) (p : Z -> bool) : bool :=
  match n with
  | O => true
  | S n' => p from && allFrom n' (from + 1) p
  end.

(** The name printed for column [col] is made of letters and reads back as
    [col]. *)
Definition columnNameOk (col : Z) : bool :=
  let name := columnLetters 4 col EmptyString in
  allChars isAlpha name
  && negb (String.eqb name EmptyString)
  && match columnValue 0 name with Some c => c =? col | None => false end.

(** The reference printed for column [col] and row [row]. *)
Definition cellName (col row : Z) : string :=
  (columnLetters 4 col EmptyString ++ itoa row)%string.

(** The test of the second loop of [duplicateMergeCells]: a region of one
    row, on row [row]. *)
Definition singleRowOn (row : Z) (m : xlsxMergeCell) : bool :=
  match ignoreErr (0, 0, 0, 0) (areaRefToCoordinates (mRef m)) with
  | Ok (_, y1, _, y2) => (y1 =? y2) && (y1 =? row)
  | _ => false
  end.

(** ** Sample worksheets *)

(** A row numbered [n] with one numeric cell in column A and one in column C. *)
Definition sampleRow (n : Z) : xlsxRow :=
  mkRow n false 0
    [mkC ("A" ++ itoa n) 1 EmptyString "10" None;
     mkC ("C" ++ itoa n) 2 EmptyString "30" None].

(** Five rows stored in order, a merged region on row 2 and one on row 4. *)
Definition sheet5 : xlsxWorksheet :=
  mkSheet [sampleRow 1; sampleRow 2; sampleRow 3; sampleRow 4; sampleRow 5]
          (Some [mkMergeCell "C2:D2"; mkMergeCell "A4:B4"]).

(** The five rows with the given merged regions. *)
Definition sheetWithMerges (refs : list string) : xlsxWorksheet :=
  mkSheet [sampleRow 1; sampleRow 2; sampleRow 3; sampleRow 4; sampleRow 5]
          (Some (map mkMergeCell refs)).

(** ** Outline levels *)

Definition setOutlineLevel (r : xlsxRow) (level : Z) : xlsxRow :=
  mkRow (rR r) (rHidden r) level (rC r).

(** What [SetRowOutlineLevel] returns: the sheet as it leaves it, an error
    of [error], the error [errors.New("invalid outline level")], or a
    run-time panic. *)
Inductive outlineResult : Type :=
| LevelSet (xlsx : xlsxWorksheet)
| LevelErr (e : error)
| InvalidOutlineLevel
| LevelPanic.

(** [level] is a [uint8]; the test [level > 7 || level < 1] is the same on
    [Z]. *)
Definition SetRowOutlineLevel (xlsx : xlsxWorksheet) (row level : Z)
  : outlineResult :=
  if row <? 1 then LevelErr (InvalidRowNumber row)
  else if (level >? 7) || (level <? 1) then InvalidOutlineLevel
  else
    let xlsx := prepareSheetXML xlsx 0 row in
    match (r <- elemAt (Row xlsx) (row - 1) ;;
           assign (Row xlsx) (row - 1) (setOutlineLevel r level)) with
    | Ok rows => LevelSet (mkSheet rows (MergeCells xlsx))
    | Err e => LevelErr e
    | Panic => LevelPanic
    end.

Definition GetRowOutlineLevel (xlsx : xlsxWorksheet) (row : Z) : result Z :=
  if row <? 1 then Err (InvalidRowNumber row)
  else if row >? len (Row xlsx) then Ok 0
  else
    r <- elemAt (Row xlsx) (row - 1) ;;
    Ok (rOutlineLevel r).

(** ** Row heights

    A height is a [float64]; [SetRowHeight] and [GetRowHeight] store it,
    return it and compare it with 0, nothing else: the type, its zero value
    and the comparison [h == 0] are parameters, as is the constant
    [defaultRowHeightPixels], which is declared outside rows.go.  (The
    conversion to pixels, which computes with the height, is left out.) *)

Section Heights.

Variable float64 : Type.
Variable zero : float64.
Variable isZero : float64 -> bool.
Variable defaultRowHeightPixels : float64.

(** [xlsxRow] with its fields [Ht] and [CustomHeight]. *)
Record xlsxRowHt : Type := mkRowHt {
  hRow : xlsxRow;
  Ht : float64;
  CustomHeight : bool
}.

(** Modelled from the spec: the rows that [prepareSheetXML] appends, on
    records with their height fields: a new record has no height. *)
Fixpoint appendRowsHt (n : nat) (from : Z) (rows : list xlsxRowHt)
  : list xlsxRowHt :=
  match n with
  | O => rows
  | S n' =>
      appendRowsHt n' (from + 1) (rows ++ [mkRowHt (emptyRow from) zero false])%list
  end.

(** Modelled from the spec: [prepareSheetXML(xlsx, 0, row)] on records with
    their height fields (see [prepareSheetXML]). *)
Definition prepareRowsHt (rows : list xlsxRowHt) (row : Z) : list xlsxRowHt :=
  let rowCount := len rows in
  if rowCount <? row
  then appendRowsHt (Z.to_nat (row - rowCount)) (rowCount + 1) rows
  else rows.

Definition SetRowHeight (rows : list xlsxRowHt) (row : Z) (height : float64)
  : result (list xlsxRowHt) :=
  if row <? 1 then Err (InvalidRowNumber row)
  else
    let rows := prepareRowsHt rows row in
    let rowIdx := row - 1 in
    r <- elemAt rows rowIdx ;;
    rows <- assign rows rowIdx (mkRowHt (hRow r) height (CustomHeight r)) ;;
    r <- elemAt rows rowIdx ;;
    assign rows rowIdx (mkRowHt (hRow r) (Ht r) true).

(** [for _, v := range rows { if v.R == row && v.Ht != 0 { return v.Ht } }]
    and the default after the loop. *)
Fixpoint heightOf (row : Z) (rows : list xlsxRowHt) : float64 :=
  match rows with
  | [] => defaultRowHeightPixels
  | v :: rest =>
      if (rR (hRow v) =? row) && negb (isZero (Ht v)) then Ht v
      else heightOf row rest
  end.

(** The value returned beside an error is [defaultRowHeightPixels]; it is
    left out of [Err]. *)
Definition GetRowHeight (rows : list xlsxRowHt) (row : Z) : result float64 :=
  if row <? 1 then Err (InvalidRowNumber row)
  else if row >? len rows then Ok defaultRowHeightPixels
  else Ok (heightOf row rows).

End Heights.

Arguments mkRowHt {float64} hRow Ht CustomHeight.
Arguments hRow {float64} x.
Arguments Ht {float64} x.
Arguments CustomHeight {float64} x.

(** Every stored record carries the number of its position. *)
Definition byPosition {float64 : Type} (rows : list (xlsxRowHt float64)) : Prop :=
  forall (i : Z) (r : xlsxRowHt float64), elemAt rows (i - 1) = Ok r -> rR (hRow r) = i.

(** ** Descriptions of results *)

(** The worksheet XML of rows given by their number and their cells. *)
Definition declaredXML (rows : list (Z * list xlsxC)) : list (Z * list Token) :=
  map (fun r => (fst r, cellsXML (snd r))) rows.

(** The rows to expect from [GetRows] for rows declared in ascending order
    with the values [(n, values)], from row [from] on: the values of a
    declared row at its number, an empty sequence at every number that is not
    declared. *)
Fixpoint sparseRows (from : Z) (rows : list (Z * list string)) : list (list string) :=
  match rows with
  | [] => []
  | (n, vs) :: rest =>
      (repeat [] (Z.to_nat (n - from)) ++ vs :: sparseRows (n + 1) rest)%list
  end.

(** The iterators that calls of [Next] and [Columns] lead to from [rows]. *)
Inductive reaches (formattedValue : Z -> string -> string) (d : list string)
    (rows : Rows) : Rows -> Prop :=
| reaches_start : reaches formattedValue d rows rows
| reaches_Next (rows' : Rows) :
    reaches formattedValue d rows rows' ->
    reaches formattedValue d rows (snd (Next rows'))
| reaches_Columns (rows' rows'' : Rows) (columns : list string) (e : option error) :
    reaches formattedValue d rows rows' ->
    Columns formattedValue d rows' = Returned columns e rows'' ->
    reaches formattedValue d rows rows''.

(** A token that the loop of [Columns] passes over: not the start of a row
    or of a cell, not the end of a row. *)
Definition passedOver (t : Token) : bool :=
  match t with
  | StartElement local _ => negb (String.eqb local "row") && negb (String.eqb local "c")
  | EndElement local => negb (String.eqb local "row")
  | CharData _ => true
  end.

(** What the second loop of [duplicateMergeCells] duplicates among the
    entries it runs over: every single-row region on [row] that it
    examines; [skip] says that the entry at hand is stepped over, as the
    one after a duplicated region is (the [i++] of the loop body). *)
Fixpoint duplicated (skip : bool) (row : Z) (cells : list xlsxMergeCell)
  : list xlsxMergeCell :=
  match cells with
  | [] => []
  | m :: rest =>
      if skip then duplicated false row rest
      else if singleRowOn row m then m :: duplicated true row rest
      else duplicated false row rest
  end.

(** The region with the column span of [m] on row [row2]. *)
Definition regionAt (row2 : Z) (m : xlsxMergeCell) : xlsxMergeCell :=
  match areaRefToCoordinates (mRef m) with
  | Ok (x1, _, x2, _) => mkMergeCell (areaRef (cellName x1 row2) (cellName x2 row2))
  | _ => m
  end.

(** * Properties *)

(** ** Integers *)

Lemma wrapInt_inside (z : Z) : minInt <= z <= maxInt -> wrapInt z = z.
Proof.
  unfold wrapInt, minInt, maxInt. intros H.
  rewrite Z.mod_small by lia. lia.
Qed.

(** ** Slices *)

Lemma len_nonneg {A : Type} (l : list A) : 0 <= len l.
Proof. unfold len. lia. Qed.

Lemma len_app {A : Type} (l1 l2 : list A) : len (l1 ++ l2) = len l1 + len l2.
Proof. unfold len. rewrite length_app. lia. Qed.

Lemma replaceNth_length {A : Type} (l : list A) (n : nat) (a : A) :
  List.length (replaceNth l n a) = List.length l.
Proof.
  revert n. induction l as [|h t IH]; intros [|n]; simpl; auto.
Qed.

Lemma replaceNth_nth_error {A : Type} (l : list A) (n : nat) (a : A) :
  (n < List.length l)%nat -> nth_error (replaceNth l n a) n = Some a.
Proof.
  revert n. induction l as [|h t IH]; intros [|n] H; simpl in *; try lia; auto.
  apply IH. lia.
Qed.

Lemma replaceNth_nth_error_other {A : Type} (l : list A) (n m : nat) (a : A) :
  n <> m -> nth_error (replaceNth l n a) m = nth_error l m.
Proof.
  revert n m. induction l as [|h t IH]; intros [|n] [|m] H; simpl; auto.
  congruence.
Qed.

Lemma elemAt_inside {A : Type} (l : list A) (i : Z) :
  0 <= i < len l -> exists a, elemAt l i = Ok a.
Proof.
  intros [H0 H1]. unfold elemAt.
  destruct (i <? 0) eqn:E; [apply Z.ltb_lt in E; lia|].
  destruct (nth_error l (Z.to_nat i)) eqn:N; [eauto|].
  apply nth_error_None in N. unfold len in H1. lia.
Qed.

Lemma elemAt_outside {A : Type} (l : list A) (i : Z) :
  i < 0 \/ len l <= i -> elemAt l i = Panic.
Proof.
  intros H. unfold elemAt.
  destruct (i <? 0) eqn:E; [reflexivity|]. apply Z.ltb_ge in E.
  destruct (nth_error l (Z.to_nat i)) eqn:N; [|reflexivity].
  assert (nth_error l (Z.to_nat i) <> None) as N' by congruence.
  apply nth_error_Some in N'. unfold len in H. lia.
Qed.

Lemma assign_inside {A : Type} (l : list A) (i : Z) (a : A) :
  0 <= i < len l -> assign l i a = Ok (replaceNth l (Z.to_nat i) a).
Proof.
  intros [H0 H1]. unfold assign.
  destruct (i <? 0) eqn:E; [apply Z.ltb_lt in E; lia|].
  destruct (len l <=? i) eqn:E'; [apply Z.leb_le in E'; lia|]. reflexivity.
Qed.

Lemma elemAt_replaceNth {A : Type} (l : list A) (i : Z) (a : A) :
  0 <= i < len l -> elemAt (replaceNth l (Z.to_nat i) a) i = Ok a.
Proof.
  intros [H0 H1]. unfold elemAt.
  destruct (i <? 0) eqn:E; [apply Z.ltb_lt in E; lia|].
  rewrite replaceNth_nth_error; [reflexivity|]. unfold len in H1. lia.
Qed.

(** ** Row metadata accessors *)

Lemma appendRows_length (n : nat) (from : Z) (rows : list xlsxRow) :
  List.length (appendRows n from rows) = (List.length rows + n)%nat.
Proof.
  revert from rows. induction n as [|n IH]; intros from rows; simpl.
  - lia.
  - rewrite IH, length_app. simpl. lia.
Qed.

Lemma prepareSheetXML_len (xlsx : xlsxWorksheet) (col row : Z) :
  row <= len (Row (prepareSheetXML xlsx col row)).
Proof.
  unfold prepareSheetXML.
  destruct (len (Row xlsx) <? row) eqn:E; simpl.
  - apply Z.ltb_lt in E. unfold len in *. rewrite appendRows_length. lia.
  - apply Z.ltb_ge in E. exact E.
Qed.

Lemma GetRowVisible_beyond (xlsx : xlsxWorksheet) (row : Z) :
  1 <= row -> row > len (Row xlsx) -> GetRowVisible xlsx row = Ok false.
Proof.
  intros H1 H2. unfold GetRowVisible.
  destruct (row <? 1) eqn:E; [apply Z.ltb_lt in E; lia|].
  destruct (row >? len (Row xlsx)) eqn:E'; [reflexivity|].
  rewrite Z.gtb_ltb in E'. apply Z.ltb_ge in E'. lia.
Qed.

Lemma SetRowVisible_then_Get (xlsx : xlsxWorksheet) (row : Z) (visible : bool) :
  1 <= row ->
  exists xlsx', SetRowVisible xlsx row visible = Ok xlsx'
                /\ GetRowVisible xlsx' row = Ok visible.
Proof.
  intros H1. unfold SetRowVisible.
  destruct (row <? 1) eqn:E; [apply Z.ltb_lt in E; lia|].
  pose proof (prepareSheetXML_len xlsx 0 row) as HL.
  set (p := prepareSheetXML xlsx 0 row) in *.
  destruct (elemAt_inside (Row p) (row - 1)) as [r Hr]; [lia|].
  rewrite Hr. simpl. rewrite assign_inside by lia. simpl.
  eexists. split; [reflexivity|].
  unfold GetRowVisible. rewrite E. simpl.
  assert (len (replaceNth (Row p) (Z.to_nat (row - 1)) (setHidden r (negb visible)))
          = len (Row p)) as HL'.
  { unfold len. now rewrite replaceNth_length. }
  rewrite HL'.
  destruct (row >? len (Row p)) eqn:E'.
  - rewrite Z.gtb_ltb in E'. apply Z.ltb_lt in E'. lia.
  - rewrite elemAt_replaceNth by lia. simpl. now rewrite negb_involutive.
Qed.

(** C1, as stated, fails: on a worksheet with no stored row record,
    [GetRowVisible] of row 1 answers [false], not [true]. *)
Lemma C1_unset_row_counterexample :
  1 > len (Row (mkSheet [] None))
  /\ GetRowVisible (mkSheet [] None) 1 = Ok false
  /\ GetRowVisible (mkSheet [] None) 1 <> Ok true.
Proof.
  split; [reflexivity|]. split; [reflexivity|]. discriminate.
Qed.

(** C1 (amended): for every worksheet and every row number r >= 1 beyond the
    stored row records, [GetRowVisible] returns [false] with no error (the
    guard [row > len(xlsx.SheetData.Row)] answers [false, nil]); and for
    every row number r >= 1, [SetRowVisible(sheet, r, false)] succeeds and
    [GetRowVisible(sheet, r)] then returns [false]. *)
Theorem C1_GetRowVisible_guard_and_hide (xlsx : xlsxWorksheet) (r : Z)
    (Hr : 1 <= r) :
  (r > len (Row xlsx) -> GetRowVisible xlsx r = Ok false)
  /\ exists xlsx', SetRowVisible xlsx r false = Ok xlsx'
                   /\ GetRowVisible xlsx' r = Ok false.
Proof.
  split.
  - intros H. now apply GetRowVisible_beyond.
  - now apply SetRowVisible_then_Get.
Qed.

Lemma C1_GetRowVisible_guard_and_hide_witness :
  1 <= 3
  /\ ((3 > len (Row (mkSheet [emptyRow 1] None)) ->
       GetRowVisible (mkSheet [emptyRow 1] None) 3 = Ok false)
      /\ exists xlsx', SetRowVisible (mkSheet [emptyRow 1] None) 3 false = Ok xlsx'
                       /\ GetRowVisible xlsx' 3 = Ok false).
Proof.
  split; [lia|].
  apply (C1_GetRowVisible_guard_and_hide (mkSheet [emptyRow 1] None) 3); lia.
Defined.

(** ** Removing a row *)

Lemma findRow_none (n i : Z) (rows : list xlsxRow) :
  (forall x, In x rows -> rR x <> n) -> findRow n i rows = None.
Proof.
  revert i. induction rows as [|r rest IH]; intros i H; simpl; [reflexivity|].
  destruct (rR r =? n) eqn:E.
  - apply Z.eqb_eq in E. exfalso. apply (H r); [now left | exact E].
  - apply IH. intros x Hx. apply H. now right.
Qed.

(** C10: with n stored row records, 1 <= r <= n and no stored record
    numbered r, [RemoveRow(sheet, r)] returns nil and leaves the worksheet as
    it is; the reference shift is not run (the result is the same worksheet
    whatever the shift collaborator would do). *)
Theorem C10_RemoveRow_sparse_noop
    (adjustHelper : xlsxWorksheet -> Z -> Z -> result xlsxWorksheet)
    (xlsx : xlsxWorksheet) (r : Z)
    (Hr : 1 <= r <= len (Row xlsx))
    (Hsparse : forall x, In x (Row xlsx) -> rR x <> r) :
  RemoveRow adjustHelper xlsx r = Ok xlsx.
Proof.
  unfold RemoveRow.
  destruct (r <? 1) eqn:E; [apply Z.ltb_lt in E; lia|].
  destruct (r >? len (Row xlsx)) eqn:E'.
  - rewrite Z.gtb_ltb in E'. apply Z.ltb_lt in E'. lia.
  - now rewrite findRow_none.
Qed.

Lemma C10_RemoveRow_sparse_noop_witness :
  RemoveRow (fun _ _ _ => Panic)
    (mkSheet [emptyRow 1; emptyRow 5] None) 2
  = Ok (mkSheet [emptyRow 1; emptyRow 5] None).
Proof.
  apply (C10_RemoveRow_sparse_noop (fun _ _ _ => Panic)
           (mkSheet [emptyRow 1; emptyRow 5] None) 2).
  - unfold len; simpl; lia.
  - intros x [<-|[<-|[]]]; simpl; lia.
Defined.

(** ** Coordinate codec *)

Lemma letterValue_pos (c : ascii) (v : Z) : letterValue c = Some v -> 1 <= v.
Proof.
  unfold letterValue. intros H.
  destruct ((65 <=? Z.of_nat (nat_of_ascii c)) && (Z.of_nat (nat_of_ascii c) <=? 90)) eqn:E.
  - apply andb_prop in E as [E1 _]. apply Z.leb_le in E1. inversion H. lia.
  - destruct ((97 <=? Z.of_nat (nat_of_ascii c)) && (Z.of_nat (nat_of_ascii c) <=? 122)) eqn:E'.
    + apply andb_prop in E' as [E1 _]. apply Z.leb_le in E1. inversion H. lia.
    + discriminate.
Qed.

Lemma columnValue_ge (s : string) (acc c : Z) :
  0 <= acc -> columnValue acc s = Some c -> acc <= c.
Proof.
  revert acc. induction s as [|ch s IH]; intros acc Hacc H; simpl in H.
  - inversion H. lia.
  - destruct (letterValue ch) as [v|] eqn:L; [|discriminate].
    apply letterValue_pos in L. apply IH in H; lia.
Qed.

Lemma ColumnNameToNumber_range (name : string) (col : Z) :
  ColumnNameToNumber name = Ok col -> 1 <= col <= TotalColumns.
Proof.
  unfold ColumnNameToNumber. destruct name as [|ch s]; [discriminate|].
  destruct (columnValue 0 (String ch s)) as [c|] eqn:C; [|discriminate].
  destruct (c >? TotalColumns) eqn:E; [discriminate|].
  intros H. inversion H. subst c.
  rewrite Z.gtb_ltb in E. apply Z.ltb_ge in E. split; [|exact E].
  simpl in C. destruct (letterValue ch) as [v|] eqn:L; [|discriminate].
  apply letterValue_pos in L. apply columnValue_ge in C; lia.
Qed.

Lemma SplitCellName_row (cell col : string) (row : Z) :
  SplitCellName cell = Ok (col, row) -> 1 <= row.
Proof.
  unfold SplitCellName. destruct (spanAlpha cell) as [a b].
  destruct a; [discriminate|]. destruct b; [discriminate|].
  destruct (Atoi _) as [n| |]; try discriminate.
  destruct (n >? 0) eqn:E; [|discriminate].
  intros H. inversion H. subst. rewrite Z.gtb_ltb in E. apply Z.ltb_lt in E. lia.
Qed.

Lemma CellNameToCoordinates_range (cell : string) (col row : Z) :
  CellNameToCoordinates cell = Ok (col, row) ->
  1 <= col <= TotalColumns /\ 1 <= row.
Proof.
  unfold CellNameToCoordinates.
  destruct (SplitCellName cell) as [[c r]| |] eqn:S; simpl; try discriminate.
  destruct (ColumnNameToNumber c) as [n| |] eqn:N; simpl; try discriminate.
  intros H. inversion H. subst. split.
  - eapply ColumnNameToNumber_range; eauto.
  - eapply SplitCellName_row; eauto.
Qed.

Lemma CoordinatesToCellName_ok (col row : Z) :
  1 <= col <= TotalColumns -> 1 <= row ->
  CoordinatesToCellName col row = Ok (columnLetters 4 col EmptyString ++ itoa row)%string.
Proof.
  intros [H1 H2] H3. unfold CoordinatesToCellName, ColumnNumberToName.
  destruct (col <? 1) eqn:E; [apply Z.ltb_lt in E; lia|].
  destruct (row <? 1) eqn:E'; [apply Z.ltb_lt in E'; lia|]. simpl.
  destruct (col >? TotalColumns) eqn:E''; [|reflexivity].
  rewrite Z.gtb_ltb in E''. apply Z.ltb_lt in E''. lia.
Qed.

Lemma areaRefToCoordinates_range (ref : string) (x1 y1 x2 y2 : Z) :
  areaRefToCoordinates ref = Ok (x1, y1, x2, y2) ->
  (1 <= x1 <= TotalColumns /\ 1 <= y1) /\ (1 <= x2 <= TotalColumns /\ 1 <= y2).
Proof.
  unfold areaRefToCoordinates.
  destruct (splitAt ":" ref) as [[a b]|]; [|discriminate].
  destruct (CellNameToCoordinates a) as [[c1 r1]| |] eqn:A; simpl; try discriminate.
  destruct (CellNameToCoordinates b) as [[c2 r2]| |] eqn:B; simpl; try discriminate.
  intros H. inversion H. subst.
  split; eapply CellNameToCoordinates_range; eauto.
Qed.

(** ** The reference shift modelled from the specification *)

Lemma shiftReferences_rows (xlsx xlsx' : xlsxWorksheet) (num offset : Z) :
  shiftReferences xlsx num offset = Ok xlsx' ->
  Row xlsx' = map (shiftRow num offset) (Row xlsx).
Proof.
  unfold shiftReferences. destruct (MergeCells xlsx) as [cells|].
  - destruct (shiftMerges num offset cells); simpl; try discriminate.
    intros H. now inversion H.
  - intros H. now inversion H.
Qed.

Lemma shiftY_pos (num offset y : Z) :
  1 <= num + offset -> 1 <= y -> 1 <= shiftY num offset y.
Proof.
  intros H1 H2. unfold shiftY. destruct (y >=? num) eqn:E; [|lia].
  rewrite Z.geb_leb in E. apply Z.leb_le in E. lia.
Qed.

Lemma shiftMerges_ok (num offset : Z) (cells : list xlsxMergeCell) :
  1 <= num + offset ->
  Forall (fun m => exists c, areaRefToCoordinates (mRef m) = Ok c) cells ->
  exists cells', shiftMerges num offset cells = Ok cells'.
Proof.
  intros Hn H. induction H as [|m rest [c Hc] _ [rest' IH]]; simpl.
  - eauto.
  - rewrite Hc. simpl. destruct c as [[[x1 y1] x2] y2].
    apply areaRefToCoordinates_range in Hc as [[Hx1 Hy1] [Hx2 Hy2]].
    rewrite !CoordinatesToCellName_ok by (auto using shiftY_pos). simpl.
    rewrite IH. simpl. eauto.
Qed.

Lemma shiftReferences_ok (xlsx : xlsxWorksheet) (num offset : Z) :
  1 <= num + offset ->
  (forall cells, MergeCells xlsx = Some cells ->
     Forall (fun m => exists c, areaRefToCoordinates (mRef m) = Ok c) cells) ->
  exists m, shiftReferences xlsx num offset
            = Ok (mkSheet (map (shiftRow num offset) (Row xlsx)) m).
Proof.
  intros Hn H. unfold shiftReferences.
  destruct (MergeCells xlsx) as [cells|].
  - destruct (shiftMerges_ok num offset cells Hn (H cells eq_refl)) as [c' Hc].
    rewrite Hc. simpl. eauto.
  - eauto.
Qed.

(** C8: [RemoveRow] answers [InvalidRowNumber] for every row below 1; for a
    row beyond the stored records it removes nothing and hands the worksheet
    as it is to the reference shift by -1 at that row; and on a worksheet of
    five rows numbered 1 to 5, removing row 3 leaves exactly four records,
    rows 4 and 5 renumbered to 3 and 4 (the shift being the one the
    specification describes, every merged region having a well-formed
    reference). *)
Theorem C8_RemoveRow
    (adjustHelper : xlsxWorksheet -> Z -> Z -> result xlsxWorksheet)
    (xlsx : xlsxWorksheet) (row : Z)
    (r1 r2 r3 r4 r5 : xlsxRow) (m : option (list xlsxMergeCell))
    (H1 : rR r1 = 1) (H2 : rR r2 = 2) (H3 : rR r3 = 3)
    (H4 : rR r4 = 4) (H5 : rR r5 = 5)
    (Hm : forall cells, m = Some cells ->
          Forall (fun c => exists xy, areaRefToCoordinates (mRef c) = Ok xy) cells) :
  (row < 1 -> RemoveRow adjustHelper xlsx row = Err (InvalidRowNumber row))
  /\ (1 <= row -> row > len (Row xlsx) ->
      RemoveRow adjustHelper xlsx row = adjustHelper xlsx row (-1))
  /\ (exists m',
        RemoveRow shiftReferences (mkSheet [r1; r2; r3; r4; r5] m) 3
        = Ok (mkSheet [r1; r2; ajustSingleRowDimensions r4 3;
                       ajustSingleRowDimensions r5 4] m')).
Proof.
  split; [|split].
  - intros H. unfold RemoveRow.
    destruct (row <? 1) eqn:E; [reflexivity|]. apply Z.ltb_ge in E. lia.
  - intros Ha Hb. unfold RemoveRow.
    destruct (row <? 1) eqn:E; [apply Z.ltb_lt in E; lia|].
    destruct (row >? len (Row xlsx)) eqn:E'; [reflexivity|].
    rewrite Z.gtb_ltb in E'. apply Z.ltb_ge in E'. lia.
  - unfold RemoveRow. simpl. rewrite H1, H2, H3. simpl.
    destruct (shiftReferences_ok (mkSheet [r1; r2; r4; r5] m) 3 (-1)) as [m' Hs];
      [lia | exact Hm |].
    rewrite Hs. simpl. unfold shiftRow. rewrite H1, H2, H4, H5. simpl. eauto.
Qed.

Lemma C8_RemoveRow_witness :
  (7 > len (Row sheet5) ->
   RemoveRow shiftReferences sheet5 7 = shiftReferences sheet5 7 (-1))
  /\ exists m',
       RemoveRow shiftReferences sheet5 3
       = Ok (mkSheet [sampleRow 1; sampleRow 2;
                      ajustSingleRowDimensions (sampleRow 4) 3;
                      ajustSingleRowDimensions (sampleRow 5) 4] m').
Proof.
  destruct (C8_RemoveRow shiftReferences sheet5 7
              (sampleRow 1) (sampleRow 2) (sampleRow 3) (sampleRow 4) (sampleRow 5)
              (Some [mkMergeCell "C2:D2"; mkMergeCell "A4:B4"])
              eq_refl eq_refl eq_refl eq_refl eq_refl) as [_ [Hb Hc]].
  - intros cells [= <-].
    repeat constructor; eexists; vm_compute; reflexivity.
  - split; [intros H; apply Hb; [lia | exact H] | exact Hc].
Defined.

(** ** Decimal numbers *)

Lemma Atoi_unsigned (c : ascii) (s : string) (d : uint) :
  isDigit c = true ->
  NilEmpty.uint_of_string (String c s) = Some d ->
  Z.of_uint d <= maxInt ->
  Atoi (String c s) = Ok (Z.of_uint d).
Proof.
  intros Hc Hd Hmax. unfold Atoi.
  destruct (Ascii.eqb c "-") eqn:E1.
  { apply Ascii.eqb_eq in E1. subst c. discriminate. }
  destruct (Ascii.eqb c "+") eqn:E2.
  { apply Ascii.eqb_eq in E2. subst c. discriminate. }
  rewrite Hd.
  assert (0 <= Z.of_uint d) by (unfold Z.of_uint; lia).
  assert ((minInt <=? Z.of_uint d) && (Z.of_uint d <=? maxInt) = true) as ->.
  { apply andb_true_intro; split; apply Z.leb_le; [unfold minInt; lia | exact Hmax]. }
  reflexivity.
Qed.

Lemma Atoi_itoa (n : Z) : 0 <= n <= maxInt -> Atoi (itoa n) = Ok n.
Proof.
  intros [H0 H1]. destruct n as [|p|p]; [reflexivity| |lia].
  unfold itoa. simpl Z.to_int. unfold NilZero.string_of_int, NilZero.string_of_uint.
  pose proof (DecimalPos.Unsigned.of_to p) as Hp.
  pose proof (NilEmpty.usu (Pos.to_uint p)) as Hu.
  assert (Z.of_uint (Pos.to_uint p) = Z.pos p) as Hz
    by (unfold Z.of_uint; now rewrite Hp).
  destruct (Pos.to_uint p) as [|d|d|d|d|d|d|d|d|d|d] eqn:E;
    try (simpl in Hp; discriminate);
    simpl NilEmpty.string_of_uint in *;
    rewrite <- Hz; apply Atoi_unsigned; solve [reflexivity | exact Hu | lia].
Qed.

(** ** Value resolution *)

Section ValueResolution.

Variable formattedValue : Z -> string -> string.

(** A shared-string cell whose raw value is an index [n >= 0]: the shared
    string when [n] is inside the table, the raw value otherwise. *)
Lemma getValueFrom_shared_index (c : xlsxC) (d : list string) (n : Z) :
  cT c = "s" -> cV c <> EmptyString -> Atoi (cV c) = Ok n -> 0 <= n ->
  (n < len d ->
     exists si, nth_error d (Z.to_nat n) = Some si
                /\ getValueFrom formattedValue c d = Ok (formattedValue (cS c) si))
  /\ (len d <= n ->
        getValueFrom formattedValue c d = Ok (formattedValue (cS c) (cV c))).
Proof.
  intros HT HV HA Hn. unfold getValueFrom. rewrite HT. simpl.
  destruct (String.eqb (cV c) EmptyString) eqn:E;
    [apply String.eqb_eq in E; contradiction|]. simpl.
  rewrite HA. simpl. split; intros H.
  - destruct (len d >? n) eqn:G;
      [|rewrite Z.gtb_ltb in G; apply Z.ltb_ge in G; lia].
    unfold elemAt. destruct (n <? 0) eqn:N; [apply Z.ltb_lt in N; lia|].
    destruct (nth_error d (Z.to_nat n)) as [si|] eqn:S.
    + exists si. split; reflexivity.
    + apply nth_error_None in S. unfold len in H. lia.
  - destruct (len d >? n) eqn:G; [|reflexivity].
    rewrite Z.gtb_ltb in G. apply Z.ltb_lt in G. lia.
Qed.

(** A raw value that reads as a negative number passes the guard
    [len(d.SI) > xlsxSI] and indexes the table below zero. *)
Lemma getValueFrom_negative_index (c : xlsxC) (d : list string) (n : Z) :
  cT c = "s" -> cV c <> EmptyString -> Atoi (cV c) = Ok n -> n < 0 ->
  getValueFrom formattedValue c d = Panic.
Proof.
  intros HT HV HA Hn. unfold getValueFrom. rewrite HT. simpl.
  destruct (String.eqb (cV c) EmptyString) eqn:E;
    [apply String.eqb_eq in E; contradiction|]. simpl.
  rewrite HA. simpl. pose proof (len_nonneg d).
  destruct (len d >? n) eqn:G;
    [|rewrite Z.gtb_ltb in G; apply Z.ltb_ge in G; lia].
  rewrite elemAt_outside by lia. reflexivity.
Qed.

(** A raw value that is no number at all is read as index 0: the error of
    [strconv.Atoi] is dropped. *)
Lemma getValueFrom_not_a_number (s : Z) (first : string) (rest : list string) :
  getValueFrom formattedValue (mkC "A1" s "s" "abc" None) (first :: rest)
  = Ok (formattedValue s first).
Proof.
  assert ((len (first :: rest) >? 0) = true) as G.
  { pose proof (len_nonneg rest). unfold len in *. simpl List.length.
    rewrite Z.gtb_ltb. apply Z.ltb_lt. lia. }
  unfold getValueFrom. cbv beta iota delta [cT cV cS cIS].
  change (String.eqb "s" "s") with true.
  change (String.eqb "abc" EmptyString) with false.
  change (Atoi "abc") with (@Err Z (ErrSyntax "abc")).
  cbv beta iota delta [negb ignoreErr bind]. rewrite G. reflexivity.
Qed.

(** C7 at its failing input: the shared-string cell with raw value "-1"
    makes [getValueFrom] panic, whatever the style and the shared-string
    table; the claim promises the raw value formatted as it is. *)
Theorem C7_getValueFrom_negative_index_panics (s : Z) (d : list string) :
  getValueFrom formattedValue (mkC "A1" s "s" "-1" None) d = Panic.
Proof.
  apply (getValueFrom_negative_index _ d (-1));
    [reflexivity | discriminate | reflexivity | lia].
Qed.

End ValueResolution.

(** ** Opening the iterator *)

Lemma scanTotal_body (body rest : list Token) (row total : Z) :
  noRowStart body = true ->
  scanTotal row total (body ++ rest) = scanTotal row total rest.
Proof.
  induction body as [|t body IH]; intros H; simpl in *; [reflexivity|].
  destruct t as [local attr|local|data]; auto.
  apply andb_prop in H as [H1 H2].
  destruct (String.eqb local "row"); [discriminate|]. auto.
Qed.

Lemma scanTotal_rowElement (n : Z) (body rest : list Token) (row total : Z) :
  0 <= n <= maxInt -> noRowStart body = true ->
  scanTotal row total (rowElement n body ++ rest) = scanTotal n n rest.
Proof.
  intros Hn Hb. unfold rowElement. simpl.
  rewrite Atoi_itoa by exact Hn. simpl.
  rewrite <- app_assoc. rewrite scanTotal_body by exact Hb. reflexivity.
Qed.

Lemma last_nonempty_default {A : Type} (a : A) (l : list A) (d d' : A) :
  last (a :: l) d = last (a :: l) d'.
Proof.
  revert a. induction l as [|b l IH]; intros a; [reflexivity|].
  change (last (b :: l) d = last (b :: l) d'). apply IH.
Qed.

Lemma scanTotal_sheetData (rows : list (Z * list Token)) (rest : list Token)
    (row total : Z) :
  Forall (fun r => 0 <= fst r <= maxInt /\ noRowStart (snd r) = true) rows ->
  scanTotal row total (sheetDataXML rows ++ rest)
  = scanTotal (last (map fst rows) row) (last (map fst rows) total) rest.
Proof.
  intros H. revert row total.
  induction H as [|[n body] rows [Hn Hb] _ IH]; intros row total; [reflexivity|].
  change (sheetDataXML ((n, body) :: rows))
    with (rowElement n body ++ sheetDataXML rows)%list.
  simpl in Hn, Hb. rewrite <- app_assoc.
  rewrite scanTotal_rowElement by assumption. rewrite IH.
  simpl map. destruct (map fst rows) as [|z l]; [reflexivity|].
  change (last (n :: z :: l) row) with (last (z :: l) row).
  change (last (n :: z :: l) total) with (last (z :: l) total).
  f_equal; apply last_nonempty_default.
Qed.

Lemma File_Rows_worksheetXML (rows : list (Z * list Token)) :
  Forall (fun r => 0 <= fst r <= maxInt /\ noRowStart (snd r) = true) rows ->
  File_Rows (worksheetXML rows)
  = Ok (mkRows None 0 (last (map fst rows) 0) 0 (worksheetXML rows)).
Proof.
  intros H. unfold File_Rows.
  assert (scanTotal 0 0 (worksheetXML rows) = Ok (last (map fst rows) 0)) as ->;
    [|reflexivity].
  unfold worksheetXML. simpl. now rewrite scanTotal_sheetData.
Qed.

Lemma NextTimes_cursor (k : nat) (rows : Rows) :
  0 <= curRow rows -> curRow rows + Z.of_nat k <= maxInt ->
  curRow (NextTimes k rows) = curRow rows + Z.of_nat k
  /\ totalRow (NextTimes k rows) = totalRow rows.
Proof.
  revert rows. induction k as [|k IH]; intros rows H0 Hk; [simpl; split; lia|].
  change (NextTimes (S k) rows) with (NextTimes k (snd (Next rows))).
  assert (curRow (snd (Next rows)) = curRow rows + 1) as C.
  { unfold Next. cbn [snd curRow]. apply wrapInt_inside. unfold minInt. lia. }
  destruct (IH (snd (Next rows))) as [H1 H2]; [lia | lia |].
  rewrite H1, H2, C. split; [lia | reflexivity].
Qed.

Lemma Next_answer (rows : Rows) :
  fst (Next rows) = (wrapInt (curRow rows + 1) <=? totalRow rows)
  /\ curRow (snd (Next rows)) = wrapInt (curRow rows + 1).
Proof. split; reflexivity. Qed.

Lemma last_of_ascending (l : list Z) (d n : Z) :
  StronglySorted Z.le l -> In n l -> n <= last l d.
Proof.
  induction 1 as [|a l Hs IH Ha]; intros Hin; [contradiction|].
  destruct Hin as [<-|Hin].
  - destruct l as [|b l']; simpl; [lia|].
    rewrite Forall_forall in Ha.
    assert (In (last (b :: l') d) (b :: l')) as HL.
    { clear. revert b. induction l' as [|c l' IH]; intros b; [now left|].
      right. apply IH. }
    now apply Ha.
  - specialize (IH Hin). destruct l; [contradiction|]. exact IH.
Qed.

(** C5, as stated, fails: with row 5 declared before row 3 the pre-scan
    leaves [totalRow] at 3, not at the maximum 5, and the fourth [Next]
    answers false. *)
Lemma C5_out_of_order_counterexample :
  exists it, File_Rows (worksheetXML [(5, []); (3, [])]) = Ok it
             /\ totalRow it = 3
             /\ totalRow it <> Z.max 5 3
             /\ fst (Next (NextTimes 3 it)) = false.
Proof.
  eexists. split; [vm_compute; reflexivity|].
  split; [reflexivity|]. split; [vm_compute; discriminate | reflexivity].
Qed.

(** C5 (amended): for a worksheet whose XML declares row elements in any
    order, [Rows] sets [totalRow] to the number declared by the last row
    element (0 when there is none), and the k-th call of [Next] answers true
    exactly when k <= totalRow; when the rows are declared in ascending
    order, that last number is the maximum declared.  (The cursor is an
    [int]: the statement about [Next] is for the calls that it can count.) *)
Theorem C5_Rows_totalRow_is_last_declared (rows : list (Z * list Token))
    (Hrows : Forall (fun r => 0 <= fst r <= maxInt /\ noRowStart (snd r) = true)
                    rows) :
  exists it, File_Rows (worksheetXML rows) = Ok it
    /\ totalRow it = last (map fst rows) 0
    /\ (forall k : nat, Z.of_nat (S k) <= maxInt ->
          (fst (Next (NextTimes k it)) = true <-> Z.of_nat (S k) <= totalRow it))
    /\ (StronglySorted Z.le (map fst rows) ->
        forall n, In n (map fst rows) -> n <= totalRow it).
Proof.
  exists (mkRows None 0 (last (map fst rows) 0) 0 (worksheetXML rows)).
  split; [now apply File_Rows_worksheetXML|].
  split; [reflexivity|]. split.
  - intros k Hk. rewrite (proj1 (Next_answer _)).
    destruct (NextTimes_cursor k
                (mkRows None 0 (last (map fst rows) 0) 0 (worksheetXML rows)))
      as [H1 H2]; [simpl; lia | simpl; lia |].
    rewrite H1, H2. simpl curRow. simpl totalRow.
    rewrite wrapInt_inside by (unfold minInt; lia). rewrite Z.leb_le. lia.
  - intros Hs n Hn. now apply last_of_ascending.
Qed.

Lemma C5_Rows_totalRow_is_last_declared_witness :
  exists it, File_Rows (worksheetXML [(1, []); (3, [CharData "x"]); (5, [])]) = Ok it
    /\ totalRow it = 5
    /\ (forall k : nat, Z.of_nat (S k) <= maxInt ->
          (fst (Next (NextTimes k it)) = true <-> Z.of_nat (S k) <= totalRow it))
    /\ (StronglySorted Z.le [1; 3; 5] ->
        forall n, In n [1; 3; 5] -> n <= totalRow it).
Proof.
  apply (C5_Rows_totalRow_is_last_declared
           [(1, []); (3, [CharData "x"]); (5, [])]).
  repeat constructor; simpl; unfold maxInt; lia.
Defined.

(** ** Streaming the rows *)

Lemma DecodeElement_cellElement (c : xlsxC) (rest : list Token) :
  0 <= cS c <= maxInt ->
  DecodeElement (cellAttrs c) (cellChildren c ++ rest) = (c, rest).
Proof.
  intros HS. destruct c as [R S T V IS]. simpl in HS.
  unfold cellAttrs, cellChildren, DecodeElement. cbn [cR cS cT cV cIS].
  cbn [attrValue aName aValue].
  change (String.eqb "r" "r") with true.
  change (String.eqb "r" "s") with false.
  change (String.eqb "s" "s") with true.
  change (String.eqb "r" "t") with false.
  change (String.eqb "s" "t") with false.
  change (String.eqb "t" "t") with true.
  cbv iota. rewrite Atoi_itoa by exact HS.
  destruct IS as [t|]; reflexivity.
Qed.

Lemma cellsXML_length (cells : list xlsxC) :
  (List.length cells <= List.length (cellsXML cells))%nat.
Proof.
  induction cells as [|c cells IH]; [simpl; lia|].
  change (cellsXML (c :: cells)) with (cellElement c ++ cellsXML cells)%list.
  rewrite length_app. unfold cellElement. simpl List.length. lia.
Qed.

Lemma cellsXML_noRowStart (cells : list xlsxC) : noRowStart (cellsXML cells) = true.
Proof.
  induction cells as [|c cells IH]; [reflexivity|].
  change (cellsXML (c :: cells)) with (cellElement c ++ cellsXML cells)%list.
  unfold cellElement, cellChildren. destruct (cIS c); simpl; exact IH.
Qed.

Section RowReader.

Variable formattedValue : Z -> string -> string.

Lemma columnsLoop_c (fuel : nat) (d : list string) (rows : Rows)
    (columns : list string) (attr : list Attr) (ts : list Token) :
  columnsLoop formattedValue (S fuel) d rows columns (StartElement "c" attr :: ts)
  = let '(colCell, ts'') := DecodeElement attr ts in
    match CellNameToCoordinates (cR colCell) with
    | Err e => Returned columns (Some e) (setDecoder rows ts'')
    | Panic => Panicked
    | Ok (cellCol, _) =>
        match getValueFrom formattedValue colCell d with
        | Ok val =>
            columnsLoop formattedValue fuel d rows
              (padBlank columns cellCol ++ [val]) ts''
        | Err _ =>
            columnsLoop formattedValue fuel d rows
              (padBlank columns cellCol ++ [EmptyString]) ts''
        | Panic => Panicked
        end
    end.
Proof. reflexivity. Qed.

Lemma columnsLoop_cells (d : list string) (rows : Rows) (rest : list Token)
    (cells : list xlsxC) :
  Forall (fun c => 0 <= cS c <= maxInt) cells ->
  forall (fuel : nat) (columns vs : list string),
  denseValues formattedValue d columns cells = Some vs ->
  (List.length cells < fuel)%nat ->
  columnsLoop formattedValue fuel d rows columns (cellsXML cells ++ EndElement "row" :: rest)
  = Returned vs None (setDecoder rows rest).
Proof.
  induction 1 as [|c cells Hc _ IH]; intros fuel columns vs Hv Hf.
  - simpl in Hv. inversion Hv. subst. destruct fuel as [|fuel]; [simpl in Hf; lia|].
    reflexivity.
  - destruct fuel as [|fuel]; [simpl in Hf; lia|].
    change (cellsXML (c :: cells) ++ EndElement "row" :: rest)%list
      with (StartElement "c" (cellAttrs c)
            :: ((cellChildren c ++ cellsXML cells) ++ EndElement "row" :: rest))%list.
    rewrite <- app_assoc, columnsLoop_c.
    rewrite DecodeElement_cellElement by exact Hc.
    simpl in Hv.
    destruct (CellNameToCoordinates (cR c)) as [[col r]| |]; try discriminate.
    destruct (getValueFrom formattedValue c d) as [val| |]; try discriminate.
    apply IH; [exact Hv | simpl in Hf; lia].
Qed.

Lemma columnsLoop_row (fuel : nat) (d : list string) (rows : Rows)
    (columns : list string) (attr : list Attr) (ts : list Token) :
  columnsLoop formattedValue (S fuel) d rows columns (StartElement "row" attr :: ts)
  = match rowAhead (curRow rows) attr with
    | Err e => Returned columns (Some e) (setDecoder rows ts)
    | Panic => Panicked
    | Ok (Some row) => Returned columns None (setStash rows (row - 1) ts)
    | Ok None => columnsLoop formattedValue fuel d rows columns ts
    end.
Proof. reflexivity. Qed.

Lemma rowAhead_declared (cur n : Z) :
  0 <= n <= maxInt ->
  rowAhead cur [mkAttr "r" (itoa n)] = Ok (if n >? cur then Some n else None).
Proof.
  intros Hn. unfold rowAhead. cbn [aName aValue].
  change (String.eqb "r" "r") with true. cbv iota.
  rewrite Atoi_itoa by exact Hn. simpl. now destruct (n >? cur).
Qed.

Lemma rowElement_app (n : Z) (body rest : list Token) :
  (rowElement n body ++ rest)%list
  = StartElement "row" [mkAttr "r" (itoa n)] :: (body ++ EndElement "row" :: rest)%list.
Proof. unfold rowElement. simpl. now rewrite <- app_assoc. Qed.

Lemma columnsLoop_row_reached (fuel : nat) (d : list string) (rows : Rows)
    (n : Z) (cells : list xlsxC) (rest : list Token) (vs : list string) :
  curRow rows = n -> 0 <= n <= maxInt ->
  Forall (fun c => 0 <= cS c <= maxInt) cells ->
  denseValues formattedValue d [] cells = Some vs ->
  (S (List.length cells) < fuel)%nat ->
  columnsLoop formattedValue fuel d rows [] (rowElement n (cellsXML cells) ++ rest)
  = Returned vs None (setDecoder rows rest).
Proof.
  intros Hcur Hn Hc Hv Hf. destruct fuel as [|fuel]; [lia|].
  rewrite rowElement_app, columnsLoop_row, rowAhead_declared by exact Hn.
  rewrite Hcur.
  assert ((n >? n) = false) as -> by (rewrite Z.gtb_ltb; apply Z.ltb_ge; lia).
  apply columnsLoop_cells; [exact Hc | exact Hv | lia].
Qed.

Lemma columnsLoop_row_ahead (fuel : nat) (d : list string) (rows : Rows)
    (n : Z) (body rest : list Token) (columns : list string) :
  curRow rows < n -> 0 <= n <= maxInt ->
  columnsLoop formattedValue (S fuel) d rows columns (rowElement n body ++ rest)
  = Returned columns None
      (setStash rows (n - 1) (body ++ EndElement "row" :: rest)).
Proof.
  intros Hcur Hn.
  rewrite rowElement_app, columnsLoop_row, rowAhead_declared by exact Hn.
  assert ((n >? curRow rows) = true) as -> by (rewrite Z.gtb_ltb; apply Z.ltb_lt; lia).
  reflexivity.
Qed.

Lemma drain_step (fuel : nat) (d : list string) (rows : Rows)
    (results : list (list string)) :
  drain formattedValue (S fuel) d rows results
  = if fst (Next rows) then
      match Error (snd (Next rows)) with
      | Some _ => Ok results
      | None =>
          match Columns formattedValue d (snd (Next rows)) with
          | Panicked => Panic
          | Returned _ (Some _) _ => Ok results
          | Returned row None rows' => drain formattedValue fuel d rows' (results ++ [row])
          end
      end
    else Ok results.
Proof. reflexivity. Qed.

Lemma Columns_row_reached (d : list string) (rows : Rows) (n : Z)
    (cells : list xlsxC) (rest : list Token) (vs : list string) :
  stashRow rows < curRow rows -> curRow rows = n -> 0 <= n <= maxInt ->
  Forall (fun c => 0 <= cS c <= maxInt) cells ->
  denseValues formattedValue d [] cells = Some vs ->
  decoder rows = (rowElement n (cellsXML cells) ++ rest)%list ->
  Columns formattedValue d rows = Returned vs None (setDecoder rows rest).
Proof.
  intros Hs Hcur Hn Hc Hv Hd. unfold Columns.
  destruct (stashRow rows >=? curRow rows) eqn:E;
    [rewrite Z.geb_leb in E; apply Z.leb_le in E; lia|].
  rewrite Hd. apply columnsLoop_row_reached; try assumption.
  rewrite rowElement_app. simpl List.length. rewrite length_app.
  pose proof (cellsXML_length cells). simpl List.length. lia.
Qed.



Lemma Columns_stashed_row (d : list string) (rows : Rows)
    (cells : list xlsxC) (rest : list Token) (vs : list string) :
  stashRow rows < curRow rows ->
  Forall (fun c => 0 <= cS c <= maxInt) cells ->
  denseValues formattedValue d [] cells = Some vs ->
  decoder rows = (cellsXML cells ++ EndElement "row" :: rest)%list ->
  Columns formattedValue d rows = Returned vs None (setDecoder rows rest).
Proof.
  intros Hs Hc Hv Hd. unfold Columns.
  destruct (stashRow rows >=? curRow rows) eqn:E;
    [rewrite Z.geb_leb in E; apply Z.leb_le in E; lia|].
  rewrite Hd. apply columnsLoop_cells; try assumption.
  rewrite length_app. pose proof (cellsXML_length cells). simpl List.length. lia.
Qed.


End RowReader.


(** ** Row densifier *)

Lemma checkRowAt_no_cells (rowIdx : Z) (rowData : xlsxRow) :
  rC rowData = [] -> checkRowAt rowIdx rowData = Ok rowData.
Proof. intros H. unfold checkRowAt. now rewrite H. Qed.

Lemma checkRowsFrom_no_cells (rowIdx : Z) (rows : list xlsxRow) :
  Forall (fun r => rC r = []) rows -> checkRowsFrom rowIdx rows = Ok rows.
Proof.
  intros H. revert rowIdx. induction H as [|r rows Hr _ IH]; intros rowIdx; simpl.
  - reflexivity.
  - rewrite checkRowAt_no_cells by exact Hr. simpl. now rewrite IH.
Qed.

Lemma checkRowsFrom_app (rowIdx : Z) (l1 l2 : list xlsxRow) :
  checkRowsFrom rowIdx (l1 ++ l2)
  = (r1 <- checkRowsFrom rowIdx l1 ;;
     r2 <- checkRowsFrom (rowIdx + len l1) l2 ;;
     Ok (r1 ++ r2)%list).
Proof.
  revert rowIdx. induction l1 as [|r l1 IH]; intros rowIdx.
  - simpl. replace (rowIdx + len []) with rowIdx by (unfold len; simpl; lia).
    destruct (checkRowsFrom rowIdx l2); reflexivity.
  - simpl. destruct (checkRowAt rowIdx r); simpl; try reflexivity.
    rewrite IH.
    replace (rowIdx + 1 + len l1) with (rowIdx + len (r :: l1))
      by (unfold len; simpl List.length; lia).
    destruct (checkRowsFrom (rowIdx + 1) l1); simpl; try reflexivity.
    destruct (checkRowsFrom _ l2); reflexivity.
Qed.

(** The seven placeholders built for a row stored at position [rowIdx]:
    their references carry [rowIdx + 1]. *)
Lemma newlistFrom_seven (rowIdx : Z) :
  0 <= rowIdx ->
  newlistFrom 7 0 rowIdx
  = Ok (map (fun col => placeholder (col ++ itoa (rowIdx + 1)))
            ["A"; "B"; "C"; "D"; "E"; "F"; "G"]).
Proof.
  intros H. unfold newlistFrom.
  repeat (rewrite CoordinatesToCellName_ok by (unfold TotalColumns; lia);
          cbn [bind]).
  reflexivity.
Qed.

(** A row with cells declared at columns 1, 2, 6 and 7, stored at position
    [rowIdx]: seven cells, the declared ones at their columns and
    placeholders at columns 3, 4, 5 whose references carry [rowIdx + 1],
    whatever the number of the row. *)
Lemma checkRowAt_columns_1_2_6_7 (rowIdx : Z) (rowData : xlsxRow)
    (a b f g : xlsxC) (ra rb rf rg : Z) :
  0 <= rowIdx ->
  rC rowData = [a; b; f; g] ->
  CellNameToCoordinates (cR a) = Ok (1, ra) ->
  CellNameToCoordinates (cR b) = Ok (2, rb) ->
  CellNameToCoordinates (cR f) = Ok (6, rf) ->
  CellNameToCoordinates (cR g) = Ok (7, rg) ->
  checkRowAt rowIdx rowData
  = Ok (setC rowData
          [a; b; placeholder ("C" ++ itoa (rowIdx + 1));
           placeholder ("D" ++ itoa (rowIdx + 1));
           placeholder ("E" ++ itoa (rowIdx + 1)); f; g]).
Proof.
  intros Hi HC Ha Hb Hf Hg. unfold checkRowAt. rewrite HC.
  change (len [a; b; f; g]) with 4. cbn [Z.eqb].
  change (elemAt [a; b; f; g] (4 - 1)) with (Ok g). cbn [bind].
  rewrite Hg. cbn [bind fst]. change (4 <? 7) with true. cbv iota.
  change (Z.to_nat 7) with 7%nat. rewrite newlistFrom_seven by exact Hi.
  cbn [bind map overlay]. rewrite Ha, Hb, Hf, Hg. reflexivity.
Qed.

(** The row of the documentation of [checkRow], stored at position 15
    (after fourteen rows without cells): seven cells A15 to G15, the
    declared cells unchanged at columns 1, 2, 6, 7 and reference-only
    placeholders at columns 3, 4, 5. *)
Lemma checkRow_row15_at_position_15 (sa sb sf sg : Z) (va vb vf vg : string) :
  let a := mkC "A15" sa EmptyString va None in
  let b := mkC "B15" sb EmptyString vb None in
  let f := mkC "F15" sf EmptyString vf None in
  let g := mkC "G15" sg EmptyString vg None in
  let before := map emptyRow [1; 2; 3; 4; 5; 6; 7; 8; 9; 10; 11; 12; 13; 14] in
  checkRow (mkSheet (before ++ [mkRow 15 false 0 [a; b; f; g]]) None)
  = Ok (mkSheet (before ++ [mkRow 15 false 0
                              [a; b; placeholder "C15"; placeholder "D15";
                               placeholder "E15"; f; g]]) None).
Proof.
  intros a b f g before. unfold checkRow. cbn [Row MergeCells].
  rewrite checkRowsFrom_app.
  rewrite checkRowsFrom_no_cells by (repeat constructor). cbn [bind].
  change (0 + len before) with 14. cbn [checkRowsFrom].
  rewrite (checkRowAt_columns_1_2_6_7 14 _ a b f g 15 15 15 15);
    solve [reflexivity | lia].
Qed.

(** C2 at its failing input: the row numbered 15 with cells at columns 1,
    2, 6, 7, stored as the first row record.  [checkRow] names the
    placeholders C1, D1, E1: it builds them from the position of the record
    ([rowIdx+1]), not from the number of the row; the claim, and the
    documentation of [checkRow], say C15, D15, E15. *)
Theorem C2_checkRow_row15_stored_first (sa sb sf sg : Z) (va vb vf vg : string) :
  let a := mkC "A15" sa EmptyString va None in
  let b := mkC "B15" sb EmptyString vb None in
  let f := mkC "F15" sf EmptyString vf None in
  let g := mkC "G15" sg EmptyString vg None in
  checkRow (mkSheet [mkRow 15 false 0 [a; b; f; g]] None)
  = Ok (mkSheet [mkRow 15 false 0
                   [a; b; placeholder "C1"; placeholder "D1"; placeholder "E1";
                    f; g]] None).
Proof.
  intros a b f g. unfold checkRow. cbn [Row MergeCells checkRowsFrom].
  rewrite (checkRowAt_columns_1_2_6_7 0 _ a b f g 15 15 15 15);
    solve [reflexivity | lia].
Qed.

(** ** Printing and reading references *)

Lemma allFrom_spec (n : nat) (from : Z) (p : Z -> bool) :
  allFrom n from p = true ->
  forall z, from <= z < from + Z.of_nat n -> p z = true.
Proof.
  revert from. induction n as [|n IH]; intros from H z Hz; [lia|].
  cbn [allFrom] in H. apply andb_prop in H as [H1 H2].
  destruct (Z.eq_dec z from) as [->|Hne]; [exact H1|].
  apply (IH (from + 1) H2). lia.
Qed.

Lemma columnNameOk_all :
  allFrom (Z.to_nat TotalColumns) 1 columnNameOk = true.
Proof. vm_compute. reflexivity. Qed.

Lemma columnNameOk_range (col : Z) :
  1 <= col <= TotalColumns -> columnNameOk col = true.
Proof.
  intros H. apply (allFrom_spec _ _ _ columnNameOk_all).
  rewrite Z2Nat.id by (unfold TotalColumns; lia). lia.
Qed.

Lemma spanAlpha_app (l r : string) :
  allChars isAlpha l = true ->
  match r with String c _ => isAlpha c = false | EmptyString => True end ->
  spanAlpha (l ++ r) = (l, r).
Proof.
  intros Hl Hr. induction l as [|c l IH]; cbn [append spanAlpha allChars] in *.
  - destruct r as [|c r]; [reflexivity|]. cbn [spanAlpha]. now rewrite Hr.
  - apply andb_prop in Hl as [Hc Hl]. rewrite Hc, (IH Hl). reflexivity.
Qed.

Lemma string_of_uint_digits (d : uint) :
  allChars isDigit (NilEmpty.string_of_uint d) = true.
Proof. induction d; simpl; auto. Qed.

Lemma itoa_digits (n : Z) :
  0 <= n -> exists c s, itoa n = String c s /\ allChars isDigit (String c s) = true.
Proof.
  intros H. destruct n as [|p|p]; [exists "0"%char, EmptyString; split; reflexivity| |lia].
  unfold itoa. simpl Z.to_int. unfold NilZero.string_of_int, NilZero.string_of_uint.
  pose proof (DecimalPos.Unsigned.of_to p) as Hp.
  pose proof (string_of_uint_digits (Pos.to_uint p)) as Hd.
  destruct (Pos.to_uint p) eqn:E; try (simpl in Hp; discriminate);
    simpl NilEmpty.string_of_uint in *; eauto.
Qed.

Lemma isDigit_not_alpha (c : ascii) : isDigit c = true -> isAlpha c = false.
Proof.
  unfold isDigit, isAlpha. intros H. apply andb_prop in H as [H1 H2].
  apply Nat.leb_le in H1, H2.
  destruct (65 <=? nat_of_ascii c)%nat eqn:A; [apply Nat.leb_le in A; lia|].
  destruct (97 <=? nat_of_ascii c)%nat eqn:B; [apply Nat.leb_le in B; lia|].
  reflexivity.
Qed.

Lemma CellNameToCoordinates_print (col row : Z) :
  1 <= col <= TotalColumns -> 1 <= row <= maxInt ->
  CellNameToCoordinates (columnLetters 4 col EmptyString ++ itoa row) = Ok (col, row).
Proof.
  intros Hc Hr. pose proof (columnNameOk_range col Hc) as K.
  unfold columnNameOk in K. apply andb_prop in K as [K K3].
  apply andb_prop in K as [K1 K2].
  destruct (itoa_digits row) as (c & s & Hi & Hd); [lia|].
  unfold CellNameToCoordinates, SplitCellName.
  rewrite spanAlpha_app; [|exact K1|].
  2:{ rewrite Hi. simpl in Hd. apply andb_prop in Hd as [Hd _].
      now apply isDigit_not_alpha. }
  destruct (columnLetters 4 col EmptyString) as [|a l] eqn:L; [discriminate|].
  rewrite Hi at 1. rewrite Atoi_itoa by lia.
  assert ((row >? 0) = true) as -> by (rewrite Z.gtb_ltb; apply Z.ltb_lt; lia).
  cbn [bind fst snd]. unfold ColumnNameToNumber.
  destruct (columnValue 0 (String a l)) as [v|]; [|discriminate].
  apply Z.eqb_eq in K3. subst v.
  assert ((col >? TotalColumns) = false) as ->
    by (rewrite Z.gtb_ltb; apply Z.ltb_ge; lia).
  reflexivity.
Qed.

Lemma allChars_app (p : ascii -> bool) (a b : string) :
  allChars p (a ++ b) = allChars p a && allChars p b.
Proof.
  induction a as [|c a IH]; cbn [append allChars]; [reflexivity|].
  now rewrite IH, andb_assoc.
Qed.

Lemma allChars_impl (p q : ascii -> bool) (s : string) :
  (forall c, p c = true -> q c = true) ->
  allChars p s = true -> allChars q s = true.
Proof.
  intros H. induction s as [|c s IH]; cbn [allChars]; [reflexivity|].
  intros K. apply andb_prop in K as [K1 K2]. now rewrite (H c K1), IH.
Qed.

Lemma splitAt_app (sep : ascii) (a b : string) :
  allChars (fun c => negb (Ascii.eqb c sep)) a = true ->
  splitAt sep (a ++ String sep b) = Some (a, b).
Proof.
  induction a as [|c a IH]; cbn [append splitAt allChars]; intros H.
  - now rewrite Ascii.eqb_refl.
  - apply andb_prop in H as [H1 H2]. apply negb_true_iff in H1.
    now rewrite H1, IH.
Qed.

Lemma isAlpha_not_colon (c : ascii) :
  isAlpha c = true -> negb (Ascii.eqb c ":") = true.
Proof.
  intros H. apply negb_true_iff. destruct (Ascii.eqb c ":") eqn:E; [|reflexivity].
  apply Ascii.eqb_eq in E. subst c. discriminate.
Qed.

Lemma isDigit_not_colon (c : ascii) :
  isDigit c = true -> negb (Ascii.eqb c ":") = true.
Proof.
  intros H. apply negb_true_iff. destruct (Ascii.eqb c ":") eqn:E; [|reflexivity].
  apply Ascii.eqb_eq in E. subst c. discriminate.
Qed.

Lemma cellName_no_colon (col row : Z) :
  1 <= col <= TotalColumns -> 0 <= row ->
  allChars (fun c => negb (Ascii.eqb c ":")) (cellName col row) = true.
Proof.
  intros Hc Hr. unfold cellName. rewrite allChars_app. apply andb_true_intro. split.
  - pose proof (columnNameOk_range col Hc) as K. unfold columnNameOk in K.
    apply andb_prop in K as [K _]. apply andb_prop in K as [K _].
    exact (allChars_impl _ _ _ isAlpha_not_colon K).
  - destruct (itoa_digits row Hr) as (c & s & Hi & Hd). rewrite Hi.
    exact (allChars_impl _ _ _ isDigit_not_colon Hd).
Qed.

Lemma CoordinatesToCellName_cellName (col row : Z) :
  1 <= col <= TotalColumns -> 1 <= row ->
  CoordinatesToCellName col row = Ok (cellName col row).
Proof. apply CoordinatesToCellName_ok. Qed.

Lemma areaRefToCoordinates_print (x1 y1 x2 y2 : Z) :
  1 <= x1 <= TotalColumns -> 1 <= y1 <= maxInt ->
  1 <= x2 <= TotalColumns -> 1 <= y2 <= maxInt ->
  areaRefToCoordinates (areaRef (cellName x1 y1) (cellName x2 y2))
  = Ok (x1, y1, x2, y2).
Proof.
  intros Hx1 Hy1 Hx2 Hy2. unfold areaRefToCoordinates, areaRef.
  change (cellName x1 y1 ++ ":" ++ cellName x2 y2)%string
    with (cellName x1 y1 ++ String ":" (cellName x2 y2))%string.
  rewrite splitAt_app by (apply cellName_no_colon; lia).
  unfold cellName. rewrite !CellNameToCoordinates_print by assumption.
  reflexivity.
Qed.

Lemma CellNameToCoordinates_no_panic (cell : string) :
  CellNameToCoordinates cell <> Panic.
Proof.
  unfold CellNameToCoordinates, SplitCellName.
  destruct (spanAlpha cell) as [a b].
  destruct a as [|c a]; [discriminate|]. destruct b as [|c' b]; [discriminate|].
  destruct (Atoi (String c' b)) as [n| |]; try discriminate.
  destruct (n >? 0); [|discriminate]. cbn [bind fst snd].
  unfold ColumnNameToNumber.
  destruct (columnValue 0 (String c a)) as [v|]; [|discriminate].
  destruct (v >? TotalColumns); discriminate.
Qed.

Lemma areaRefToCoordinates_no_panic (ref : string) :
  areaRefToCoordinates ref <> Panic.
Proof.
  unfold areaRefToCoordinates. destruct (splitAt ":" ref) as [[a b]|]; [|discriminate].
  pose proof (CellNameToCoordinates_no_panic a) as Ha.
  pose proof (CellNameToCoordinates_no_panic b) as Hb.
  destruct (CellNameToCoordinates a); try discriminate; [|contradiction].
  destruct (CellNameToCoordinates b); try discriminate; contradiction.
Qed.

Lemma elemAt_Ok_inside {A : Type} (l : list A) (i : Z) (a : A) :
  elemAt l i = Ok a -> 0 <= i < len l.
Proof.
  intros H. destruct (Z_lt_dec i 0) as [L|L];
    [rewrite elemAt_outside in H by lia; discriminate|].
  destruct (Z_le_dec (len l) i) as [G|G];
    [rewrite elemAt_outside in H by lia; discriminate|]. lia.
Qed.

Lemma elemAt_app_middle {A : Type} (done todo : list A) (m : A) :
  elemAt (done ++ m :: todo) (len done) = Ok m.
Proof.
  unfold elemAt, len.
  destruct (Z.of_nat (List.length done) <? 0) eqn:E; [apply Z.ltb_lt in E; lia|].
  rewrite Nat2Z.id, nth_error_app2 by lia. now rewrite Nat.sub_diag.
Qed.

Lemma duplicateLoop_end (fuel : nat) (i row row2 : Z) (cells : list xlsxMergeCell) :
  len cells <= i -> duplicateLoop fuel i row row2 cells = Ok cells.
Proof.
  intros H. destruct fuel as [|fuel]; [reflexivity|]. cbn [duplicateLoop].
  destruct (i <? len cells) eqn:E; [apply Z.ltb_lt in E; lia | reflexivity].
Qed.

Lemma duplicateLoop_skip (fuel : nat) (i row row2 : Z)
    (cells : list xlsxMergeCell) (m : xlsxMergeCell) :
  elemAt cells i = Ok m -> singleRowOn row m = false ->
  duplicateLoop (S fuel) i row row2 cells = duplicateLoop fuel (i + 1) row row2 cells.
Proof.
  intros Hm Hs. pose proof (elemAt_Ok_inside _ _ _ Hm) as Hi. cbn [duplicateLoop].
  destruct (i <? len cells) eqn:E; [|apply Z.ltb_ge in E; lia].
  rewrite Hm. cbn [bind]. unfold singleRowOn in Hs.
  destruct (ignoreErr (0, 0, 0, 0) (areaRefToCoordinates (mRef m)))
    as [[[[x1 y1] x2] y2]| |] eqn:P; cbn [bind].
  - now rewrite Hs.
  - destruct (areaRefToCoordinates (mRef m)); discriminate.
  - pose proof (areaRefToCoordinates_no_panic (mRef m)) as N.
    destruct (areaRefToCoordinates (mRef m)); try discriminate. contradiction.
Qed.

Lemma duplicateLoop_dup (fuel : nat) (i row row2 : Z)
    (cells : list xlsxMergeCell) (m : xlsxMergeCell) (x1 x2 : Z) :
  elemAt cells i = Ok m ->
  areaRefToCoordinates (mRef m) = Ok (x1, row, x2, row) ->
  1 <= row2 <= maxInt ->
  duplicateLoop (S fuel) i row row2 cells
  = duplicateLoop fuel (i + 1 + 1) row row2
      (cells ++ [mkMergeCell (areaRef (cellName x1 row2) (cellName x2 row2))]).
Proof.
  intros Hm Hp H2. pose proof (elemAt_Ok_inside _ _ _ Hm) as Hi.
  destruct (areaRefToCoordinates_range _ _ _ _ _ Hp) as [[Hx1 _] [Hx2 _]].
  cbn [duplicateLoop].
  destruct (i <? len cells) eqn:E; [|apply Z.ltb_ge in E; lia].
  rewrite Hm. cbn [bind]. rewrite Hp. cbn [ignoreErr bind].
  rewrite !Z.eqb_refl. cbn [andb].
  rewrite !CoordinatesToCellName_cellName by lia. cbn [ignoreErr bind].
  unfold MergeCell. rewrite areaRefToCoordinates_print by lia. reflexivity.
Qed.

Lemma duplicateLoop_none (row row2 : Z) (todo : list xlsxMergeCell) :
  Forall (fun m => singleRowOn row m = false) todo ->
  forall (fuel : nat) (done : list xlsxMergeCell),
  duplicateLoop fuel (len done) row row2 (done ++ todo) = Ok (done ++ todo)%list.
Proof.
  induction 1 as [|m todo Hm _ IH]; intros fuel done.
  - apply duplicateLoop_end. rewrite app_nil_r. lia.
  - destruct fuel as [|fuel]; [reflexivity|].
    rewrite (duplicateLoop_skip _ _ _ _ _ m (elemAt_app_middle done todo m) Hm).
    replace (len done + 1) with (len (done ++ [m])) by (rewrite len_app; reflexivity).
    replace (done ++ m :: todo)%list with ((done ++ [m]) ++ todo)%list
      by (now rewrite <- app_assoc).
    apply IH.
Qed.


(** ** Repairing the merged regions *)

Local Open Scope list_scope.

Lemma singleRowOn_duplicate (row row2 x1 x2 : Z) :
  1 <= x1 <= TotalColumns -> 1 <= x2 <= TotalColumns ->
  1 <= row2 <= maxInt -> row <> row2 ->
  singleRowOn row (mkMergeCell (areaRef (cellName x1 row2) (cellName x2 row2)))
  = false.
Proof.
  intros Hx1 Hx2 H2 Hne. unfold singleRowOn. cbn [mRef].
  rewrite areaRefToCoordinates_print by lia. cbn [ignoreErr].
  rewrite Z.eqb_refl. cbn [andb]. apply Z.eqb_neq. lia.
Qed.



Lemma duplicateMergeCells_straddled (xlsx : xlsxWorksheet) (row row2 : Z)
    (cells : list xlsxMergeCell) :
  MergeCells xlsx = Some cells -> straddled row2 cells = Ok true ->
  duplicateMergeCells xlsx row row2 = Ok xlsx.
Proof.
  intros Hm Hs. unfold duplicateMergeCells. now rewrite Hm, Hs.
Qed.


(** The example of the documentation: [DuplicateRowTo(sheet, 2, 7)] with the
    merged region C2:D2 appends the copy as row 7 and creates C7:D7. *)
Lemma DuplicateRowTo_2_7_single_merge :
  DuplicateRowTo shiftReferences (sheetWithMerges ["C2:D2"]) 2 7
  = Ok (mkSheet [sampleRow 1; sampleRow 2; sampleRow 3; sampleRow 4; sampleRow 5;
                 ajustSingleRowDimensions (sampleRow 2) 7]
                (Some [mkMergeCell "C2:D2"; mkMergeCell "C7:D7"])).
Proof. vm_compute. reflexivity. Qed.

(** Duplicating into a row strictly inside another merged region (A6:B8,
    which the shift at row 7 stretches to A6:B9) creates no merged region. *)
Lemma DuplicateRowTo_2_7_inside_merge :
  DuplicateRowTo shiftReferences (sheetWithMerges ["C2:D2"; "A6:B8"]) 2 7
  = Ok (mkSheet [sampleRow 1; sampleRow 2; sampleRow 3; sampleRow 4; sampleRow 5;
                 ajustSingleRowDimensions (sampleRow 2) 7]
                (Some [mkMergeCell "C2:D2"; mkMergeCell "A6:B9"])).
Proof. vm_compute. reflexivity. Qed.

(** C4 at its failing input: with the two single-row merged regions C2:D2
    and E2:F2 on the source row, [DuplicateRowTo(sheet, 2, 7)] creates C7:D7
    only; E2:F2, the entry after the one just duplicated, is stepped over by
    the [i++] in the loop body and gets no region at row 7. *)
Theorem C4_DuplicateRowTo_second_merge_not_duplicated :
  DuplicateRowTo shiftReferences (sheetWithMerges ["C2:D2"; "E2:F2"]) 2 7
  = Ok (mkSheet [sampleRow 1; sampleRow 2; sampleRow 3; sampleRow 4; sampleRow 5;
                 ajustSingleRowDimensions (sampleRow 2) 7]
                (Some [mkMergeCell "C2:D2"; mkMergeCell "E2:F2";
                       mkMergeCell "C7:D7"])).
Proof. vm_compute. reflexivity. Qed.

(** ** Duplicating a row *)






Lemma read_write_same (s : Slices.store) (addr : nat) (a : list xlsxC) :
  (addr < List.length s)%nat -> Slices.read (Slices.write s addr a) addr = a.
Proof.
  intros H. unfold Slices.read, Slices.write.
  apply nth_error_nth. now apply replaceNth_nth_error.
Qed.



(** Without the copy of the cells the renumbering reaches the source row. *)
Lemma duplicateCellsShared_aliases (s : Slices.store) (source : Slices.rowRef)
    (row2 : Z) :
  (Slices.cells source < List.length s)%nat ->
  let '(s', copy) := Slices.duplicateCellsShared s source row2 in
  Slices.cells copy = Slices.cells source
  /\ Slices.read s' (Slices.cells source)
     = map (renumberCell row2) (Slices.read s (Slices.cells source)).
Proof.
  intros H. unfold Slices.duplicateCellsShared, Slices.ajustInPlace.
  cbn [Slices.cells]. split; [reflexivity|]. now apply read_write_same.
Qed.

Section Duplicate.

Variable adjustHelper : xlsxWorksheet -> Z -> Z -> result xlsxWorksheet.




End Duplicate.



(** ** The loops end within their fuel *)

Lemma duplicateLoop_enough_fuel (fuel : nat) :
  forall (fuel' : nat) (i row row2 : Z) (cells : list xlsxMergeCell),
  (Z.to_nat (len cells - i) < fuel)%nat ->
  (Z.to_nat (len cells - i) < fuel')%nat ->
  duplicateLoop fuel i row row2 cells = duplicateLoop fuel' i row row2 cells.
Proof.
  induction fuel as [|fuel IH]; intros fuel' i row row2 cells H H'; [lia|].
  destruct fuel' as [|fuel']; [lia|]. cbn [duplicateLoop].
  destruct (i <? len cells) eqn:E; [|reflexivity]. apply Z.ltb_lt in E.
  destruct (elemAt cells i) as [m| |]; cbn [bind]; try reflexivity.
  destruct (ignoreErr (0, 0, 0, 0) (areaRefToCoordinates (mRef m)))
    as [[[[x1 y1] x2] y2]| |]; cbn [bind]; try reflexivity.
  destruct ((y1 =? y2) && (y1 =? row)).
  - destruct (ignoreErr EmptyString (CoordinatesToCellName x1 row2)) as [from| |];
      cbn [bind]; try reflexivity.
    destruct (ignoreErr EmptyString (CoordinatesToCellName x2 row2)) as [to| |];
      cbn [bind]; try reflexivity.
    unfold MergeCell.
    destruct (areaRefToCoordinates (areaRef from to)); cbn [bind]; try reflexivity.
    apply IH; rewrite len_app; change (len [mkMergeCell (areaRef from to)]) with 1; lia.
  - apply IH; lia.
Qed.

Lemma decodeChildren_length (ts : list Token) :
  forall (depth : nat) (inV inIS : bool) (c : xlsxC),
  (List.length (snd (decodeChildren depth inV inIS c ts)) <= List.length ts)%nat.
Proof.
  induction ts as [|t ts IH]; intros depth inV inIS c; [simpl; lia|].
  destruct t as [local attr|local|data]; cbn [decodeChildren].
  - destruct depth as [|depth].
    + destruct (String.eqb local "v"); [|destruct (String.eqb local "is")];
        match goal with |- context [decodeChildren ?d ?a ?b ?x ts] =>
          specialize (IH d a b x) end; simpl List.length; lia.
    + specialize (IH (S (S depth)) inV inIS c). simpl List.length. lia.
  - destruct depth as [|[|depth]].
    + simpl. lia.
    + specialize (IH O false false c). simpl List.length. lia.
    + specialize (IH (S depth) inV inIS c). simpl List.length. lia.
  - match goal with |- context [decodeChildren ?d ?a ?b ?x ts] =>
      specialize (IH d a b x) end. simpl List.length. lia.
Qed.

Lemma DecodeElement_length (attr : list Attr) (ts : list Token) :
  (List.length (snd (DecodeElement attr ts)) <= List.length ts)%nat.
Proof. unfold DecodeElement. apply decodeChildren_length. Qed.

Section Fuel.
Variable formattedValue : Z -> string -> string.

Lemma columnsLoop_enough_fuel (fuel : nat) :
  forall (fuel' : nat) (d : list string) (rows : Rows) (columns : list string)
         (ts : list Token),
  (List.length ts < fuel)%nat -> (List.length ts < fuel')%nat ->
  columnsLoop formattedValue fuel d rows columns ts
  = columnsLoop formattedValue fuel' d rows columns ts.
Proof.
  induction fuel as [|fuel IH]; intros fuel' d rows columns ts H H'; [lia|].
  destruct fuel' as [|fuel']; [lia|]. cbn [columnsLoop].
  destruct ts as [|t ts]; [reflexivity|]. cbn [List.length] in H, H'.
  destruct t as [local attr|local|data].
  - destruct (String.eqb local "row").
    + destruct (rowAhead (curRow rows) attr) as [[row|]| |]; try reflexivity.
      apply IH; lia.
    + destruct (String.eqb local "c"); [|apply IH; lia].
      pose proof (DecodeElement_length attr ts) as L.
      destruct (DecodeElement attr ts) as [colCell ts'']. cbn [snd] in L.
      destruct (CellNameToCoordinates (cR colCell)) as [[cellCol r]| |];
        try reflexivity.
      destruct (getValueFrom formattedValue colCell d); try reflexivity;
        apply IH; lia.
  - destruct (String.eqb local "row"); [reflexivity|]. apply IH; lia.
  - apply IH; lia.
Qed.

Lemma columnsLoop_cursor (fuel : nat) :
  forall (d : list string) (rows rows' : Rows) (columns columns' : list string)
         (ts : list Token) (e : option error),
  columnsLoop formattedValue fuel d rows columns ts = Returned columns' e rows' ->
  curRow rows' = curRow rows /\ totalRow rows' = totalRow rows
  /\ err rows' = err rows.
Proof.
  induction fuel as [|fuel IH]; intros d rows rows' columns columns' ts e H;
    cbn [columnsLoop] in H.
  - inversion H. subst. repeat split.
  - destruct ts as [|t ts]; [inversion H; subst; repeat split|].
    destruct t as [local attr|local|data].
    + destruct (String.eqb local "row").
      * destruct (rowAhead (curRow rows) attr) as [[row|]| |];
          try (inversion H; subst; repeat split; fail); try discriminate.
        now apply IH in H.
      * destruct (String.eqb local "c"); [|now apply IH in H].
        destruct (DecodeElement attr ts) as [colCell ts''].
        destruct (CellNameToCoordinates (cR colCell)) as [[cellCol r]| |];
          try (inversion H; subst; repeat split; fail); try discriminate.
        destruct (getValueFrom formattedValue colCell d); try discriminate;
          now apply IH in H.
    + destruct (String.eqb local "row"); [inversion H; subst; repeat split|].
      now apply IH in H.
    + now apply IH in H.
Qed.

Lemma Columns_cursor (d : list string) (rows rows' : Rows)
    (columns : list string) (e : option error) :
  Columns formattedValue d rows = Returned columns e rows' ->
  curRow rows' = curRow rows /\ totalRow rows' = totalRow rows
  /\ err rows' = err rows.
Proof.
  unfold Columns. destruct (stashRow rows >=? curRow rows).
  - intros H. inversion H. subst. repeat split.
  - apply columnsLoop_cursor.
Qed.

Lemma drain_enough_fuel (fuel : nat) :
  forall (fuel' : nat) (d : list string) (rows : Rows)
         (results : list (list string)),
  minInt <= curRow rows < maxInt -> totalRow rows < maxInt ->
  (Z.to_nat (totalRow rows - curRow rows) < fuel)%nat ->
  (Z.to_nat (totalRow rows - curRow rows) < fuel')%nat ->
  drain formattedValue fuel d rows results
  = drain formattedValue fuel' d rows results.
Proof.
  induction fuel as [|fuel IH]; intros fuel' d rows results B T H H'; [lia|].
  destruct fuel' as [|fuel']; [lia|]. rewrite !drain_step.
  assert (wrapInt (curRow rows + 1) = curRow rows + 1) as W
    by (apply wrapInt_inside; lia).
  change (fst (Next rows)) with (wrapInt (curRow rows + 1) <=? totalRow rows).
  rewrite W.
  destruct (curRow rows + 1 <=? totalRow rows) eqn:E; [|reflexivity].
  apply Z.leb_le in E.
  destruct (Error (snd (Next rows))); [reflexivity|].
  destruct (Columns formattedValue d (snd (Next rows))) as [row e rows'|] eqn:C;
    [|reflexivity].
  destruct e; [reflexivity|].
  apply Columns_cursor in C as (C1 & C2 & _). cbn [Next snd curRow totalRow] in C1, C2.
  rewrite W in C1.
  apply IH; rewrite ?C1, ?C2; lia.
Qed.

(** [GetRows] gives [drain] enough fuel: more fuel changes nothing.  (With
    [totalRow] at the largest [int] the cursor wraps around and the loop of
    [GetRows] does not end.) *)
Lemma GetRows_fuel (extra : nat) (d : list string) (rows : Rows) :
  curRow rows = 0 -> totalRow rows < maxInt ->
  drain formattedValue (S (Z.to_nat (totalRow rows)) + extra) d rows []
  = drain formattedValue (S (Z.to_nat (totalRow rows))) d rows [].
Proof.
  intros H T. apply drain_enough_fuel; rewrite ?H, ?Z.sub_0_r;
    unfold minInt, maxInt in *; lia.
Qed.

(** [Columns] gives its loop enough fuel. *)
Lemma Columns_fuel (extra : nat) (d : list string) (rows : Rows)
    (columns : list string) :
  columnsLoop formattedValue (S (List.length (decoder rows)) + extra) d rows
    columns (decoder rows)
  = columnsLoop formattedValue (S (List.length (decoder rows))) d rows
      columns (decoder rows).
Proof. apply columnsLoop_enough_fuel; lia. Qed.

End Fuel.

(** [duplicateMergeCells] gives its loop enough fuel. *)
Lemma duplicateMergeCells_fuel (extra : nat) (row row2 : Z)
    (cells : list xlsxMergeCell) :
  duplicateLoop (S (List.length cells) + extra) 0 row row2 cells
  = duplicateLoop (S (List.length cells)) 0 row row2 cells.
Proof. apply duplicateLoop_enough_fuel; unfold len; lia. Qed.

(** * Further properties *)

(** ** Value resolution, in general *)

Lemma Atoi_no_panic (s : string) : Atoi s <> Panic.
Proof.
  unfold Atoi.
  destruct (match s with
            | String c s' =>
                if Ascii.eqb c "-" then (true, s')
                else if Ascii.eqb c "+" then (false, s') else (false, s)
            | EmptyString => (false, s)
            end) as [neg body].
  destruct body as [|c body]; [discriminate|].
  destruct (NilEmpty.uint_of_string (String c body)); [|discriminate].
  match goal with |- context [if ?b then _ else _] => destruct b end; discriminate.
Qed.


Section ValueOutcomes.

Variable formattedValue : Z -> string -> string.

Lemma getValueFrom_no_error (c : xlsxC) (d : list string) (e : error) :
  getValueFrom formattedValue c d <> Err e.
Proof.
  unfold getValueFrom.
  destruct (String.eqb (cT c) "s").
  - destruct (String.eqb (cV c) EmptyString); cbn [negb]; [discriminate|].
    pose proof (Atoi_no_panic (cV c)) as NP.
    assert (exists n, ignoreErr 0 (Atoi (cV c)) = Ok n) as [n ->].
    { destruct (Atoi (cV c)) as [n| |]; [now exists n | now exists 0 | contradiction]. }
    cbn [bind]. destruct (len d >? n); [|discriminate].
    unfold elemAt. destruct (n <? 0); [discriminate|].
    destruct (nth_error d (Z.to_nat n)); discriminate.
  - destruct (String.eqb (cT c) "str"); [discriminate|].
    destruct (String.eqb (cT c) "inlineStr"); [|discriminate].
    destruct (cIS c); discriminate.
Qed.



End ValueOutcomes.


(** ** Opening the iterator, in general *)

Lemma rowAttr_no_panic (attrs : list Attr) (row : Z) : rowAttr row attrs <> Panic.
Proof.
  revert row. induction attrs as [|a attrs IH]; intros row; cbn [rowAttr]; [discriminate|].
  destruct (String.eqb (aName a) "r"); [|apply IH].
  pose proof (Atoi_no_panic (aValue a)).
  destruct (Atoi (aValue a)); cbn [bind]; [apply IH | discriminate | contradiction].
Qed.

Lemma rowAttr_numbers (attrs : list Attr) (row : Z) :
  (exists n, rowAttr row attrs = Ok n)
  <-> (forall a, In a attrs -> aName a = "r" -> exists n, Atoi (aValue a) = Ok n).
Proof.
  revert row. induction attrs as [|a attrs IH]; intros row; cbn [rowAttr].
  - split; [intros _ a []| intros _; now exists row].
  - destruct (String.eqb (aName a) "r") eqn:N.
    + apply String.eqb_eq in N.
      destruct (Atoi (aValue a)) as [m|e|] eqn:A; cbn [bind].
      * rewrite IH. split.
        -- intros H b [<-|Hb] Nb; [now exists m | now apply H].
        -- intros H b Hb. apply H. now right.
      * split; [intros [n Hn]; discriminate|].
        intros H. destruct (H a (or_introl eq_refl) N) as [n Hn]. congruence.
      * split; [intros [n Hn]; discriminate|].
        intros H. destruct (H a (or_introl eq_refl) N) as [n Hn]. congruence.
    + rewrite IH. split.
      * intros H b [<-|Hb] Nb; [|now apply H].
        rewrite Nb in N. discriminate.
      * intros H b Hb. apply H. now right.
Qed.

Lemma scanTotal_no_panic (ts : list Token) (row total : Z) :
  scanTotal row total ts <> Panic.
Proof.
  revert row total. induction ts as [|t ts IH]; intros row total; cbn [scanTotal];
    [discriminate|].
  destruct t as [local attr|local|data]; try apply IH.
  destruct (String.eqb local "row"); [|apply IH].
  pose proof (rowAttr_no_panic attr row).
  destruct (rowAttr row attr); cbn [bind]; [apply IH | discriminate | contradiction].
Qed.

Lemma scanTotal_numbers (ts : list Token) (row total : Z) :
  (exists n, scanTotal row total ts = Ok n)
  <-> (forall attrs a, In (StartElement "row" attrs) ts -> In a attrs ->
         aName a = "r" -> exists n, Atoi (aValue a) = Ok n).
Proof.
  revert row total. induction ts as [|t ts IH]; intros row total; cbn [scanTotal].
  - split; [intros _ attrs a []| intros _; now exists total].
  - destruct t as [local attr|local|data].
    + destruct (String.eqb local "row") eqn:L.
      * apply String.eqb_eq in L. subst local.
        destruct (rowAttr row attr) as [m|e|] eqn:R; cbn [bind].
        -- rewrite IH. split.
           ++ intros H attrs a [E|Hin] Ha Na; [|now apply (H attrs)].
              inversion E. subst attrs.
              assert (exists n, rowAttr row attr = Ok n) as X by now exists m.
              apply (proj1 (rowAttr_numbers attr row) X); assumption.
           ++ intros H attrs a Hin. apply H. now right.
        -- split; [intros [n Hn]; discriminate|]. intros H.
           assert (exists n, rowAttr row attr = Ok n) as [n Hn].
           { apply (proj2 (rowAttr_numbers attr row)).
             intros a Ha. apply (H attr); [now left | exact Ha]. }
           congruence.
        -- now apply rowAttr_no_panic in R.
      * rewrite IH. split.
        -- intros H attrs a [E|Hin] Ha Na; [|now apply (H attrs)].
           inversion E. subst. discriminate.
        -- intros H attrs a Hin. apply H. now right.
    + rewrite IH. split.
      * intros H attrs a [E|Hin]; [discriminate | now apply H].
      * intros H attrs a Hin. apply H. now right.
    + rewrite IH. split.
      * intros H attrs a [E|Hin]; [discriminate | now apply H].
      * intros H attrs a Hin. apply H. now right.
Qed.

Lemma File_Rows_fresh (xml : list Token) (it : Rows) :
  File_Rows xml = Ok it ->
  curRow it = 0 /\ stashRow it = 0 /\ Error it = None /\ decoder it = xml.
Proof.
  unfold File_Rows. intros H.
  destruct (scanTotal 0 0 xml) as [t|e|]; cbn [bind] in H; try discriminate.
  inversion H. repeat split.
Qed.

(** X3: [Rows] returns an iterator exactly when the [r] attribute of every
    row element of the worksheet reads as a number, and an error otherwise
    (it never panics); the iterator starts before the first row, with
    nothing stashed, no error, and a decoder at the start of the same XML. *)
Theorem X3_File_Rows_opens (xml : list Token) :
  File_Rows xml <> Panic
  /\ ((exists it, File_Rows xml = Ok it)
      <-> (forall attrs a, In (StartElement "row" attrs) xml -> In a attrs ->
             aName a = "r" -> exists n, Atoi (aValue a) = Ok n))
  /\ (forall it, File_Rows xml = Ok it ->
        curRow it = 0 /\ stashRow it = 0 /\ Error it = None /\ decoder it = xml).
Proof.
  unfold File_Rows. pose proof (scanTotal_no_panic xml 0 0) as NP.
  split; [|split].
  - destruct (scanTotal 0 0 xml); cbn [bind]; [discriminate | discriminate | contradiction].
  - rewrite <- (scanTotal_numbers xml 0 0).
    destruct (scanTotal 0 0 xml) as [t|e|]; cbn [bind].
    + split; intros _; eexists; reflexivity.
    + split; intros [x Hx]; discriminate.
    + contradiction.
  - apply File_Rows_fresh.
Qed.

Lemma rowAttr_no_r (attrs : list Attr) (row : Z) :
  (forall a, In a attrs -> aName a <> "r") -> rowAttr row attrs = Ok row.
Proof.
  induction attrs as [|a attrs IH]; intros H; cbn [rowAttr]; [reflexivity|].
  destruct (String.eqb (aName a) "r") eqn:N.
  - apply String.eqb_eq in N. exfalso. apply (H a); [now left | exact N].
  - apply IH. intros b Hb. apply H. now right.
Qed.

Lemma scanTotal_no_r (ts : list Token) (row : Z) :
  (forall attrs a, In (StartElement "row" attrs) ts -> In a attrs -> aName a <> "r") ->
  scanTotal row row ts = Ok row.
Proof.
  induction ts as [|t ts IH]; intros H; cbn [scanTotal]; [reflexivity|].
  assert (scanTotal row row ts = Ok row) as R.
  { apply IH. intros attrs a Hin. apply H. now right. }
  destruct t as [local attr|local|data]; try exact R.
  destruct (String.eqb local "row") eqn:L; [|exact R].
  apply String.eqb_eq in L. subst local.
  rewrite rowAttr_no_r; [exact R|].
  intros a Ha. apply (H attr); [now left | exact Ha].
Qed.

Section Draining.

Variable formattedValue : Z -> string -> string.

(** X4: when no row element of the worksheet carries an [r] attribute, the
    pre-scan leaves [totalRow] at 0 and [GetRows] returns no row at all,
    whatever the rows hold. *)
Theorem X4_GetRows_rows_without_number (xml : list Token) (d : list string)
    (H : forall attrs a, In (StartElement "row" attrs) xml -> In a attrs ->
           aName a <> "r") :
  (exists it, File_Rows xml = Ok it /\ totalRow it = 0)
  /\ GetRows formattedValue xml d = Ok [].
Proof.
  unfold GetRows, File_Rows. rewrite scanTotal_no_r by exact H. cbn [bind].
  split; [eexists; split; reflexivity|]. reflexivity.
Qed.

Lemma drain_no_error (fuel : nat) :
  forall (d : list string) (rows : Rows) (results : list (list string)) (e : error),
  drain formattedValue fuel d rows results <> Err e.
Proof.
  induction fuel as [|fuel IH]; intros d rows results e; [discriminate|].
  rewrite drain_step.
  destruct (fst (Next rows)); [|discriminate].
  destruct (Error (snd (Next rows))); [discriminate|].
  destruct (Columns formattedValue d (snd (Next rows))) as [row [e'|] rows'|];
    [discriminate | apply IH | discriminate].
Qed.

(** X5: [GetRows] returns an error exactly when the pre-scan of [Rows]
    does, and then the same one: an error met while the rows are read ends
    the loop and is not reported. *)
Theorem X5_GetRows_error_is_from_Rows (xml : list Token) (d : list string)
    (e : error) :
  GetRows formattedValue xml d = Err e <-> File_Rows xml = Err e.
Proof.
  unfold GetRows. destruct (File_Rows xml) as [it|e'|]; cbn [bind].
  - split; [|discriminate]. intros H. now apply drain_no_error in H.
  - split; intros H; inversion H; reflexivity.
  - split; discriminate.
Qed.

Lemma drain_bound (fuel : nat) :
  forall (d : list string) (rows : Rows) (results out : list (list string)),
  minInt <= curRow rows < maxInt -> totalRow rows < maxInt ->
  drain formattedValue fuel d rows results = Ok out ->
  len out <= len results + Z.max 0 (totalRow rows - curRow rows).
Proof.
  induction fuel as [|fuel IH]; intros d rows results out B T H.
  - inversion H. lia.
  - rewrite drain_step in H.
    assert (wrapInt (curRow rows + 1) = curRow rows + 1) as W
      by (apply wrapInt_inside; lia).
    change (fst (Next rows)) with (wrapInt (curRow rows + 1) <=? totalRow rows) in H.
    rewrite W in H.
    destruct (curRow rows + 1 <=? totalRow rows) eqn:E; [|inversion H; lia].
    apply Z.leb_le in E.
    destruct (Error (snd (Next rows))); [inversion H; lia|].
    destruct (Columns formattedValue d (snd (Next rows))) as [row e rows'|] eqn:C;
      [|discriminate].
    destruct e; [inversion H; lia|].
    apply Columns_cursor in C as (C1 & C2 & _).
    cbn [Next snd curRow totalRow] in C1, C2. rewrite W in C1.
    apply IH in H; rewrite ?C1, ?C2; try lia.
    rewrite C1, C2, len_app in H. change (len [row]) with 1 in H. lia.
Qed.

(** X6: [GetRows] returns at most [totalRow] rows: as many as the number
    declared by the last row element, however many row elements there are. *)
Theorem X6_GetRows_at_most_totalRow (xml : list Token) (d : list string)
    (it : Rows) (out : list (list string))
    (HR : File_Rows xml = Ok it) (HT : totalRow it < maxInt)
    (HG : GetRows formattedValue xml d = Ok out) :
  len out <= Z.max 0 (totalRow it).
Proof.
  unfold GetRows in HG. rewrite HR in HG. cbn [bind] in HG.
  destruct (File_Rows_fresh xml it HR) as (C & _).
  apply drain_bound in HG; rewrite ?C in *; unfold minInt, maxInt in *; try lia.
  change (len []) with 0 in HG. rewrite Z.sub_0_r in HG. lia.
Qed.

End Draining.

Lemma X4_GetRows_rows_without_number_witness :
  (exists it,
     File_Rows [StartElement "row" [mkAttr "spans" "1:2"];
                StartElement "c" [mkAttr "r" "A1"]; EndElement "c";
                EndElement "row"] = Ok it
     /\ totalRow it = 0)
  /\ GetRows (fun _ v => v)
       [StartElement "row" [mkAttr "spans" "1:2"];
        StartElement "c" [mkAttr "r" "A1"]; EndElement "c"; EndElement "row"]
       [] = Ok [].
Proof.
  apply (X4_GetRows_rows_without_number (fun _ v => v)
           [StartElement "row" [mkAttr "spans" "1:2"];
            StartElement "c" [mkAttr "r" "A1"]; EndElement "c"; EndElement "row"]
           []).
  intros attrs a Hin Ha.
  destruct Hin as [E|[E|[E|[E|[]]]]]; try discriminate.
  inversion E. subst attrs. destruct Ha as [<-|[]]. discriminate.
Defined.

Lemma X6_GetRows_at_most_totalRow_witness :
  len [["a"]; ["b"]] <= Z.max 0 2.
Proof.
  apply (X6_GetRows_at_most_totalRow (fun _ v => v)
           (worksheetXML [(1, cellsXML [mkC "A1" 0 "str" "a" None]);
                          (1, cellsXML [mkC "A1" 0 "str" "b" None]);
                          (2, cellsXML [])])
           []
           (mkRows None 0 2 0
              (worksheetXML [(1, cellsXML [mkC "A1" 0 "str" "a" None]);
                             (1, cellsXML [mkC "A1" 0 "str" "b" None]);
                             (2, cellsXML [])]))).
  - vm_compute. reflexivity.
  - vm_compute. reflexivity.
  - vm_compute. reflexivity.
Defined.

(** ** Rows declared in ascending order *)

Section SparseRows.

Variable formattedValue : Z -> string -> string.

Lemma columnsLoop_passedOver (pre : list Token) :
  forallb passedOver pre = true ->
  forall (fuel : nat) (d : list string) (rows : Rows) (columns : list string)
         (ts : list Token),
  columnsLoop formattedValue (List.length pre + fuel) d rows columns (pre ++ ts)
  = columnsLoop formattedValue fuel d rows columns ts.
Proof.
  induction pre as [|t pre IH]; intros H fuel d rows columns ts; [reflexivity|].
  cbn [forallb] in H. apply andb_prop in H as [Ht Hp].
  rewrite <- app_comm_cons. cbn [List.length Nat.add columnsLoop].
  destruct t as [local attr|local|data]; cbn [passedOver] in Ht.
  - apply andb_prop in Ht as [H1 H2]. apply negb_true_iff in H1, H2.
    rewrite H1, H2. now apply IH.
  - apply negb_true_iff in Ht. rewrite Ht. now apply IH.
  - now apply IH.
Qed.

Lemma Columns_row_reached_after (pre : list Token) (d : list string) (rows : Rows)
    (n : Z) (cells : list xlsxC) (rest : list Token) (vs : list string) :
  forallb passedOver pre = true ->
  stashRow rows < curRow rows -> curRow rows = n -> 0 <= n <= maxInt ->
  Forall (fun c => 0 <= cS c <= maxInt) cells ->
  denseValues formattedValue d [] cells = Some vs ->
  decoder rows = pre ++ rowElement n (cellsXML cells) ++ rest ->
  Columns formattedValue d rows = Returned vs None (setDecoder rows rest).
Proof.
  intros Hp Hs Hcur Hn Hc Hv Hd. unfold Columns.
  destruct (stashRow rows >=? curRow rows) eqn:E;
    [rewrite Z.geb_leb in E; apply Z.leb_le in E; lia|].
  rewrite Hd.
  rewrite (columnsLoop_enough_fuel formattedValue _
             (List.length pre + S (List.length (rowElement n (cellsXML cells) ++ rest))))
    by (rewrite length_app; lia).
  rewrite (columnsLoop_passedOver pre Hp). apply columnsLoop_row_reached; try assumption.
  rewrite rowElement_app. cbn [List.length]. rewrite length_app.
  pose proof (cellsXML_length cells). cbn [List.length]. lia.
Qed.

Lemma Columns_row_ahead_after (pre : list Token) (d : list string) (rows : Rows)
    (n : Z) (body rest : list Token) :
  forallb passedOver pre = true ->
  stashRow rows < curRow rows -> curRow rows < n -> 0 <= n <= maxInt ->
  decoder rows = pre ++ rowElement n body ++ rest ->
  Columns formattedValue d rows
  = Returned [] None (setStash rows (n - 1) (body ++ EndElement "row" :: rest)).
Proof.
  intros Hp Hs Hcur Hn Hd. unfold Columns.
  destruct (stashRow rows >=? curRow rows) eqn:E;
    [rewrite Z.geb_leb in E; apply Z.leb_le in E; lia|].
  rewrite Hd.
  rewrite (columnsLoop_enough_fuel formattedValue _
             (List.length pre + S (List.length (rowElement n body ++ rest))))
    by (rewrite length_app; lia).
  rewrite (columnsLoop_passedOver pre Hp). now apply columnsLoop_row_ahead.
Qed.

(** The rounds of [drain] whose row is at or below the stashed number: each
    appends an empty sequence and leaves the decoder alone. *)
Lemma drain_stashed (k : nat) :
  forall (fuel : nat) (d : list string) (rows : Rows) (results : list (list string)),
  Error rows = None -> 0 <= curRow rows ->
  curRow rows + Z.of_nat k <= stashRow rows ->
  stashRow rows <= totalRow rows -> totalRow rows < maxInt ->
  drain formattedValue (k + fuel) d rows results
  = drain formattedValue fuel d (NextTimes k rows) (results ++ repeat [] k).
Proof.
  induction k as [|k IH]; intros fuel d rows results He H0 Hk Hs Ht.
  - cbn [NextTimes repeat Nat.add]. now rewrite app_nil_r.
  - change (S k + fuel)%nat with (S (k + fuel)). rewrite drain_step.
    assert (wrapInt (curRow rows + 1) = curRow rows + 1) as W
      by (apply wrapInt_inside; unfold minInt; lia).
    change (fst (Next rows)) with (wrapInt (curRow rows + 1) <=? totalRow rows).
    rewrite W.
    assert ((curRow rows + 1 <=? totalRow rows) = true) as -> by (apply Z.leb_le; lia).
    change (Error (snd (Next rows))) with (Error rows). rewrite He.
    unfold Columns. cbn [Next snd stashRow curRow]. rewrite W.
    assert ((stashRow rows >=? curRow rows + 1) = true) as ->
      by (rewrite Z.geb_leb; apply Z.leb_le; lia).
    rewrite IH; cbn [Error err curRow stashRow totalRow]; try assumption; try lia.
    + change (NextTimes (S k) rows) with (NextTimes k (snd (Next rows))).
      unfold Next. cbn [snd]. rewrite W.
      rewrite <- app_assoc. reflexivity.
Qed.

Lemma last_cons_default (n : Z) (l : list Z) (c : Z) :
  last (n :: l) c = last l n.
Proof.
  destruct l as [|m l]; [reflexivity|].
  change (last (n :: m :: l) c) with (last (m :: l) c). apply last_nonempty_default.
Qed.

Lemma last_sorted_ge (l : list Z) (n : Z) :
  StronglySorted Z.lt (n :: l) -> n <= last l n.
Proof.
  intros H. inversion H as [|? ? Hs Hf]. subst.
  destruct l as [|m l]; [simpl; lia|].
  assert (In (last (m :: l) n) (m :: l)) as HL.
  { clear. revert m. induction l as [|c l IH]; intros m; [now left|]. right. apply IH. }
  rewrite Forall_forall in Hf. specialize (Hf _ HL). lia.
Qed.

Lemma drain_round (fuel : nat) (d : list string) (rows rows' : Rows)
    (results : list (list string)) (row : list string) :
  minInt <= curRow rows < maxInt -> curRow rows + 1 <= totalRow rows ->
  Error rows = None ->
  Columns formattedValue d (snd (Next rows)) = Returned row None rows' ->
  drain formattedValue (S fuel) d rows results
  = drain formattedValue fuel d rows' (results ++ [row]).
Proof.
  intros B T E C. rewrite drain_step.
  change (fst (Next rows)) with (wrapInt (curRow rows + 1) <=? totalRow rows).
  rewrite wrapInt_inside by lia.
  assert ((curRow rows + 1 <=? totalRow rows) = true) as -> by (apply Z.leb_le; lia).
  change (Error (snd (Next rows))) with (Error rows). rewrite E, C. reflexivity.
Qed.

Lemma Next_cursor (rows : Rows) :
  minInt <= curRow rows < maxInt -> curRow (snd (Next rows)) = curRow rows + 1.
Proof. intros B. unfold Next. cbn [snd curRow]. apply wrapInt_inside. lia. Qed.

Lemma NextTimes_fields (k : nat) (rows : Rows) :
  stashRow (NextTimes k rows) = stashRow rows
  /\ decoder (NextTimes k rows) = decoder rows
  /\ Error (NextTimes k rows) = Error rows.
Proof.
  revert rows. induction k as [|k IH]; intros rows; [repeat split|].
  change (NextTimes (S k) rows) with (NextTimes k (snd (Next rows))).
  destruct (IH (snd (Next rows))) as (A & B & C). rewrite A, B, C. repeat split.
Qed.

Lemma last_in {A : Type} (a : A) (l : list A) (d : A) : In (last (a :: l) d) (a :: l).
Proof.
  revert a. induction l as [|b l IH]; intros a; [now left|]. right. apply IH.
Qed.

Lemma drain_declared (rows : list (Z * list xlsxC)) :
  forall (vals : list (list string)) (pre tail : list Token) (d : list string)
         (it : Rows) (results : list (list string)) (fuel : nat),
  forallb passedOver pre = true ->
  StronglySorted Z.lt (map fst rows) ->
  Forall (fun r => curRow it < fst r < maxInt) rows ->
  Forall (fun r => Forall (fun c => 0 <= cS c <= maxInt) (snd r)) rows ->
  Forall2 (fun r vs => denseValues formattedValue d [] (snd r) = Some vs) rows vals ->
  Error it = None -> 0 <= curRow it < maxInt -> stashRow it <= curRow it ->
  totalRow it = last (map fst rows) (curRow it) ->
  decoder it = pre ++ sheetDataXML (declaredXML rows) ++ tail ->
  (Z.to_nat (totalRow it - curRow it) < fuel)%nat ->
  drain formattedValue fuel d it results
  = Ok (results ++ sparseRows (curRow it + 1) (combine (map fst rows) vals)).
Proof.
  induction rows as [|[n cells] rows IH];
    intros vals pre tail d it results fuel Hp Hs Hb Hc Hv He H0 Hst Ht Hd Hf.
  - cbn [map last] in Ht. destruct fuel as [|fuel]; [lia|]. rewrite drain_step.
    change (fst (Next it)) with (wrapInt (curRow it + 1) <=? totalRow it).
    rewrite wrapInt_inside by (unfold minInt; lia).
    assert ((curRow it + 1 <=? totalRow it) = false) as -> by (apply Z.leb_gt; lia).
    cbn [map combine sparseRows]. now rewrite app_nil_r.
  - inversion Hv as [|? vs ? vals' Hvs Hv']. subst. clear Hv. cbn [snd] in Hvs.
    inversion Hb as [|? ? Hn Hb']. subst. cbn [fst] in Hn.
    inversion Hc as [|? ? Hcs Hc']. subst. cbn [snd] in Hcs.
    cbn [map fst] in Hs, Ht.
    assert (StronglySorted Z.lt (map fst rows)) as Hs' by now inversion Hs.
    assert (Forall (fun m => n < m) (map fst rows)) as Hlt by now inversion Hs.
    rewrite last_cons_default in Ht.
    pose proof (last_sorted_ge _ _ Hs) as Hge.
    assert (Forall (fun r => n < fst r < maxInt) rows) as Hb2.
    { rewrite Forall_forall in Hb', Hlt |- *.
      intros r Hr. specialize (Hb' r Hr). split; [|lia].
      apply Hlt. now apply in_map. }
    assert (totalRow it < maxInt) as HT.
    { rewrite Ht. destruct (map fst rows) as [|m l] eqn:M; [simpl; lia|].
      pose proof (last_in m l n) as HL. rewrite <- M in HL at 2.
      apply in_map_iff in HL as ([a b] & Ea & Hin). cbn [fst] in Ea.
      rewrite Forall_forall in Hb'. specialize (Hb' _ Hin). cbn [fst] in Hb'. lia. }
    assert (minInt <= curRow it < maxInt) as B0 by (unfold minInt; lia).
    pose proof (Next_cursor it B0) as C0.
    assert (wrapInt (curRow it + 1) = curRow it + 1) as W
      by (apply wrapInt_inside; lia).
    change (declaredXML ((n, cells) :: rows))
      with ((n, cellsXML cells) :: declaredXML rows) in Hd.
    change (sheetDataXML ((n, cellsXML cells) :: declaredXML rows))
      with (rowElement n (cellsXML cells) ++ sheetDataXML (declaredXML rows)) in Hd.
    rewrite <- app_assoc in Hd.
    set (rest := sheetDataXML (declaredXML rows) ++ tail) in *.
    cbn [map fst combine sparseRows].
    destruct fuel as [|fuel]; [lia|].
    destruct (Z.eq_dec n (curRow it + 1)) as [Hn1|Hn1].
    + (* the declared row is the one asked for *)
      assert (Columns formattedValue d (snd (Next it))
              = Returned vs None (setDecoder (snd (Next it)) rest)) as C.
      { apply (Columns_row_reached_after pre d (snd (Next it)) n cells rest vs);
          try assumption; try (rewrite C0; cbn [Next snd stashRow]; lia);
          try (unfold maxInt in *; lia). }
      rewrite (drain_round fuel d it (setDecoder (snd (Next it)) rest) results vs B0);
        [|lia | exact He | exact C].
      rewrite (IH vals' [] tail);
        cbn [setDecoder curRow stashRow totalRow decoder Error err Next snd];
        rewrite ?W; rewrite <- ?Hn1;
        try assumption; try lia; try reflexivity.
      * rewrite Z.sub_diag. cbn [Z.to_nat repeat app].
        rewrite <- app_assoc. reflexivity.
    + (* the declared row is ahead: it is stashed *)
      set (it1 := setStash (snd (Next it)) (n - 1)
                    (cellsXML cells ++ EndElement "row" :: rest)).
      assert (Columns formattedValue d (snd (Next it)) = Returned [] None it1) as C.
      { apply (Columns_row_ahead_after pre d (snd (Next it)) n (cellsXML cells) rest);
          try assumption; try (rewrite C0; cbn [Next snd stashRow]; lia);
          try (unfold maxInt in *; lia). }
      rewrite (drain_round fuel d it it1 results [] B0); [|lia | exact He | exact C].
      assert (curRow it1 = curRow it + 1) as C1 by exact C0.
      assert (stashRow it1 = n - 1) as S1 by reflexivity.
      assert (totalRow it1 = totalRow it) as T1 by reflexivity.
      assert (Error it1 = None) as E1 by exact He.
      assert (decoder it1 = cellsXML cells ++ EndElement "row" :: rest) as D1
        by reflexivity.
      clearbody it1.
      set (k := Z.to_nat (n - 1 - (curRow it + 1))).
      assert (exists fuel2, fuel = (k + S fuel2)%nat) as [fuel2 ->].
      { exists (fuel - k - 1)%nat. unfold k. lia. }
      rewrite (drain_stashed k) by (rewrite ?C1, ?S1, ?T1; (assumption || unfold k; lia)).
      destruct (NextTimes_cursor k it1) as [C2 T2];
        [rewrite C1; lia | rewrite C1; unfold k; lia |].
      destruct (NextTimes_fields k it1) as (S2 & D2 & E2).
      set (it2 := NextTimes k it1) in *. clearbody it2.
      assert (curRow it2 = n - 1) as C2' by (rewrite C2, C1; unfold k; lia).
      assert (minInt <= curRow it2 < maxInt) as B2 by (unfold minInt; lia).
      pose proof (Next_cursor it2 B2) as C3.
      assert (wrapInt (curRow it2 + 1) = curRow it2 + 1) as W2
        by (apply wrapInt_inside; lia).
      assert (Columns formattedValue d (snd (Next it2))
              = Returned vs None (setDecoder (snd (Next it2)) rest)) as CC.
      { apply (Columns_stashed_row formattedValue d (snd (Next it2)) cells rest vs);
          try assumption.
        - rewrite C3. cbn [Next snd stashRow]. lia.
        - cbn [Next snd decoder]. congruence. }
      rewrite (drain_round fuel2 d it2 (setDecoder (snd (Next it2)) rest) _ vs B2);
        [|lia | congruence | exact CC].
      rewrite (IH vals' [] tail);
        cbn [setDecoder curRow stashRow totalRow decoder Error err Next snd];
        rewrite ?W2, ?C2';
        replace (n - 1 + 1) with n by lia;
        try assumption; try lia; try reflexivity;
        try (unfold Error in *; congruence).
      * rewrite <- !app_assoc. f_equal.
        replace (Z.to_nat (n - (curRow it + 1))) with (S k) by (unfold k; lia).
        cbn [repeat app]. rewrite <- ?app_assoc. reflexivity.
Qed.

(** X7: for a worksheet whose rows are declared in ascending order of
    their numbers (from 1 on, below the largest [int]), every cell having a
    reference that parses, a value that resolves and a style index that the
    XML can carry, [GetRows] returns as many rows as the last declared
    number: the dense values of every declared row at the position of its
    number and an empty sequence at every position in between. *)
Theorem X7_GetRows_ascending_rows (d : list string) (rows : list (Z * list xlsxC))
    (vals : list (list string))
    (Hsorted : StronglySorted Z.lt (map fst rows))
    (Hnum : Forall (fun r => 1 <= fst r < maxInt) rows)
    (Hstyle : Forall (fun r => Forall (fun c => 0 <= cS c <= maxInt) (snd r)) rows)
    (Hvals : Forall2 (fun r vs => denseValues formattedValue d [] (snd r) = Some vs)
                     rows vals) :
  GetRows formattedValue (worksheetXML (declaredXML rows)) d
  = Ok (sparseRows 1 (combine (map fst rows) vals)).
Proof.
  unfold GetRows. rewrite File_Rows_worksheetXML.
  2:{ apply Forall_forall. intros [n body] Hin. unfold declaredXML in Hin.
      apply in_map_iff in Hin as ([m cells] & E & Hin). inversion E. subst.
      rewrite Forall_forall in Hnum. specialize (Hnum _ Hin). cbn [fst snd] in *.
      split; [lia | apply cellsXML_noRowStart]. }
  cbn [bind totalRow].
  assert (map fst (declaredXML rows) = map fst rows) as ->.
  { unfold declaredXML. rewrite map_map. reflexivity. }
  set (it := mkRows None 0 (last (map fst rows) 0) 0 (worksheetXML (declaredXML rows))).
  change (sparseRows 1 (combine (map fst rows) vals))
    with ([] ++ sparseRows (curRow it + 1) (combine (map fst rows) vals)).
  apply (drain_declared rows vals
           [StartElement "worksheet" []; StartElement "sheetData" []]
           [EndElement "sheetData"; EndElement "worksheet"]);
    try assumption; try reflexivity.
  - apply Forall_forall. intros r Hr. rewrite Forall_forall in Hnum.
    specialize (Hnum r Hr). unfold it. cbn [curRow]. lia.
  - unfold it. cbn [curRow]. unfold maxInt. lia.
  - unfold it. cbn [totalRow curRow]. rewrite Z.sub_0_r. lia.
Qed.

End SparseRows.

Lemma X7_GetRows_ascending_rows_witness :
  GetRows (fun _ v => v)
    (worksheetXML
       (declaredXML
          [(2, [mkC "A2" 0 "str" "x" None; mkC "C2" 0 "s" "0" None]);
           (5, [])]))
    ["shared"]
  = Ok [[]; ["x"; EmptyString; "shared"]; []; []; []].
Proof.
  apply (X7_GetRows_ascending_rows (fun _ v => v) ["shared"]
           [(2, [mkC "A2" 0 "str" "x" None; mkC "C2" 0 "s" "0" None]); (5, [])]
           [["x"; EmptyString; "shared"]; []]).
  - repeat constructor.
  - repeat constructor; simpl; unfold maxInt; lia.
  - repeat constructor; simpl; unfold maxInt; lia.
  - repeat constructor.
Defined.

(** ** Values laid out by column *)

Lemma denseValues_extends (formattedValue : Z -> string -> string) (d : list string)
    (cells : list xlsxC) :
  forall (columns vs : list string),
  denseValues formattedValue d columns cells = Some vs ->
  exists ext, vs = columns ++ ext.
Proof.
  induction cells as [|c cells IH]; intros columns vs H; cbn [denseValues] in H.
  - inversion H. exists []. now rewrite app_nil_r.
  - destruct (CellNameToCoordinates (cR c)) as [[col r]| |]; try discriminate.
    destruct (getValueFrom formattedValue c d) as [val| |]; try discriminate.
    apply IH in H as [ext ->]. unfold padBlank. rewrite <- !app_assoc.
    eexists. reflexivity.
Qed.

Lemma elemAt_app_left {A : Type} (l ext : list A) (j : Z) :
  0 <= j < len l -> elemAt (l ++ ext) j = elemAt l j.
Proof.
  intros H. unfold elemAt, len in *.
  destruct (j <? 0) eqn:E; [apply Z.ltb_lt in E; lia|].
  rewrite nth_error_app1 by lia. reflexivity.
Qed.

Lemma elemAt_padBlank_value (columns : list string) (col : Z) (val : string) :
  len columns < col -> elemAt (padBlank columns col ++ [val]) (col - 1) = Ok val.
Proof.
  intros H. pose proof (len_nonneg columns) as L. unfold elemAt, padBlank, len in *.
  destruct (col - 1 <? 0) eqn:E; [apply Z.ltb_lt in E; lia|].
  rewrite nth_error_app2 by (rewrite length_app, repeat_length; lia).
  rewrite length_app, repeat_length.
  replace (Z.to_nat (col - 1)
           - (List.length columns
              + Z.to_nat (col - Z.of_nat (List.length columns) - 1)))%nat
    with 0%nat by lia.
  reflexivity.
Qed.

Lemma elemAt_padBlank_blank (columns : list string) (col j : Z) (val : string) :
  len columns < j < col -> elemAt (padBlank columns col ++ [val]) (j - 1) = Ok EmptyString.
Proof.
  intros H. pose proof (len_nonneg columns) as L. unfold elemAt, padBlank, len in *.
  destruct (j - 1 <? 0) eqn:E; [apply Z.ltb_lt in E; lia|].
  rewrite <- app_assoc. rewrite nth_error_app2 by lia.
  rewrite nth_error_app1 by (rewrite repeat_length; lia).
  rewrite nth_error_repeat by lia. reflexivity.
Qed.

Lemma len_padBlank (columns : list string) (col : Z) (val : string) :
  len columns < col -> len (padBlank columns col ++ [val]) = col.
Proof.
  intros H. unfold padBlank, len in *. rewrite !length_app, repeat_length.
  cbn [List.length]. lia.
Qed.

Lemma Forall2_in_right {A B : Type} (R : A -> B -> Prop) (l1 : list A) (l2 : list B)
    (b : B) :
  Forall2 R l1 l2 -> In b l2 -> exists a, In a l1 /\ R a b.
Proof.
  induction 1 as [|a b' l1 l2 HR _ IH]; intros Hin; [contradiction|].
  destruct Hin as [<-|Hin].
  - exists a. split; [now left | exact HR].
  - destruct (IH Hin) as (a' & Ha & Hr). exists a'. split; [now right | exact Hr].
Qed.

Section DenseColumns.

Variable formattedValue : Z -> string -> string.

Lemma denseValues_sorted (d : list string) (cells : list xlsxC) (cols : list Z) :
  Forall2 (fun c col => exists r, CellNameToCoordinates (cR c) = Ok (col, r)) cells cols ->
  StronglySorted Z.lt cols ->
  Forall (fun c => getValueFrom formattedValue c d <> Panic) cells ->
  forall columns : list string,
  Forall (fun col => len columns < col) cols ->
  exists vs,
    denseValues formattedValue d columns cells = Some vs
    /\ len vs = last cols (len columns)
    /\ (forall c col, In (c, col) (combine cells cols) ->
          exists val, getValueFrom formattedValue c d = Ok val
                      /\ elemAt vs (col - 1) = Ok val)
    /\ (forall j, len columns < j <= len vs -> ~ In j cols ->
          elemAt vs (j - 1) = Ok EmptyString).
Proof.
  induction 1 as [|c col cells cols [r Hc] _ IH]; intros Hs Hp columns Hlen.
  - exists columns. cbn [denseValues last combine]. repeat split.
    + intros c col [].
    + intros j Hj. lia.
  - inversion Hs as [|? ? Hs' Hlt]. subst.
    inversion Hp as [|? ? Hv Hp']. subst.
    inversion Hlen as [|? ? Hcol Hlen']. subst.
    destruct (getValueFrom formattedValue c d) as [val|e|] eqn:V;
      [|now apply getValueFrom_no_error in V|contradiction].
    pose proof (len_padBlank columns col val Hcol) as L.
    destruct (IH Hs' Hp' (padBlank columns col ++ [val])) as (vs & D & Lv & Hin & Hblank).
    { rewrite L. exact Hlt. }
    pose proof (denseValues_extends _ _ _ _ _ D) as [ext Hext].
    assert (col <= len vs) as Hle.
    { rewrite Hext, len_app, L. pose proof (len_nonneg ext). lia. }
    pose proof (len_nonneg columns) as L0.
    exists vs. cbn [denseValues]. rewrite Hc, V. split; [exact D|]. split; [|split].
    + rewrite Lv, L. now rewrite last_cons_default.
    + intros c' col' [E|Hc']; [|now apply Hin].
      inversion E. subst c' col'. exists val. split; [exact V|].
      rewrite Hext, elemAt_app_left by (rewrite L; lia).
      now apply elemAt_padBlank_value.
    + intros j Hj Hn.
      destruct (Z_lt_le_dec j col) as [J|J].
      * rewrite Hext, elemAt_app_left by (rewrite L; lia).
        apply elemAt_padBlank_blank. lia.
      * apply Hblank; [rewrite L|]; [|intros X; apply Hn; now right].
        assert (j <> col) by (intros ->; apply Hn; now left). lia.
Qed.

(** X8: when the cells of the row that [Columns] reads are declared in
    ascending column order, the values it returns are laid out by column:
    there are as many as the column number of the last cell, the value of
    every cell is at the position of its column, and an empty string is at
    every position whose column has no cell. *)
Theorem X8_Columns_values_by_column (d : list string) (rows : Rows) (n : Z)
    (cells : list xlsxC) (cols : list Z) (rest : list Token)
    (Hstash : stashRow rows < curRow rows) (Hcur : curRow rows = n)
    (Hn : 0 <= n <= maxInt)
    (Hstyle : Forall (fun c => 0 <= cS c <= maxInt) cells)
    (Hcols : Forall2 (fun c col => exists r, CellNameToCoordinates (cR c) = Ok (col, r))
                     cells cols)
    (Hsorted : StronglySorted Z.lt cols)
    (Hvalues : Forall (fun c => getValueFrom formattedValue c d <> Panic) cells)
    (Hdec : decoder rows = rowElement n (cellsXML cells) ++ rest) :
  exists vs,
    Columns formattedValue d rows = Returned vs None (setDecoder rows rest)
    /\ len vs = last cols 0
    /\ (forall c col, In (c, col) (combine cells cols) ->
          exists val, getValueFrom formattedValue c d = Ok val
                      /\ elemAt vs (col - 1) = Ok val)
    /\ (forall j, 1 <= j <= len vs -> ~ In j cols -> elemAt vs (j - 1) = Ok EmptyString).
Proof.
  destruct (denseValues_sorted d cells cols Hcols Hsorted Hvalues []) as (vs & D & L & Hin & Hb).
  { apply Forall_forall. intros col Hc. change (len []) with 0.
    destruct (Forall2_in_right _ _ _ _ Hcols Hc) as (c & _ & r & Hr).
    apply CellNameToCoordinates_range in Hr. lia. }
  exists vs. split; [|split; [exact L|split; [exact Hin|]]].
  - now apply (Columns_row_reached formattedValue d rows n cells rest vs).
  - intros j Hj. apply Hb. change (len []) with 0. lia.
Qed.

End DenseColumns.

Lemma X8_Columns_values_by_column_witness :
  exists vs,
    Columns (fun _ v => v) []
      (mkRows None 1 1 0
         (rowElement 1 (cellsXML [mkC "B1" 0 "str" "b" None;
                                  mkC "D1" 0 "str" "d" None]) ++ []))
    = Returned vs None
        (setDecoder
           (mkRows None 1 1 0
              (rowElement 1 (cellsXML [mkC "B1" 0 "str" "b" None;
                                       mkC "D1" 0 "str" "d" None]) ++ [])) [])
    /\ len vs = last [2; 4] 0
    /\ (forall c col,
          In (c, col) (combine [mkC "B1" 0 "str" "b" None; mkC "D1" 0 "str" "d" None]
                               [2; 4]) ->
          exists val, getValueFrom (fun _ v => v) c [] = Ok val
                      /\ elemAt vs (col - 1) = Ok val)
    /\ (forall j, 1 <= j <= len vs -> ~ In j [2; 4] -> elemAt vs (j - 1) = Ok EmptyString).
Proof.
  apply (X8_Columns_values_by_column (fun _ v => v) []
           (mkRows None 1 1 0
              (rowElement 1 (cellsXML [mkC "B1" 0 "str" "b" None;
                                       mkC "D1" 0 "str" "d" None]) ++ []))
           1 [mkC "B1" 0 "str" "b" None; mkC "D1" 0 "str" "d" None] [2; 4] []).
  - simpl. lia.
  - reflexivity.
  - unfold maxInt. lia.
  - repeat constructor; simpl; unfold maxInt; lia.
  - repeat constructor; eexists; vm_compute; reflexivity.
  - repeat constructor.
  - repeat constructor; discriminate.
  - reflexivity.
Defined.

(** ** A row that cannot be read to its end *)

Section PartialRow.

Variable formattedValue : Z -> string -> string.

Lemma columnsLoop_cells_then (d : list string) (rows : Rows) (ts : list Token)
    (cells : list xlsxC) :
  Forall (fun c => 0 <= cS c <= maxInt) cells ->
  forall (fuel : nat) (columns vs : list string),
  denseValues formattedValue d columns cells = Some vs ->
  columnsLoop formattedValue (List.length cells + fuel) d rows columns
    (cellsXML cells ++ ts)
  = columnsLoop formattedValue fuel d rows vs ts.
Proof.
  induction 1 as [|c cells Hc _ IH]; intros fuel columns vs Hv.
  - cbn [denseValues] in Hv. inversion Hv. reflexivity.
  - change (cellsXML (c :: cells) ++ ts)
      with (StartElement "c" (cellAttrs c)
            :: ((cellChildren c ++ cellsXML cells) ++ ts)).
    change (List.length (c :: cells) + fuel)%nat
      with (S (List.length cells + fuel)).
    rewrite <- app_assoc, columnsLoop_c.
    rewrite DecodeElement_cellElement by exact Hc.
    cbn [denseValues] in Hv.
    destruct (CellNameToCoordinates (cR c)) as [[col r]| |]; try discriminate.
    destruct (getValueFrom formattedValue c d) as [val| |]; try discriminate.
    now apply IH.
Qed.

(** X9: when [Columns] meets a cell whose reference does not parse, it
    returns that error together with the values of the cells read before it
    in the row, and leaves the decoder behind the cell. *)
Theorem X9_Columns_malformed_reference (d : list string) (rows : Rows) (n : Z)
    (good : list xlsxC) (bad : xlsxC) (more rest : list Token)
    (vs : list string) (e : error)
    (Hstash : stashRow rows < curRow rows) (Hcur : curRow rows = n)
    (Hn : 0 <= n <= maxInt)
    (Hstyle : Forall (fun c => 0 <= cS c <= maxInt) good)
    (Hbad : 0 <= cS bad <= maxInt)
    (Hvs : denseValues formattedValue d [] good = Some vs)
    (He : CellNameToCoordinates (cR bad) = Err e)
    (Hdec : decoder rows
            = rowElement n (cellsXML good ++ cellElement bad ++ more) ++ rest) :
  Columns formattedValue d rows
  = Returned vs (Some e) (setDecoder rows (more ++ EndElement "row" :: rest)).
Proof.
  unfold Columns.
  destruct (stashRow rows >=? curRow rows) eqn:E;
    [rewrite Z.geb_leb in E; apply Z.leb_le in E; lia|].
  rewrite Hdec, rowElement_app.
  set (ts := (cellsXML good ++ cellElement bad ++ more) ++ EndElement "row" :: rest).
  rewrite (columnsLoop_enough_fuel formattedValue _
             (S (List.length good + S (List.length ts))))
    by (cbn [List.length]; lia).
  rewrite columnsLoop_row, rowAhead_declared by exact Hn. rewrite Hcur.
  assert ((n >? n) = false) as -> by (rewrite Z.gtb_ltb; apply Z.ltb_ge; lia).
  unfold ts at 2. rewrite <- !app_assoc.
  rewrite (columnsLoop_cells_then d rows _ good Hstyle _ [] vs Hvs).
  unfold cellElement. rewrite <- app_comm_cons, columnsLoop_c.
  rewrite DecodeElement_cellElement by exact Hbad.
  rewrite He. reflexivity.
Qed.

End PartialRow.

Lemma X9_Columns_malformed_reference_witness :
  Columns (fun _ v => v) []
    (mkRows None 1 1 0
       (rowElement 1 (cellsXML [mkC "A1" 0 "str" "a" None]
                      ++ cellElement (mkC "?" 0 "str" "b" None) ++ [])
        ++ []))
  = Returned ["a"] (Some (InvalidCellName "?"))
      (mkRows None 1 1 0 [EndElement "row"]).
Proof.
  apply (X9_Columns_malformed_reference (fun _ v => v) []
           (mkRows None 1 1 0
              (rowElement 1 (cellsXML [mkC "A1" 0 "str" "a" None]
                             ++ cellElement (mkC "?" 0 "str" "b" None) ++ [])
               ++ []))
           1 [mkC "A1" 0 "str" "a" None] (mkC "?" 0 "str" "b" None) [] [] ["a"]
           (InvalidCellName "?")).
  - simpl. lia.
  - reflexivity.
  - unfold maxInt. lia.
  - repeat constructor; simpl; unfold maxInt; lia.
  - simpl. unfold maxInt. lia.
  - vm_compute. reflexivity.
  - vm_compute. reflexivity.
  - reflexivity.
Defined.

(** ** The densifier, in general *)

Lemma len_replaceNth {A : Type} (l : list A) (n : nat) (a : A) :
  len (replaceNth l n a) = len l.
Proof. unfold len. now rewrite replaceNth_length. Qed.

Lemma elemAt_replaceNth_other {A : Type} (l : list A) (i j : Z) (a : A) :
  0 <= i -> i <> j -> elemAt (replaceNth l (Z.to_nat i) a) j = elemAt l j.
Proof.
  intros Hi Hij. unfold elemAt. destruct (j <? 0) eqn:E; [reflexivity|].
  apply Z.ltb_ge in E. rewrite replaceNth_nth_error_other by lia. reflexivity.
Qed.

Lemma elemAt_cons {A : Type} (a : A) (l : list A) (i : Z) :
  0 < i -> elemAt (a :: l) i = elemAt l (i - 1).
Proof.
  intros Hi. unfold elemAt.
  destruct (i <? 0) eqn:E; [apply Z.ltb_lt in E; lia|].
  destruct (i - 1 <? 0) eqn:E'; [apply Z.ltb_lt in E'; lia|].
  replace (Z.to_nat i) with (S (Z.to_nat (i - 1))) by lia. reflexivity.
Qed.

Lemma elemAt_last {A : Type} (l : list A) (a : A) :
  elemAt l (len l - 1) = Ok a -> exists init, l = init ++ [a].
Proof.
  intros H. destruct (exists_last (l := l)) as (init & b & ->).
  - intros ->. discriminate.
  - exists init. rewrite len_app in H. change (len [b]) with 1 in H.
    unfold elemAt, len in H.
    destruct (_ <? 0); [discriminate|].
    rewrite nth_error_app2 in H by lia.
    replace (Z.to_nat (Z.of_nat (List.length init) + 1 - 1) - List.length init)%nat
      with 0%nat in H by lia.
    cbn in H. congruence.
Qed.

Lemma elemAt_app_last {A : Type} (init : list A) (a : A) :
  elemAt (init ++ [a]) (len (init ++ [a]) - 1) = Ok a.
Proof.
  rewrite len_app. change (len [a]) with 1. unfold elemAt, len.
  destruct (_ <? 0) eqn:E; [apply Z.ltb_lt in E; lia|].
  rewrite nth_error_app2 by lia.
  replace (Z.to_nat (Z.of_nat (List.length init) + 1 - 1) - List.length init)%nat
    with 0%nat by lia.
  reflexivity.
Qed.

Lemma newlistFrom_placeholders (n : nat) :
  forall colIdx rowIdx : Z,
  0 <= colIdx -> colIdx + Z.of_nat n <= TotalColumns -> 0 <= rowIdx ->
  exists l,
    newlistFrom n colIdx rowIdx = Ok l
    /\ len l = Z.of_nat n
    /\ forall j, colIdx < j <= colIdx + Z.of_nat n ->
         elemAt l (j - colIdx - 1) = Ok (placeholder (cellName j (rowIdx + 1))).
Proof.
  induction n as [|n IH]; intros colIdx rowIdx Hc Hn Hr.
  - exists []. repeat split. intros j Hj. lia.
  - cbn [newlistFrom].
    rewrite CoordinatesToCellName_ok by lia. cbn [bind].
    destruct (IH (colIdx + 1) rowIdx) as (l & -> & L & Hl); try lia.
    cbn [bind]. eexists. split; [reflexivity|]. split.
    + unfold len in *. cbn [List.length]. lia.
    + intros j Hj. destruct (Z.eq_dec j (colIdx + 1)) as [->|Hne].
      * replace (colIdx + 1 - colIdx - 1) with 0 by lia. reflexivity.
      * rewrite elemAt_cons by lia.
        replace (j - colIdx - 1 - 1) with (j - (colIdx + 1) - 1) by lia.
        apply Hl. lia.
Qed.

Lemma overlay_app (l1 l2 cs : list xlsxC) :
  overlay (l1 ++ l2) cs = (cs1 <- overlay l1 cs ;; overlay l2 cs1).
Proof.
  revert cs. induction l1 as [|c l1 IH]; intros cs; [reflexivity|].
  rewrite <- app_comm_cons. cbn [overlay].
  destruct (CellNameToCoordinates (cR c)) as [cn| |]; cbn [bind]; try reflexivity.
  destruct (assign cs (fst cn - 1) c) as [cs'| |]; cbn [bind]; try reflexivity.
  apply IH.
Qed.

Lemma overlay_len (cells : list xlsxC) :
  forall cs cs', overlay cells cs = Ok cs' -> len cs' = len cs.
Proof.
  induction cells as [|c cells IH]; intros cs cs' H; cbn [overlay] in H.
  - now inversion H.
  - destruct (CellNameToCoordinates (cR c)) as [cn| |]; cbn [bind] in H; try discriminate.
    unfold assign in H.
    destruct ((fst cn - 1 <? 0) || (len cs <=? fst cn - 1)); cbn [bind] in H;
      try discriminate.
    apply IH in H. now rewrite len_replaceNth in H.
Qed.

Lemma overlay_cells (cells : list xlsxC) (cols : list Z) :
  Forall2 (fun c col => exists r, CellNameToCoordinates (cR c) = Ok (col, r)) cells cols ->
  NoDup cols ->
  forall cs : list xlsxC,
  Forall (fun col => col <= len cs) cols ->
  exists cs',
    overlay cells cs = Ok cs'
    /\ (forall c col, In (c, col) (combine cells cols) -> elemAt cs' (col - 1) = Ok c)
    /\ (forall j, ~ In j cols -> elemAt cs' (j - 1) = elemAt cs (j - 1)).
Proof.
  induction 1 as [|c col cells cols [r Hc] _ IH]; intros Hnd cs Hle.
  - exists cs. repeat split. intros c col [].
  - inversion Hnd as [|? ? Hnot Hnd']. subst.
    inversion Hle as [|? ? Hcol Hle']. subst.
    pose proof (CellNameToCoordinates_range _ _ _ Hc) as [[Hc1 _] _].
    cbn [overlay]. rewrite Hc. cbn [bind fst].
    rewrite assign_inside by lia. cbn [bind].
    destruct (IH Hnd' (replaceNth cs (Z.to_nat (col - 1)) c)) as (cs' & -> & Hin & Hout).
    { rewrite len_replaceNth. exact Hle'. }
    exists cs'. split; [reflexivity|]. split.
    + intros c' col' [E|Hc']; [|now apply Hin].
      inversion E. subst c' col'. rewrite Hout by exact Hnot.
      apply elemAt_replaceNth. lia.
    + intros j Hj. rewrite Hout by (intros X; apply Hj; now right).
      apply elemAt_replaceNth_other; [lia|].
      intros E. apply Hj. left. lia.
Qed.

(** X10: a row that [checkRow] rebuilds (fewer cells than the column of its
    last cell, no column declared twice and none beyond the last cell's)
    gets as many cells as that column; every declared cell sits at the
    position of its column, unchanged, and every other position holds a
    reference-only placeholder whose reference is made of the column and of
    the position of the row record in the sheet, [rowIdx + 1]. *)
Theorem X10_checkRowAt_rebuilds (rowIdx : Z) (rowData : xlsxRow) (cols : list Z)
    (lastCol : Z)
    (Hidx : 0 <= rowIdx)
    (Hcols : Forall2 (fun c col => exists r, CellNameToCoordinates (cR c) = Ok (col, r))
                     (rC rowData) cols)
    (Hlast : last cols 0 = lastCol)
    (Hfew : len (rC rowData) < lastCol)
    (Hnodup : NoDup cols)
    (Hmax : Forall (fun col => col <= lastCol) cols) :
  exists cs,
    checkRowAt rowIdx rowData = Ok (setC rowData cs)
    /\ len cs = lastCol
    /\ (forall c col, In (c, col) (combine (rC rowData) cols) ->
          elemAt cs (col - 1) = Ok c)
    /\ (forall j, 1 <= j <= lastCol -> ~ In j cols ->
          elemAt cs (j - 1) = Ok (placeholder (cellName j (rowIdx + 1)))).
Proof.
  pose proof (len_nonneg (rC rowData)) as L0.
  destruct (exists_last (l := cols)) as (icols & lc & Ecols).
  { intros ->. cbn in Hlast. lia. }
  assert (lc = lastCol) as ->.
  { rewrite Ecols, last_last in Hlast. exact Hlast. }
  assert (exists init lastc, rC rowData = init ++ [lastc]
                             /\ exists r, CellNameToCoordinates (cR lastc) = Ok (lastCol, r))
    as (init & lastc & EC & r & Hr).
  { rewrite Ecols in Hcols. apply Forall2_app_inv_r in Hcols
      as (init & l2 & H1 & H2 & E).
    inversion H2 as [|lastc ? ? ? Hl H3]. subst. inversion H3. subst.
    exists init, lastc. split; [exact E | exact Hl]. }
  pose proof (CellNameToCoordinates_range _ _ _ Hr) as [[Hl1 Hl2] _].
  unfold checkRowAt.
  destruct (len (rC rowData) =? 0) eqn:E0.
  { apply Z.eqb_eq in E0. rewrite EC, len_app in E0. change (len [lastc]) with 1 in E0.
    pose proof (len_nonneg init). lia. }
  assert (elemAt (rC rowData) (len (rC rowData) - 1) = Ok lastc) as ->
    by (rewrite EC; apply elemAt_app_last).
  cbn [bind]. rewrite Hr. cbn [bind fst].
  assert ((len (rC rowData) <? lastCol) = true) as -> by (apply Z.ltb_lt; lia).
  destruct (newlistFrom_placeholders (Z.to_nat lastCol) 0 rowIdx)
    as (newlist & -> & Ln & Hp); try lia. cbn [bind].
  destruct (overlay_cells (rC rowData) cols Hcols Hnodup newlist)
    as (cs & Ho & Hin & Hout).
  { rewrite Ln, Z2Nat.id by lia. exact Hmax. }
  rewrite Ho. cbn [bind]. exists cs. split; [reflexivity|]. split; [|split].
  - rewrite (overlay_len _ _ _ Ho), Ln. lia.
  - exact Hin.
  - intros j Hj Hn. rewrite Hout by exact Hn.
    replace (j - 1) with (j - 0 - 1) by lia. apply Hp. lia.
Qed.

Lemma X10_checkRowAt_rebuilds_witness :
  exists cs,
    checkRowAt 0 (mkRow 15 false 0 [mkC "A15" 2 EmptyString "1" None;
                                    mkC "D15" 1 EmptyString "4" None])
    = Ok (setC (mkRow 15 false 0 [mkC "A15" 2 EmptyString "1" None;
                                  mkC "D15" 1 EmptyString "4" None]) cs)
    /\ len cs = 4
    /\ (forall c col,
          In (c, col) (combine [mkC "A15" 2 EmptyString "1" None;
                                mkC "D15" 1 EmptyString "4" None] [1; 4]) ->
          elemAt cs (col - 1) = Ok c)
    /\ (forall j, 1 <= j <= 4 -> ~ In j [1; 4] ->
          elemAt cs (j - 1) = Ok (placeholder (cellName j (0 + 1)))).
Proof.
  apply (X10_checkRowAt_rebuilds 0
           (mkRow 15 false 0 [mkC "A15" 2 EmptyString "1" None;
                              mkC "D15" 1 EmptyString "4" None]) [1; 4] 4).
  - lia.
  - repeat constructor; eexists; vm_compute; reflexivity.
  - reflexivity.
  - unfold len. simpl. lia.
  - repeat constructor; simpl; intuition lia.
  - repeat constructor; lia.
Defined.

Lemma newlistFrom_len (n : nat) :
  forall (colIdx rowIdx : Z) (l : list xlsxC),
  newlistFrom n colIdx rowIdx = Ok l -> len l = Z.of_nat n.
Proof.
  induction n as [|n IH]; intros colIdx rowIdx l H; cbn [newlistFrom] in H.
  - inversion H. reflexivity.
  - destruct (CoordinatesToCellName (colIdx + 1) (rowIdx + 1)); cbn [bind] in H;
      try discriminate.
    destruct (newlistFrom n (colIdx + 1) rowIdx) as [rest| |] eqn:R; cbn [bind] in H;
      try discriminate.
    inversion H. apply IH in R. unfold len in *. cbn [List.length]. lia.
Qed.

Lemma checkRowAt_keeps (rowIdx : Z) (rowData r' : xlsxRow) :
  checkRowAt rowIdx rowData = Ok r' ->
  rR r' = rR rowData /\ rHidden r' = rHidden rowData
  /\ rOutlineLevel r' = rOutlineLevel rowData
  /\ len (rC rowData) <= len (rC r').
Proof.
  unfold checkRowAt. intros H.
  destruct (len (rC rowData) =? 0); [inversion H; repeat split; lia|].
  destruct (elemAt (rC rowData) (len (rC rowData) - 1)) as [lastc| |];
    cbn [bind] in H; try discriminate.
  destruct (CellNameToCoordinates (cR lastc)) as [lc| |]; cbn [bind] in H;
    try discriminate.
  destruct (len (rC rowData) <? fst lc) eqn:E; [|inversion H; repeat split; lia].
  apply Z.ltb_lt in E.
  destruct (newlistFrom (Z.to_nat (fst lc)) 0 rowIdx) as [newlist| |] eqn:N;
    cbn [bind] in H; try discriminate.
  destruct (overlay (rC rowData) newlist) as [cs| |] eqn:O; cbn [bind] in H;
    try discriminate.
  inversion H. cbn [setC rR rHidden rOutlineLevel rC]. repeat split.
  apply overlay_len in O. apply newlistFrom_len in N. lia.
Qed.

Lemma checkRowsFrom_keeps (rows : list xlsxRow) :
  forall (rowIdx : Z) (rows' : list xlsxRow),
  checkRowsFrom rowIdx rows = Ok rows' ->
  Forall2 (fun r r' => rR r' = rR r /\ rHidden r' = rHidden r
                       /\ rOutlineLevel r' = rOutlineLevel r
                       /\ len (rC r) <= len (rC r')) rows rows'.
Proof.
  induction rows as [|r rows IH]; intros rowIdx rows' H; cbn [checkRowsFrom] in H.
  - inversion H. constructor.
  - destruct (checkRowAt rowIdx r) as [r1| |] eqn:R; cbn [bind] in H; try discriminate.
    destruct (checkRowsFrom (rowIdx + 1) rows) as [rest| |] eqn:Rs; cbn [bind] in H;
      try discriminate.
    inversion H. constructor; [now apply (checkRowAt_keeps rowIdx) | now apply (IH (rowIdx + 1))].
Qed.

(** X11: when [checkRow] succeeds, the sheet has the same row records in
    the same order: every one keeps its number, its hidden flag and its
    outline level and has at least as many cells as before; the merged
    regions are untouched. *)
Theorem X11_checkRow_keeps_rows (xlsx xlsx' : xlsxWorksheet)
    (H : checkRow xlsx = Ok xlsx') :
  MergeCells xlsx' = MergeCells xlsx
  /\ len (Row xlsx') = len (Row xlsx)
  /\ Forall2 (fun r r' => rR r' = rR r /\ rHidden r' = rHidden r
                          /\ rOutlineLevel r' = rOutlineLevel r
                          /\ len (rC r) <= len (rC r')) (Row xlsx) (Row xlsx').
Proof.
  unfold checkRow in H.
  destruct (checkRowsFrom 0 (Row xlsx)) as [rows| |] eqn:R; cbn [bind] in H;
    try discriminate.
  inversion H. cbn [MergeCells Row]. apply checkRowsFrom_keeps in R.
  split; [reflexivity|]. split; [|exact R].
  unfold len. f_equal. symmetry. eapply Forall2_length. exact R.
Qed.

Lemma X11_checkRow_keeps_rows_witness :
  MergeCells (mkSheet [mkRow 9 true 3 [mkC "A1" 0 EmptyString "1" None;
                                       placeholder "B1";
                                       mkC "C1" 0 EmptyString "3" None]]
                      (Some [mkMergeCell "A1:B1"]))
  = MergeCells (mkSheet [mkRow 9 true 3 [mkC "A1" 0 EmptyString "1" None;
                                         mkC "C1" 0 EmptyString "3" None]]
                        (Some [mkMergeCell "A1:B1"]))
  /\ len [mkRow 9 true 3 [mkC "A1" 0 EmptyString "1" None; placeholder "B1";
                           mkC "C1" 0 EmptyString "3" None]]
     = len [mkRow 9 true 3 [mkC "A1" 0 EmptyString "1" None;
                            mkC "C1" 0 EmptyString "3" None]]
  /\ Forall2 (fun r r' => rR r' = rR r /\ rHidden r' = rHidden r
                           /\ rOutlineLevel r' = rOutlineLevel r
                           /\ len (rC r) <= len (rC r'))
       [mkRow 9 true 3 [mkC "A1" 0 EmptyString "1" None;
                        mkC "C1" 0 EmptyString "3" None]]
       [mkRow 9 true 3 [mkC "A1" 0 EmptyString "1" None; placeholder "B1";
                        mkC "C1" 0 EmptyString "3" None]].
Proof.
  apply (X11_checkRow_keeps_rows
           (mkSheet [mkRow 9 true 3 [mkC "A1" 0 EmptyString "1" None;
                                     mkC "C1" 0 EmptyString "3" None]]
                    (Some [mkMergeCell "A1:B1"]))
           (mkSheet [mkRow 9 true 3 [mkC "A1" 0 EmptyString "1" None;
                                     placeholder "B1";
                                     mkC "C1" 0 EmptyString "3" None]]
                    (Some [mkMergeCell "A1:B1"]))).
  vm_compute. reflexivity.
Defined.

Lemma overlay_last_cell (init cs cs' : list xlsxC) (lastc : xlsxC) (col r : Z) :
  overlay (init ++ [lastc]) cs = Ok cs' ->
  CellNameToCoordinates (cR lastc) = Ok (col, r) ->
  col = len cs' /\ len cs' = len cs -> elemAt cs' (len cs' - 1) = Ok lastc.
Proof.
  intros H Hc [E L]. rewrite overlay_app in H.
  destruct (overlay init cs) as [cs1| |] eqn:O; cbn [bind] in H; try discriminate.
  cbn [overlay] in H. rewrite Hc in H. cbn [bind fst] in H.
  destruct (assign cs1 (col - 1) lastc) as [cs2| |] eqn:A; cbn [bind] in H;
    try discriminate.
  injection H as <-. unfold assign in A.
  destruct ((col - 1 <? 0) || (len cs1 <=? col - 1)) eqn:G; [discriminate|].
  apply orb_false_elim in G as [G1 G2]. apply Z.ltb_ge in G1. apply Z.leb_gt in G2.
  injection A as <-. rewrite <- E.
  apply elemAt_replaceNth. lia.
Qed.

Lemma checkRowAt_again (rowIdx : Z) (rowData r' : xlsxRow) :
  checkRowAt rowIdx rowData = Ok r' -> checkRowAt rowIdx r' = Ok r'.
Proof.
  intros H. pose proof H as H0. unfold checkRowAt in H.
  destruct (len (rC rowData) =? 0) eqn:E0; [inversion H; subst; exact H0|].
  destruct (elemAt (rC rowData) (len (rC rowData) - 1)) as [lastc| |] eqn:EL;
    cbn [bind] in H; try discriminate.
  destruct (CellNameToCoordinates (cR lastc)) as [[lastCol lr]| |] eqn:CN;
    cbn [bind fst] in H; try discriminate.
  destruct (len (rC rowData) <? lastCol) eqn:E; [|inversion H; subst; exact H0].
  apply Z.ltb_lt in E.
  destruct (newlistFrom (Z.to_nat lastCol) 0 rowIdx) as [newlist| |] eqn:N;
    cbn [bind] in H; try discriminate.
  destruct (overlay (rC rowData) newlist) as [cs| |] eqn:O; cbn [bind] in H;
    try discriminate.
  inversion H. subst r'. clear H H0.
  pose proof (overlay_len _ _ _ O) as L. pose proof (newlistFrom_len _ _ _ _ N) as Ln.
  pose proof (len_nonneg (rC rowData)) as L0.
  apply elemAt_last in EL as [init EC]. rewrite EC in O.
  assert (len cs = lastCol) as Lc by lia.
  pose proof (overlay_last_cell init newlist cs lastc lastCol lr O CN
                (conj (eq_sym Lc) L)) as Hlast.
  unfold checkRowAt. cbn [setC rC].
  destruct (len cs =? 0) eqn:E1; [apply Z.eqb_eq in E1; lia|].
  rewrite Hlast. cbn [bind]. rewrite CN. cbn [bind fst].
  assert ((len cs <? lastCol) = false) as -> by (apply Z.ltb_ge; lia).
  reflexivity.
Qed.

Lemma checkRowsFrom_again (rows : list xlsxRow) :
  forall (rowIdx : Z) (rows' : list xlsxRow),
  checkRowsFrom rowIdx rows = Ok rows' -> checkRowsFrom rowIdx rows' = Ok rows'.
Proof.
  induction rows as [|r rows IH]; intros rowIdx rows' H; cbn [checkRowsFrom] in H.
  - inversion H. reflexivity.
  - destruct (checkRowAt rowIdx r) as [r1| |] eqn:R; cbn [bind] in H; try discriminate.
    destruct (checkRowsFrom (rowIdx + 1) rows) as [rest| |] eqn:Rs; cbn [bind] in H;
      try discriminate.
    inversion H. cbn [checkRowsFrom].
    rewrite (checkRowAt_again _ _ _ R). cbn [bind].
    rewrite (IH _ _ Rs). reflexivity.
Qed.

(** X12: [checkRow] is idempotent: on the sheet that a successful call
    leaves, a second call succeeds and changes nothing. *)
Theorem X12_checkRow_idempotent (xlsx xlsx' : xlsxWorksheet)
    (H : checkRow xlsx = Ok xlsx') :
  checkRow xlsx' = Ok xlsx'.
Proof.
  unfold checkRow in *.
  destruct (checkRowsFrom 0 (Row xlsx)) as [rows| |] eqn:R; cbn [bind] in H;
    try discriminate.
  inversion H. cbn [Row MergeCells].
  rewrite (checkRowsFrom_again _ _ _ R). reflexivity.
Qed.

Lemma X12_checkRow_idempotent_witness :
  checkRow (mkSheet [mkRow 9 true 3 [mkC "A1" 0 EmptyString "1" None;
                                     placeholder "B1";
                                     mkC "C1" 0 EmptyString "3" None]] None)
  = Ok (mkSheet [mkRow 9 true 3 [mkC "A1" 0 EmptyString "1" None;
                                 placeholder "B1";
                                 mkC "C1" 0 EmptyString "3" None]] None).
Proof.
  apply (X12_checkRow_idempotent
           (mkSheet [mkRow 9 true 3 [mkC "A1" 0 EmptyString "1" None;
                                     mkC "C1" 0 EmptyString "3" None]] None)).
  vm_compute. reflexivity.
Defined.

Lemma overlay_beyond (cells : list xlsxC) (cols : list Z) :
  Forall2 (fun c col => exists r, CellNameToCoordinates (cR c) = Ok (col, r)) cells cols ->
  forall cs : list xlsxC,
  Exists (fun col => len cs < col) cols ->
  overlay cells cs = Panic.
Proof.
  induction 1 as [|c col cells cols [r Hc] _ IH]; intros cs Hex.
  - inversion Hex.
  - cbn [overlay]. rewrite Hc. cbn [bind fst].
    pose proof (CellNameToCoordinates_range _ _ _ Hc) as [[Hc1 _] _].
    destruct (Z_lt_le_dec (len cs) col) as [Hb|Hb].
    + unfold assign.
      assert (((col - 1 <? 0) || (len cs <=? col - 1)) = true) as ->.
      { apply orb_true_intro. right. apply Z.leb_le. lia. }
      reflexivity.
    + rewrite assign_inside by lia. cbn [bind].
      apply IH. rewrite len_replaceNth.
      inversion Hex as [? ? Hh|? ? Ht]; subst; [lia | exact Ht].
Qed.

(** X13: [checkRow] panics (index out of range) at a row that it rebuilds
    when one of its cells lies in a column beyond that of its last cell:
    the rebuilt sequence has no slot for it. *)
Theorem X13_checkRow_cell_beyond_last (xlsx : xlsxWorksheet)
    (before after done : list xlsxRow) (rowData : xlsxRow) (cols : list Z)
    (lastCol : Z)
    (Hrows : Row xlsx = before ++ rowData :: after)
    (Hbefore : checkRowsFrom 0 before = Ok done)
    (Hcols : Forall2 (fun c col => exists r, CellNameToCoordinates (cR c) = Ok (col, r))
                     (rC rowData) cols)
    (Hlast : last cols 0 = lastCol)
    (Hfew : len (rC rowData) < lastCol)
    (Hbeyond : Exists (fun col => lastCol < col) cols) :
  checkRow xlsx = Panic.
Proof.
  unfold checkRow. rewrite Hrows, checkRowsFrom_app, Hbefore. cbn [bind checkRowsFrom].
  assert (checkRowAt (0 + len before) rowData = Panic) as ->; [|reflexivity].
  pose proof (len_nonneg (rC rowData)) as L0. pose proof (len_nonneg before) as Lb.
  destruct (exists_last (l := cols)) as (icols & lc & Ecols).
  { intros ->. cbn in Hlast. lia. }
  assert (lc = lastCol) as ->.
  { rewrite Ecols, last_last in Hlast. exact Hlast. }
  assert (exists init lastc, rC rowData = init ++ [lastc]
                             /\ exists r, CellNameToCoordinates (cR lastc) = Ok (lastCol, r))
    as (init & lastc & EC & r & Hr).
  { pose proof Hcols as Hc2. rewrite Ecols in Hc2. apply Forall2_app_inv_r in Hc2
      as (init & l2 & H1 & H2 & E).
    inversion H2 as [|lastc ? ? ? Hl H3]. subst. inversion H3. subst.
    exists init, lastc. split; [exact E | exact Hl]. }
  pose proof (CellNameToCoordinates_range _ _ _ Hr) as [[Hl1 Hl2] _].
  unfold checkRowAt.
  destruct (len (rC rowData) =? 0) eqn:E0.
  { apply Z.eqb_eq in E0. rewrite EC, len_app in E0. change (len [lastc]) with 1 in E0.
    pose proof (len_nonneg init). lia. }
  assert (elemAt (rC rowData) (len (rC rowData) - 1) = Ok lastc) as ->
    by (rewrite EC; apply elemAt_app_last).
  cbn [bind]. rewrite Hr. cbn [bind fst].
  assert ((len (rC rowData) <? lastCol) = true) as -> by (apply Z.ltb_lt; lia).
  destruct (newlistFrom_placeholders (Z.to_nat lastCol) 0 (0 + len before))
    as (newlist & -> & Ln & _); try lia. cbn [bind].
  rewrite (overlay_beyond (rC rowData) cols Hcols newlist); [reflexivity|].
  rewrite Ln, Z2Nat.id by lia. exact Hbeyond.
Qed.

Lemma X13_checkRow_cell_beyond_last_witness :
  checkRow (mkSheet [emptyRow 1;
                     mkRow 2 false 0 [mkC "Z2" 0 EmptyString "26" None;
                                      mkC "C2" 0 EmptyString "3" None]] None)
  = Panic.
Proof.
  apply (X13_checkRow_cell_beyond_last
           (mkSheet [emptyRow 1;
                     mkRow 2 false 0 [mkC "Z2" 0 EmptyString "26" None;
                                      mkC "C2" 0 EmptyString "3" None]] None)
           [emptyRow 1] [] [emptyRow 1]
           (mkRow 2 false 0 [mkC "Z2" 0 EmptyString "26" None;
                             mkC "C2" 0 EmptyString "3" None])
           [26; 3] 3).
  - reflexivity.
  - reflexivity.
  - repeat constructor; eexists; vm_compute; reflexivity.
  - reflexivity.
  - unfold len. simpl. lia.
  - constructor. lia.
Defined.

(** ** The structural editor, in general *)

Lemma findRow_first (n : Z) (pre post : list xlsxRow) (r : xlsxRow) (i : Z) :
  Forall (fun x => rR x <> n) pre -> rR r = n ->
  findRow n i (pre ++ r :: post) = Some (i + len pre, r).
Proof.
  intros Hpre Hr. revert i. induction Hpre as [|x pre Hx _ IH]; intros i.
  - change ([] ++ r :: post) with (r :: post). cbn [findRow].
    rewrite Hr, Z.eqb_refl. f_equal. f_equal.
    change (len []) with 0. lia.
  - rewrite <- app_comm_cons. cbn [findRow].
    destruct (rR x =? n) eqn:E; [apply Z.eqb_eq in E; contradiction|].
    rewrite IH. f_equal. f_equal. unfold len. cbn [List.length]. lia.
Qed.

Lemma removeNth_middle {A : Type} (pre post : list A) (a : A) :
  removeNth (pre ++ a :: post) (List.length pre) = pre ++ post.
Proof.
  induction pre as [|x pre IH]; [reflexivity|].
  rewrite <- app_comm_cons. cbn [List.length removeNth]. now rewrite IH.
Qed.

Section EditorGeneral.

Variable adjustHelper : xlsxWorksheet -> Z -> Z -> result xlsxWorksheet.

(** X14: when a record numbered [row] is stored, [RemoveRow] takes out
    exactly one record, the first one with that number, keeps the others in
    their order, and hands the sheet to the reference shift by -1 at [row],
    whose outcome it returns. *)
Theorem X14_RemoveRow_first_record (xlsx : xlsxWorksheet) (row : Z)
    (pre post : list xlsxRow) (r : xlsxRow)
    (Hrow : 1 <= row <= len (Row xlsx))
    (Hrows : Row xlsx = pre ++ r :: post)
    (Hpre : Forall (fun x => rR x <> row) pre)
    (Hr : rR r = row) :
  RemoveRow adjustHelper xlsx row
  = adjustHelper (mkSheet (pre ++ post) (MergeCells xlsx)) row (-1).
Proof.
  unfold RemoveRow.
  destruct (row <? 1) eqn:E; [apply Z.ltb_lt in E; lia|].
  destruct (row >? len (Row xlsx)) eqn:E';
    [rewrite Z.gtb_ltb in E'; apply Z.ltb_lt in E'; lia|].
  rewrite Hrows, (findRow_first row pre post r 0 Hpre Hr).
  replace (Z.to_nat (0 + len pre)) with (List.length pre) by (unfold len; lia).
  now rewrite removeNth_middle.
Qed.

(** X15: [DuplicateRowTo] leaves the sheet as it is and reports success,
    without running the reference shift, when the source row is beyond the
    stored records, when the destination is below 1 or is the source row
    itself, and when no stored record has the number of the source row. *)
Theorem X15_DuplicateRowTo_nothing_to_do (xlsx : xlsxWorksheet) (row row2 : Z)
    (Hrow : 1 <= row)
    (Hcase : row > len (Row xlsx) \/ row2 < 1 \/ row = row2
             \/ (forall x, In x (Row xlsx) -> rR x <> row)) :
  DuplicateRowTo adjustHelper xlsx row row2 = Ok xlsx.
Proof.
  unfold DuplicateRowTo.
  destruct (row <? 1) eqn:E; [apply Z.ltb_lt in E; lia|].
  destruct ((row >? len (Row xlsx)) || (row2 <? 1) || (row =? row2)) eqn:G;
    [reflexivity|].
  apply orb_false_elim in G as [G G3]. apply orb_false_elim in G as [G1 G2].
  rewrite Z.gtb_ltb in G1. apply Z.ltb_ge in G1. apply Z.ltb_ge in G2.
  apply Z.eqb_neq in G3.
  destruct Hcase as [H|[H|[H|H]]]; try lia.
  now rewrite findRow_none.
Qed.

End EditorGeneral.

Lemma X14_RemoveRow_first_record_witness :
  RemoveRow (fun x _ _ => Ok x)
    (mkSheet [emptyRow 1; emptyRow 2; emptyRow 3; emptyRow 2] None) 2
  = Ok (mkSheet [emptyRow 1; emptyRow 3; emptyRow 2] None).
Proof.
  apply (X14_RemoveRow_first_record (fun x _ _ => Ok x)
           (mkSheet [emptyRow 1; emptyRow 2; emptyRow 3; emptyRow 2] None) 2
           [emptyRow 1] [emptyRow 3; emptyRow 2] (emptyRow 2)).
  - unfold len. simpl. lia.
  - reflexivity.
  - repeat constructor. simpl. lia.
  - reflexivity.
Defined.

Lemma X15_DuplicateRowTo_nothing_to_do_witness :
  DuplicateRowTo (fun _ _ _ => Panic) (mkSheet [emptyRow 1; emptyRow 5] None) 2 4
  = Ok (mkSheet [emptyRow 1; emptyRow 5] None).
Proof.
  apply (X15_DuplicateRowTo_nothing_to_do (fun _ _ _ => Panic)
           (mkSheet [emptyRow 1; emptyRow 5] None) 2 4).
  - lia.
  - right. right. right. intros x [<-|[<-|[]]]; simpl; lia.
Defined.

(** ** The merge repair, in general *)

Ltac lists_equal :=
  repeat (rewrite <- app_assoc || rewrite <- app_comm_cons || rewrite app_nil_l);
  reflexivity.

Lemma singleRowOn_parses (row : Z) (m : xlsxMergeCell) (c : Z * Z * Z * Z) :
  areaRefToCoordinates (mRef m) = Ok c -> singleRowOn row m = true ->
  exists x1 x2, areaRefToCoordinates (mRef m) = Ok (x1, row, x2, row).
Proof.
  intros Hc Hs. unfold singleRowOn in Hs. rewrite Hc in Hs. cbn [ignoreErr] in Hs.
  destruct c as [[[x1 y1] x2] y2]. apply andb_prop in Hs as [E1 E2].
  apply Z.eqb_eq in E1, E2. subst. now exists x1, x2.
Qed.

Lemma straddled_parses (row2 : Z) (cells : list xlsxMergeCell) :
  straddled row2 cells = Ok false ->
  Forall (fun m => exists c, areaRefToCoordinates (mRef m) = Ok c) cells.
Proof.
  induction cells as [|m cells IH]; intros H; [constructor|].
  cbn [straddled] in H.
  destruct (areaRefToCoordinates (mRef m)) as [[[[x1 y1] x2] y2]| |] eqn:P;
    cbn [bind] in H; try discriminate.
  destruct ((y1 <? row2) && (row2 <? y2)); [discriminate|].
  constructor; [eauto | now apply IH].
Qed.

Lemma duplicateLoop_duplicated (row row2 : Z) (todo : list xlsxMergeCell) :
  1 <= row2 <= maxInt -> row <> row2 ->
  Forall (fun m => exists c, areaRefToCoordinates (mRef m) = Ok c) todo ->
  forall (skip : bool) (done added : list xlsxMergeCell) (fuel : nat),
  Forall (fun m => singleRowOn row m = false) added ->
  (List.length todo + List.length added < fuel + (if skip then 1 else 0))%nat ->
  duplicateLoop fuel (len done + (if skip then 1 else 0)) row row2
    (done ++ todo ++ added)
  = Ok (done ++ todo ++ added ++ map (regionAt row2) (duplicated skip row todo)).
Proof.
  intros H2 Hne Hp. induction Hp as [|m todo [c Hc] _ IH];
    intros skip done added fuel Ha Hf.
  - cbn [duplicated map]. rewrite app_nil_r. change ([] ++ added) with added.
    destruct skip.
    + destruct added as [|a added].
      * apply duplicateLoop_end. rewrite app_nil_r. lia.
      * replace (len done + 1) with (len (done ++ [a]))
          by (rewrite len_app; reflexivity).
        replace (done ++ a :: added) with ((done ++ [a]) ++ added)
          by (now rewrite <- app_assoc).
        apply duplicateLoop_none. now inversion Ha.
    + rewrite Z.add_0_r. now apply duplicateLoop_none.
  - change ((m :: todo) ++ added) with (m :: (todo ++ added)).
    destruct skip.
    + cbn [duplicated].
      replace (len done + 1) with (len (done ++ [m]) + 0)
        by (rewrite len_app; change (len [m]) with 1; lia).
      replace (done ++ m :: todo ++ added) with ((done ++ [m]) ++ todo ++ added)
        by lists_equal.
      rewrite (IH false (done ++ [m]) added fuel Ha)
        by (cbn [List.length] in Hf; lia).
      lists_equal.
    + rewrite Z.add_0_r. destruct fuel as [|fuel]; [lia|].
      cbn [List.length] in Hf. cbn [duplicated].
      destruct (singleRowOn row m) eqn:S.
      * destruct (singleRowOn_parses row m c Hc S) as (x1 & x2 & P).
        destruct (areaRefToCoordinates_range _ _ _ _ _ P) as [[Hx1 _] [Hx2 _]].
        rewrite (duplicateLoop_dup fuel (len done) row row2 _ m x1 x2
                   (elemAt_app_middle done (todo ++ added) m) P H2).
        set (dup := mkMergeCell (areaRef (cellName x1 row2) (cellName x2 row2))).
        assert (regionAt row2 m = dup) as R by (unfold regionAt; now rewrite P).
        replace (len done + 1 + 1) with (len (done ++ [m]) + 1)
          by (rewrite len_app; change (len [m]) with 1; lia).
        replace ((done ++ m :: todo ++ added) ++ [dup])
          with ((done ++ [m]) ++ todo ++ (added ++ [dup]))
          by lists_equal.
        rewrite (IH true (done ++ [m]) (added ++ [dup]) fuel).
        -- cbn [map]. rewrite R. lists_equal.
        -- apply Forall_app. split; [exact Ha|]. constructor; [|constructor].
           now apply singleRowOn_duplicate.
        -- rewrite length_app. cbn [List.length]. lia.
      * rewrite (duplicateLoop_skip fuel (len done) row row2 _ m
                   (elemAt_app_middle done (todo ++ added) m) S).
        replace (len done + 1) with (len (done ++ [m]) + 0)
          by (rewrite len_app; change (len [m]) with 1; lia).
        replace (done ++ m :: todo ++ added) with ((done ++ [m]) ++ todo ++ added)
          by lists_equal.
        rewrite (IH false (done ++ [m]) added fuel Ha) by lia.
        lists_equal.
Qed.

(** X16: when no merged region straddles the destination row, the repair
    of [duplicateMergeCells] keeps every region of the list in its place and
    adds, at the end and in their order, the regions on row [row2] with the
    column spans of the single-row regions on the source row that its loop
    examines: all of them but those that come right after a region it has
    just duplicated.  The row records are not touched. *)
Theorem X16_duplicateMergeCells_result (rows : list xlsxRow)
    (cells : list xlsxMergeCell) (row row2 src : Z)
    (Hsrc : src = if row >? row2 then wrapInt (row + 1) else row)
    (Hrow2 : 1 <= row2 <= maxInt) (Hne : src <> row2)
    (Hstr : straddled row2 cells = Ok false) :
  duplicateMergeCells (mkSheet rows (Some cells)) row row2
  = Ok (mkSheet rows
          (Some (cells ++ map (regionAt row2) (duplicated false src cells)))).
Proof.
  unfold duplicateMergeCells. cbn [MergeCells Row]. rewrite <- Hsrc, Hstr.
  cbn [bind].
  assert (duplicateLoop (S (List.length cells)) 0 src row2 cells
          = Ok (cells ++ map (regionAt row2) (duplicated false src cells))) as ->;
    [|reflexivity].
  pose proof (duplicateLoop_duplicated src row2 cells Hrow2 Hne
                (straddled_parses _ _ Hstr) false [] [] (S (List.length cells))
                (Forall_nil _)) as L.
  rewrite !app_nil_l, app_nil_r in L. apply L. cbn [List.length]. lia.
Qed.

Lemma X16_duplicateMergeCells_result_witness :
  duplicateMergeCells
    (mkSheet [] (Some [mkMergeCell "A2:B2"; mkMergeCell "C2:D2";
                       mkMergeCell "E2:F2"; mkMergeCell "A3:B4"])) 2 7
  = Ok (mkSheet [] (Some [mkMergeCell "A2:B2"; mkMergeCell "C2:D2";
                          mkMergeCell "E2:F2"; mkMergeCell "A3:B4";
                          mkMergeCell "A7:B7"; mkMergeCell "E7:F7"])).
Proof.
  apply (X16_duplicateMergeCells_result []
           [mkMergeCell "A2:B2"; mkMergeCell "C2:D2";
            mkMergeCell "E2:F2"; mkMergeCell "A3:B4"] 2 7 2).
  - reflexivity.
  - unfold maxInt. lia.
  - lia.
  - vm_compute. reflexivity.
Defined.

Lemma duplicated_filter (row : Z) (cells : list xlsxMergeCell) :
  (forall pre a b post, cells = pre ++ a :: b :: post ->
     singleRowOn row a = true -> singleRowOn row b = false) ->
  duplicated false row cells = filter (singleRowOn row) cells
  /\ (match cells with
      | m :: _ => singleRowOn row m = false
      | [] => True
      end -> duplicated true row cells = filter (singleRowOn row) cells).
Proof.
  induction cells as [|m rest IH]; intros H; [split; reflexivity|].
  destruct IH as [IH1 IH2].
  { intros pre a b post E. apply (H (m :: pre) a b post). now rewrite E. }
  cbn [duplicated filter]. split.
  - destruct (singleRowOn row m) eqn:S; [|exact IH1].
    f_equal. apply IH2. destruct rest as [|b rest]; [exact I|].
    apply (H [] m b rest eq_refl S).
  - intros Hm. rewrite Hm. exact IH1.
Qed.

(** X17: when no merged region straddles the destination row and no
    single-row region on the source row comes right after another one in
    the list, the repair of [duplicateMergeCells] is complete: it adds, at
    the end of the list and in their order, a region on row [row2] for every
    single-row region on the source row. *)
Theorem X17_duplicateMergeCells_complete (rows : list xlsxRow)
    (cells : list xlsxMergeCell) (row row2 src : Z)
    (Hsrc : src = if row >? row2 then wrapInt (row + 1) else row)
    (Hrow2 : 1 <= row2 <= maxInt) (Hne : src <> row2)
    (Hstr : straddled row2 cells = Ok false)
    (Hapart : forall pre a b post, cells = pre ++ a :: b :: post ->
                singleRowOn src a = true -> singleRowOn src b = false) :
  duplicateMergeCells (mkSheet rows (Some cells)) row row2
  = Ok (mkSheet rows
          (Some (cells ++ map (regionAt row2) (filter (singleRowOn src) cells)))).
Proof.
  unfold duplicateMergeCells. cbn [MergeCells Row]. rewrite <- Hsrc, Hstr.
  cbn [bind].
  assert (duplicateLoop (S (List.length cells)) 0 src row2 cells
          = Ok (cells ++ map (regionAt row2) (duplicated false src cells))) as ->.
  { pose proof (duplicateLoop_duplicated src row2 cells Hrow2 Hne
                  (straddled_parses _ _ Hstr) false [] [] (S (List.length cells))
                  (Forall_nil _)) as L.
    rewrite !app_nil_l, app_nil_r in L. apply L. cbn [List.length]. lia. }
  cbn [bind]. now rewrite (proj1 (duplicated_filter src cells Hapart)).
Qed.

Lemma X17_duplicateMergeCells_complete_witness :
  duplicateMergeCells
    (mkSheet [] (Some [mkMergeCell "A2:B2"; mkMergeCell "A3:B4";
                       mkMergeCell "E2:F2"])) 2 7
  = Ok (mkSheet [] (Some [mkMergeCell "A2:B2"; mkMergeCell "A3:B4";
                          mkMergeCell "E2:F2";
                          mkMergeCell "A7:B7"; mkMergeCell "E7:F7"])).
Proof.
  apply (X17_duplicateMergeCells_complete []
           [mkMergeCell "A2:B2"; mkMergeCell "A3:B4"; mkMergeCell "E2:F2"] 2 7 2).
  - reflexivity.
  - unfold maxInt. lia.
  - lia.
  - vm_compute. reflexivity.
  - intros pre a b post E Ha.
    destruct pre as [|p0 [|p1 [|p2 pre]]]; inversion E; subst; try reflexivity;
      try discriminate.
    destruct pre; discriminate.
Defined.

(** ** Row metadata, in general *)

Lemma appendRows_extends (n : nat) :
  forall (from : Z) (rows : list xlsxRow),
  exists extra,
    appendRows n from rows = rows ++ extra
    /\ Forall (fun r => rHidden r = false /\ rOutlineLevel r = 0) extra.
Proof.
  induction n as [|n IH]; intros from rows; cbn [appendRows].
  - exists []. split; [now rewrite app_nil_r | constructor].
  - destruct (IH (from + 1) (rows ++ [emptyRow from])) as (extra & -> & F).
    exists (emptyRow from :: extra). split; [now rewrite <- app_assoc|].
    constructor; [split; reflexivity | exact F].
Qed.

Lemma prepareSheetXML_extends (xlsx : xlsxWorksheet) (row : Z) :
  exists extra,
    Row (prepareSheetXML xlsx 0 row) = Row xlsx ++ extra
    /\ MergeCells (prepareSheetXML xlsx 0 row) = MergeCells xlsx
    /\ len (Row (prepareSheetXML xlsx 0 row)) = Z.max (len (Row xlsx)) row
    /\ Forall (fun r => rHidden r = false /\ rOutlineLevel r = 0) extra.
Proof.
  unfold prepareSheetXML. destruct (len (Row xlsx) <? row) eqn:E.
  - apply Z.ltb_lt in E. cbn [Row MergeCells].
    destruct (appendRows_extends (Z.to_nat (row - len (Row xlsx)))
                (len (Row xlsx) + 1) (Row xlsx)) as (extra & A & F).
    exists extra. split; [exact A|]. split; [reflexivity|]. split; [|exact F].
    unfold len in *. rewrite appendRows_length. lia.
  - apply Z.ltb_ge in E. exists []. split; [now rewrite app_nil_r|].
    split; [reflexivity|]. split; [lia | constructor].
Qed.

Lemma elemAt_app_right_in {A : Type} (l extra : list A) (i : Z) (a : A) :
  len l <= i -> elemAt (l ++ extra) i = Ok a -> In a extra.
Proof.
  intros Hi H. pose proof (len_nonneg l). unfold elemAt, len in *.
  destruct (i <? 0); [discriminate|].
  destruct (nth_error (l ++ extra) (Z.to_nat i)) as [b|] eqn:N; [|discriminate].
  inversion H. subst. rewrite nth_error_app2 in N by lia.
  now apply nth_error_In in N.
Qed.

(** X18: [SetRowVisible] at a row [row >= 1] succeeds, and the row then
    reads as it was set.  It stores as many records as the larger of the
    earlier count and [row], leaves the merged regions and every other
    record stored before as they were, and the records it creates below
    [row] read visible, although the same rows read not visible before the
    call (when they were beyond the stored records). *)
Theorem X18_SetRowVisible_effect (xlsx : xlsxWorksheet) (row : Z) (visible : bool)
    (Hrow : 1 <= row) :
  exists xlsx',
    SetRowVisible xlsx row visible = Ok xlsx'
    /\ GetRowVisible xlsx' row = Ok visible
    /\ MergeCells xlsx' = MergeCells xlsx
    /\ len (Row xlsx') = Z.max (len (Row xlsx)) row
    /\ (forall r, 1 <= r <= len (Row xlsx) -> r <> row ->
          elemAt (Row xlsx') (r - 1) = elemAt (Row xlsx) (r - 1))
    /\ (forall r, len (Row xlsx) < r < row ->
          GetRowVisible xlsx r = Ok false /\ GetRowVisible xlsx' r = Ok true).
Proof.
  pose proof (len_nonneg (Row xlsx)) as L0.
  destruct (prepareSheetXML_extends xlsx row) as (extra & HR & HM & HL & HF).
  unfold SetRowVisible.
  destruct (row <? 1) eqn:E; [apply Z.ltb_lt in E; lia|].
  set (p := prepareSheetXML xlsx 0 row) in *.
  destruct (elemAt_inside (Row p) (row - 1)) as [r0 Hr0]; [lia|].
  rewrite Hr0. cbn [bind]. rewrite assign_inside by lia. cbn [bind].
  eexists. split; [reflexivity|]. cbn [Row MergeCells].
  set (rows' := replaceNth (Row p) (Z.to_nat (row - 1)) (setHidden r0 (negb visible))).
  assert (len rows' = len (Row p)) as HL' by apply len_replaceNth.
  split; [|split; [exact HM|split; [lia|split]]].
  - unfold GetRowVisible. rewrite E. cbn [Row]. fold rows'. rewrite HL'.
    destruct (row >? len (Row p)) eqn:E';
      [rewrite Z.gtb_ltb in E'; apply Z.ltb_lt in E'; lia|].
    unfold rows'. rewrite elemAt_replaceNth by lia. cbn [bind setHidden rHidden].
    now rewrite negb_involutive.
  - intros r Hr Hne. unfold rows'.
    rewrite elemAt_replaceNth_other by lia.
    rewrite HR. apply elemAt_app_left. lia.
  - intros r Hr. split; [apply GetRowVisible_beyond; lia|].
    unfold GetRowVisible. cbn [Row]. fold rows'.
    destruct (r <? 1) eqn:E1; [apply Z.ltb_lt in E1; lia|].
    destruct (r >? len rows') eqn:E2;
      [rewrite Z.gtb_ltb in E2; apply Z.ltb_lt in E2; lia|].
    unfold rows'. rewrite elemAt_replaceNth_other by lia.
    destruct (elemAt_inside (Row p) (r - 1)) as [x Hx]; [lia|].
    rewrite Hx. cbn [bind]. rewrite HR in Hx.
    apply elemAt_app_right_in in Hx; [|lia].
    rewrite Forall_forall in HF. destruct (HF x Hx) as [-> _]. reflexivity.
Qed.

Lemma X18_SetRowVisible_effect_witness :
  exists xlsx',
    SetRowVisible (mkSheet [sampleRow 1] None) 3 false = Ok xlsx'
    /\ GetRowVisible xlsx' 3 = Ok false
    /\ MergeCells xlsx' = None
    /\ len (Row xlsx') = Z.max (len [sampleRow 1]) 3
    /\ (forall r, 1 <= r <= len [sampleRow 1] -> r <> 3 ->
          elemAt (Row xlsx') (r - 1) = elemAt [sampleRow 1] (r - 1))
    /\ (forall r, len [sampleRow 1] < r < 3 ->
          GetRowVisible (mkSheet [sampleRow 1] None) r = Ok false
          /\ GetRowVisible xlsx' r = Ok true).
Proof.
  apply (X18_SetRowVisible_effect (mkSheet [sampleRow 1] None) 3 false). lia.
Defined.

(** X19: [SetRowOutlineLevel] checks the row number first and the level
    second: a row below 1 is an invalid row number whatever the level, a
    level outside 1..7 is an invalid outline level and a level in 1..7 is
    stored; [GetRowOutlineLevel] then returns it, returns 0 for a row beyond
    the stored records, and the level of the other records stored before is
    as it was. *)
Theorem X19_SetRowOutlineLevel_round_trip (xlsx : xlsxWorksheet) (row level : Z) :
  (row < 1 -> SetRowOutlineLevel xlsx row level = LevelErr (InvalidRowNumber row))
  /\ (1 <= row -> level < 1 \/ 7 < level ->
      SetRowOutlineLevel xlsx row level = InvalidOutlineLevel)
  /\ (1 <= row -> 1 <= level <= 7 ->
      exists xlsx',
        SetRowOutlineLevel xlsx row level = LevelSet xlsx'
        /\ GetRowOutlineLevel xlsx' row = Ok level
        /\ (forall r, 1 <= r <= len (Row xlsx) -> r <> row ->
              GetRowOutlineLevel xlsx' r = GetRowOutlineLevel xlsx r))
  /\ (1 <= row -> row > len (Row xlsx) -> GetRowOutlineLevel xlsx row = Ok 0).
Proof.
  pose proof (len_nonneg (Row xlsx)) as L0.
  split; [|split; [|split]].
  - intros H. unfold SetRowOutlineLevel.
    destruct (row <? 1) eqn:E; [reflexivity | apply Z.ltb_ge in E; lia].
  - intros H1 H2. unfold SetRowOutlineLevel.
    destruct (row <? 1) eqn:E; [apply Z.ltb_lt in E; lia|].
    assert (((level >? 7) || (level <? 1)) = true) as ->; [|reflexivity].
    apply orb_true_intro. rewrite Z.gtb_ltb, !Z.ltb_lt. lia.
  - intros H1 H2. unfold SetRowOutlineLevel.
    destruct (row <? 1) eqn:E; [apply Z.ltb_lt in E; lia|].
    assert (((level >? 7) || (level <? 1)) = false) as ->.
    { apply orb_false_intro; [rewrite Z.gtb_ltb|]; apply Z.ltb_ge; lia. }
    destruct (prepareSheetXML_extends xlsx row) as (extra & HR & HM & HL & HF).
    set (p := prepareSheetXML xlsx 0 row) in *.
    destruct (elemAt_inside (Row p) (row - 1)) as [r0 Hr0]; [lia|].
    rewrite Hr0. cbn [bind]. rewrite assign_inside by lia.
    eexists. split; [reflexivity|].
    set (rows' := replaceNth (Row p) (Z.to_nat (row - 1)) (setOutlineLevel r0 level)).
    assert (len rows' = len (Row p)) as HL' by apply len_replaceNth.
    split.
    + unfold GetRowOutlineLevel. rewrite E. cbn [Row]. rewrite HL'.
      destruct (row >? len (Row p)) eqn:E';
        [rewrite Z.gtb_ltb in E'; apply Z.ltb_lt in E'; lia|].
      unfold rows'. rewrite elemAt_replaceNth by lia. reflexivity.
    + intros r Hr Hne. unfold GetRowOutlineLevel. cbn [Row]. rewrite HL'.
      destruct (r <? 1) eqn:E1; [apply Z.ltb_lt in E1; lia|].
      destruct (r >? len (Row p)) eqn:E2;
        [rewrite Z.gtb_ltb in E2; apply Z.ltb_lt in E2; lia|].
      destruct (r >? len (Row xlsx)) eqn:E3;
        [rewrite Z.gtb_ltb in E3; apply Z.ltb_lt in E3; lia|].
      unfold rows'. rewrite elemAt_replaceNth_other by lia.
      rewrite HR, elemAt_app_left by lia. reflexivity.
  - intros H1 H2. unfold GetRowOutlineLevel.
    destruct (row <? 1) eqn:E; [apply Z.ltb_lt in E; lia|].
    destruct (row >? len (Row xlsx)) eqn:E'; [reflexivity|].
    rewrite Z.gtb_ltb in E'. apply Z.ltb_ge in E'. lia.
Qed.

Lemma X19_SetRowOutlineLevel_round_trip_witness :
  SetRowOutlineLevel (mkSheet [sampleRow 1] None) 2 8 = InvalidOutlineLevel
  /\ (exists xlsx',
        SetRowOutlineLevel (mkSheet [sampleRow 1] None) 2 7 = LevelSet xlsx'
        /\ GetRowOutlineLevel xlsx' 2 = Ok 7
        /\ (forall r, 1 <= r <= len [sampleRow 1] -> r <> 2 ->
              GetRowOutlineLevel xlsx' r
              = GetRowOutlineLevel (mkSheet [sampleRow 1] None) r))
  /\ GetRowOutlineLevel (mkSheet [sampleRow 1] None) 2 = Ok 0.
Proof.
  assert (1 <= 2) as H1 by lia.
  assert (2 > len (Row (mkSheet [sampleRow 1] None))) as H2 by (unfold len; simpl; lia).
  destruct (X19_SetRowOutlineLevel_round_trip (mkSheet [sampleRow 1] None) 2 8)
    as (_ & A & _ & _).
  destruct (X19_SetRowOutlineLevel_round_trip (mkSheet [sampleRow 1] None) 2 7)
    as (_ & _ & B & C).
  split; [apply A; lia|]. split; [apply B; lia | apply C; assumption].
Defined.

(** ** Row heights *)

Section HeightRoundTrip.

Variable float64 : Type.
Variable zero : float64.
Variable isZero : float64 -> bool.
Variable defaultRowHeightPixels : float64.

Lemma elemAt_snoc {A : Type} (l : list A) (a x : A) (i : Z) :
  elemAt (l ++ [a]) i = Ok x ->
  (0 <= i < len l /\ elemAt l i = Ok x) \/ (i = len l /\ x = a).
Proof.
  intros H. pose proof (elemAt_Ok_inside _ _ _ H) as Hi.
  rewrite len_app in Hi. change (len [a]) with 1 in Hi.
  destruct (Z_lt_le_dec i (len l)) as [L|L].
  - left. split; [lia|]. rewrite elemAt_app_left in H by lia. exact H.
  - right. assert (i = len l) as -> by lia. split; [reflexivity|].
    rewrite elemAt_app_middle in H. congruence.
Qed.

Lemma appendRowsHt_byPosition (n : nat) :
  forall (from : Z) (rows : list (xlsxRowHt float64)),
  from = len rows + 1 -> byPosition rows ->
  byPosition (appendRowsHt float64 zero n from rows)
  /\ len (appendRowsHt float64 zero n from rows) = len rows + Z.of_nat n.
Proof.
  induction n as [|n IH]; intros from rows Hf Hp; cbn [appendRowsHt].
  - split; [exact Hp | lia].
  - destruct (IH (from + 1) (rows ++ [mkRowHt (emptyRow from) zero false])) as [P L].
    + rewrite len_app. change (len [_]) with 1. lia.
    + intros i r Hr. apply elemAt_snoc in Hr as [[_ Hr]|[Hi ->]].
      * now apply Hp.
      * cbn [hRow emptyRow rR]. lia.
    + split; [exact P|]. rewrite L, len_app. change (len [_]) with 1. lia.
Qed.

Lemma prepareRowsHt_byPosition (rows : list (xlsxRowHt float64)) (row : Z) :
  byPosition rows ->
  byPosition (prepareRowsHt float64 zero rows row)
  /\ len (prepareRowsHt float64 zero rows row) = Z.max (len rows) row.
Proof.
  intros Hp. unfold prepareRowsHt. destruct (len rows <? row) eqn:E.
  - apply Z.ltb_lt in E.
    destruct (appendRowsHt_byPosition (Z.to_nat (row - len rows)) (len rows + 1) rows
                eq_refl Hp) as [P L].
    split; [exact P|]. rewrite L. lia.
  - apply Z.ltb_ge in E. split; [exact Hp | lia].
Qed.

Lemma heightOf_none (rows : list (xlsxRowHt float64)) (row : Z) :
  (forall x, In x rows -> rR (hRow x) <> row) ->
  heightOf float64 isZero defaultRowHeightPixels row rows = defaultRowHeightPixels.
Proof.
  induction rows as [|w rows IH]; intros Hn; [reflexivity|]. cbn [heightOf].
  assert ((rR (hRow w) =? row) = false) as ->
    by (apply Z.eqb_neq; apply Hn; now left).
  cbn [andb]. apply IH. intros x Hx. apply Hn. now right.
Qed.

Lemma heightOf_position (rows : list (xlsxRowHt float64)) :
  forall from : Z,
  (forall k x, nth_error rows k = Some x -> rR (hRow x) = from + Z.of_nat k) ->
  forall (k : nat) (r : xlsxRowHt float64),
  nth_error rows k = Some r ->
  heightOf float64 isZero defaultRowHeightPixels (from + Z.of_nat k) rows
  = if isZero (Ht r) then defaultRowHeightPixels else Ht r.
Proof.
  induction rows as [|v rows IH]; intros from Hp k r Hr; [now destruct k|].
  cbn [heightOf]. pose proof (Hp 0%nat v eq_refl) as Hv. cbn in Hv.
  destruct k as [|k].
  - inversion Hr. subst v. cbn [Z.of_nat].
    assert ((rR (hRow r) =? from + 0) = true) as -> by (apply Z.eqb_eq; lia).
    cbn [andb]. destruct (isZero (Ht r)); cbn [negb]; [|reflexivity].
    apply heightOf_none. intros x Hx. apply In_nth_error in Hx as [n Hn].
    specialize (Hp (S n) x Hn). lia.
  - assert ((rR (hRow v) =? from + Z.of_nat (S k)) = false) as ->
      by (apply Z.eqb_neq; lia).
    cbn [andb]. replace (from + Z.of_nat (S k)) with (from + 1 + Z.of_nat k) by lia.
    apply IH; [|exact Hr].
    intros n x Hn. specialize (Hp (S n) x Hn). lia.
Qed.

Lemma heightOf_byPosition (rows : list (xlsxRowHt float64)) (row : Z)
    (r : xlsxRowHt float64) :
  byPosition rows -> elemAt rows (row - 1) = Ok r ->
  heightOf float64 isZero defaultRowHeightPixels row rows
  = if isZero (Ht r) then defaultRowHeightPixels else Ht r.
Proof.
  intros Hp Hr. pose proof (elemAt_Ok_inside _ _ _ Hr) as Hi.
  replace row with (1 + Z.of_nat (Z.to_nat (row - 1))) at 1 by lia.
  apply heightOf_position.
  - intros k x Hk. apply Hp. unfold elemAt.
    replace (1 + Z.of_nat k - 1) with (Z.of_nat k) by lia.
    destruct (Z.of_nat k <? 0) eqn:E0; [apply Z.ltb_lt in E0; lia|].
    now rewrite Nat2Z.id, Hk.
  - unfold elemAt in Hr. destruct (row - 1 <? 0); [discriminate|].
    destruct (nth_error rows (Z.to_nat (row - 1))); [congruence | discriminate].
Qed.

(** X20: on a sheet whose stored records carry the number of their
    position, [SetRowHeight] at a row [row >= 1] succeeds and keeps that
    property, and [GetRowHeight] then returns the height that was set when
    it is not 0, and [defaultRowHeightPixels] when it is 0; for a row beyond
    the stored records [GetRowHeight] returns [defaultRowHeightPixels]. *)
Theorem X20_SetRowHeight_then_GetRowHeight (rows : list (xlsxRowHt float64))
    (row : Z) (height : float64)
    (Hrow : 1 <= row) (Hpos : byPosition rows) :
  (row > len rows ->
   GetRowHeight float64 isZero defaultRowHeightPixels rows row
   = Ok defaultRowHeightPixels)
  /\ exists rows',
       SetRowHeight float64 zero rows row height = Ok rows'
       /\ byPosition rows'
       /\ len rows' = Z.max (len rows) row
       /\ GetRowHeight float64 isZero defaultRowHeightPixels rows' row
          = Ok (if isZero height then defaultRowHeightPixels else height).
Proof.
  split.
  - intros H. unfold GetRowHeight.
    destruct (row <? 1) eqn:E; [apply Z.ltb_lt in E; lia|].
    destruct (row >? len rows) eqn:E'; [reflexivity|].
    rewrite Z.gtb_ltb in E'. apply Z.ltb_ge in E'. lia.
  - pose proof (len_nonneg rows) as L0.
    destruct (prepareRowsHt_byPosition rows row Hpos) as [P L].
    unfold SetRowHeight.
    destruct (row <? 1) eqn:E; [apply Z.ltb_lt in E; lia|].
    set (p := prepareRowsHt float64 zero rows row) in *.
    destruct (elemAt_inside p (row - 1)) as [r0 Hr0]; [lia|].
    rewrite Hr0. cbn [bind]. rewrite assign_inside by lia. cbn [bind].
    rewrite elemAt_replaceNth by lia. cbn [bind hRow Ht].
    rewrite assign_inside by (rewrite len_replaceNth; lia).
    set (r1 := mkRowHt (hRow r0) height true).
    set (rows' := replaceNth (replaceNth p (Z.to_nat (row - 1))
                                (mkRowHt (hRow r0) height (CustomHeight r0)))
                             (Z.to_nat (row - 1)) r1).
    assert (len rows' = len p) as HL' by (unfold rows'; now rewrite !len_replaceNth).
    assert (elemAt rows' (row - 1) = Ok r1) as H1
      by (apply elemAt_replaceNth; rewrite len_replaceNth; lia).
    assert (byPosition rows') as P'.
    { intros i x Hx. destruct (Z.eq_dec i row) as [->|Hne].
      - rewrite H1 in Hx. inversion Hx. subst x. unfold r1. cbn [hRow].
        apply P. exact Hr0.
      - unfold rows' in Hx. rewrite !elemAt_replaceNth_other in Hx by lia.
        now apply P. }
    exists rows'. split; [reflexivity|]. split; [exact P'|]. split; [lia|].
    unfold GetRowHeight. rewrite E, HL'.
    destruct (row >? len p) eqn:E';
      [rewrite Z.gtb_ltb in E'; apply Z.ltb_lt in E'; lia|].
    f_equal. now rewrite (heightOf_byPosition rows' row r1 P' H1).
Qed.

End HeightRoundTrip.

Lemma X20_SetRowHeight_then_GetRowHeight_witness :
  exists rows',
    SetRowHeight Z 0 [mkRowHt (emptyRow 1) 0 false] 3 50 = Ok rows'
    /\ byPosition rows'
    /\ len rows' = Z.max (len [mkRowHt (emptyRow 1) 0 false]) 3
    /\ GetRowHeight Z (Z.eqb 0) 15 rows' 3 = Ok 50.
Proof.
  apply (X20_SetRowHeight_then_GetRowHeight Z 0 (Z.eqb 0) 15
           [mkRowHt (emptyRow 1) 0 false] 3 50).
  - lia.
  - intros i r H. pose proof (elemAt_Ok_inside _ _ _ H) as Hi.
    change (len [mkRowHt (emptyRow 1) 0 false]) with 1 in Hi.
    assert (i = 1) as -> by lia. inversion H. reflexivity.
Defined.

(** ** What the iterator keeps *)

Lemma decodeChildren_suffix (ts : list Token) :
  forall (depth : nat) (inV inIS : bool) (c : xlsxC),
  exists pre, ts = pre ++ snd (decodeChildren depth inV inIS c ts).
Proof.
  induction ts as [|t ts IH]; intros depth inV inIS c; [now exists []|].
  destruct t as [local attr|local|data]; cbn [decodeChildren].
  - destruct depth as [|depth].
    + destruct (String.eqb local "v"); [|destruct (String.eqb local "is")];
        match goal with |- context [decodeChildren ?k ?a ?b ?x ts] =>
          destruct (IH k a b x) as [pre E] end;
        exists (StartElement local attr :: pre); rewrite <- app_comm_cons;
        now rewrite <- E.
    + destruct (IH (S (S depth)) inV inIS c) as [pre E].
      exists (StartElement local attr :: pre). rewrite <- app_comm_cons.
      now rewrite <- E.
  - destruct depth as [|[|depth]].
    + now exists [EndElement local].
    + destruct (IH O false false c) as [pre E].
      exists (EndElement local :: pre). rewrite <- app_comm_cons. now rewrite <- E.
    + destruct (IH (S depth) inV inIS c) as [pre E].
      exists (EndElement local :: pre). rewrite <- app_comm_cons. now rewrite <- E.
  - match goal with |- context [decodeChildren ?k ?a ?b ?x ts] =>
      destruct (IH k a b x) as [pre E] end.
    exists (CharData data :: pre). rewrite <- app_comm_cons. now rewrite <- E.
Qed.

Lemma DecodeElement_suffix (attr : list Attr) (ts : list Token) :
  exists pre, ts = pre ++ snd (DecodeElement attr ts).
Proof. unfold DecodeElement. apply decodeChildren_suffix. Qed.

Section IteratorInvariant.

Variable formattedValue : Z -> string -> string.

Lemma columnsLoop_suffix (fuel : nat) :
  forall (d : list string) (rows rows' : Rows) (columns columns' : list string)
         (ts : list Token) (e : option error),
  columnsLoop formattedValue fuel d rows columns ts = Returned columns' e rows' ->
  exists pre, ts = pre ++ decoder rows'.
Proof.
  induction fuel as [|fuel IH]; intros d rows rows' columns columns' ts e H;
    cbn [columnsLoop] in H.
  - inversion H. now exists [].
  - destruct ts as [|t ts]; [inversion H; now exists []|].
    assert (forall c, columnsLoop formattedValue fuel d rows c ts
                      = Returned columns' e rows' ->
            exists pre, t :: ts = pre ++ decoder rows') as Hnext.
    { intros c Hc. apply IH in Hc as [pre E]. exists (t :: pre).
      rewrite <- app_comm_cons. now rewrite <- E. }
    destruct t as [local attr|local|data].
    + destruct (String.eqb local "row").
      * destruct (rowAhead (curRow rows) attr) as [[row|]| |]; try discriminate;
          try (inversion H; now exists [StartElement local attr]).
        now apply (Hnext columns).
      * destruct (String.eqb local "c"); [|now apply (Hnext columns)].
        destruct (DecodeElement_suffix attr ts) as [pre E].
        destruct (DecodeElement attr ts) as [colCell ts'']. cbn [snd] in E.
        assert (forall c, columnsLoop formattedValue fuel d rows c ts''
                          = Returned columns' e rows' ->
                exists pre', StartElement local attr :: ts = pre' ++ decoder rows')
          as Hcell.
        { intros c Hc. apply IH in Hc as [pre2 E2].
          exists (StartElement local attr :: pre ++ pre2).
          rewrite <- app_comm_cons, <- app_assoc, <- E2. f_equal. exact E. }
        destruct (CellNameToCoordinates (cR colCell)) as [[cellCol r]| |];
          try discriminate.
        -- destruct (getValueFrom formattedValue colCell d); try discriminate;
             eapply Hcell; exact H.
        -- inversion H. exists (StartElement local attr :: pre).
           cbn [setDecoder decoder]. rewrite <- app_comm_cons. f_equal. exact E.
    + destruct (String.eqb local "row");
        [inversion H; now exists [EndElement local] | now apply (Hnext columns)].
    + now apply (Hnext columns).
Qed.

(** X21: an iterator keeps, through every sequence of calls of [Next] and
    [Columns], the [totalRow] that [Rows] gave it and the error nil (so the
    test of [Error] in the loop of [GetRows] never ends the loop), and its
    decoder only moves forward: what is left to read is an end part of the
    worksheet XML. *)
Theorem X21_iterator_invariant (xml : list Token) (d : list string) (it it' : Rows)
    (Hopen : File_Rows xml = Ok it)
    (Hcalls : reaches formattedValue d it it') :
  Error it' = None
  /\ totalRow it' = totalRow it
  /\ exists read, xml = read ++ decoder it'.
Proof.
  destruct (File_Rows_fresh xml it Hopen) as (_ & _ & He & Hd).
  induction Hcalls as [|rows' _ (E & T & read & R)
                       |rows' rows'' columns e _ (E & T & read & R) HC].
  - split; [exact He|]. split; [reflexivity|]. exists []. now rewrite Hd.
  - split; [exact E|]. split; [exact T|]. exists read. exact R.
  - pose proof (Columns_cursor formattedValue d rows' rows'' columns e HC)
      as (_ & T' & E').
    split; [unfold Error in *; congruence|]. split; [congruence|].
    unfold Columns in HC. destruct (stashRow rows' >=? curRow rows').
    + inversion HC. subst. exists read. exact R.
    + apply columnsLoop_suffix in HC as [pre P]. exists (read ++ pre).
      rewrite <- app_assoc, <- P. exact R.
Qed.

(** X22: [Columns] uses the number of a row element only to look ahead: a
    row element whose declared number is not above the cursor is read as
    the row of the cursor, whatever number (at or below the cursor) it
    declares. *)
Theorem X22_Columns_row_not_ahead (d : list string) (rows : Rows) (m : Z)
    (cells : list xlsxC) (rest : list Token) (vs : list string)
    (Hstash : stashRow rows < curRow rows)
    (Hm : 0 <= m <= maxInt) (Hbelow : m <= curRow rows)
    (Hstyle : Forall (fun c => 0 <= cS c <= maxInt) cells)
    (Hvs : denseValues formattedValue d [] cells = Some vs)
    (Hdec : decoder rows = rowElement m (cellsXML cells) ++ rest) :
  Columns formattedValue d rows = Returned vs None (setDecoder rows rest).
Proof.
  unfold Columns.
  destruct (stashRow rows >=? curRow rows) eqn:E;
    [rewrite Z.geb_leb in E; apply Z.leb_le in E; lia|].
  rewrite Hdec, rowElement_app, columnsLoop_row, rowAhead_declared by exact Hm.
  assert ((m >? curRow rows) = false) as ->
    by (rewrite Z.gtb_ltb; apply Z.ltb_ge; lia).
  apply columnsLoop_cells; try assumption.
  cbn [List.length]. rewrite length_app. pose proof (cellsXML_length cells). lia.
Qed.

End IteratorInvariant.

Lemma X21_iterator_invariant_witness :
  Error (snd (Next (mkRows None 0 1 0 (worksheetXML [(1, [])])))) = None
  /\ totalRow (snd (Next (mkRows None 0 1 0 (worksheetXML [(1, [])]))))
     = totalRow (mkRows None 0 1 0 (worksheetXML [(1, [])]))
  /\ exists read,
       worksheetXML [(1, [])]
       = read ++ decoder (snd (Next (mkRows None 0 1 0 (worksheetXML [(1, [])])))).
Proof.
  apply (X21_iterator_invariant (fun _ v => v) (worksheetXML [(1, [])]) []
           (mkRows None 0 1 0 (worksheetXML [(1, [])]))).
  - vm_compute. reflexivity.
  - apply reaches_Next. apply reaches_start.
Defined.

Lemma X22_Columns_row_not_ahead_witness :
  Columns (fun _ v => v) []
    (mkRows None 3 3 0
       (rowElement 1 (cellsXML [mkC "A1" 0 "str" "late" None]) ++ []))
  = Returned ["late"] None (mkRows None 3 3 0 []).
Proof.
  apply (X22_Columns_row_not_ahead (fun _ v => v) []
           (mkRows None 3 3 0
              (rowElement 1 (cellsXML [mkC "A1" 0 "str" "late" None]) ++ []))
           1 [mkC "A1" 0 "str" "late" None] [] ["late"]).
  - simpl. lia.
  - unfold maxInt. lia.
  - simpl. lia.
  - repeat constructor; simpl; unfold maxInt; lia.
  - vm_compute. reflexivity.
  - reflexivity.
Defined.

Section NegativeIndex.

Variable formattedValue : Z -> string -> string.

(** X23: the panic of [getValueFrom] reaches the caller of [GetRows]: when
    the first cell of row 1 of a worksheet is a shared-string cell whose
    raw value reads as a negative number, [GetRows] panics (index out of
    range), whatever else the worksheet holds. *)
Theorem X23_GetRows_negative_index_panics (d : list string) (bad : xlsxC)
    (more : list Token) (others : list (Z * list Token)) (n : Z)
    (Hrows : Forall (fun r => 0 <= fst r <= maxInt /\ noRowStart (snd r) = true)
               ((1, cellElement bad ++ more) :: others))
    (Hlast : 1 <= last (map fst ((1, cellElement bad ++ more) :: others)) 0)
    (Hstyle : 0 <= cS bad <= maxInt)
    (Href : exists col r, CellNameToCoordinates (cR bad) = Ok (col, r))
    (Htype : cT bad = "s")
    (Hvalue : Atoi (cV bad) = Ok n) (Hneg : n < 0) :
  GetRows formattedValue (worksheetXML ((1, cellElement bad ++ more) :: others)) d
  = Panic.
Proof.
  unfold GetRows. rewrite File_Rows_worksheetXML by exact Hrows. cbn [bind totalRow].
  set (total := last (map fst ((1, cellElement bad ++ more) :: others)) 0) in *.
  set (it := mkRows None 0 total 0
               (worksheetXML ((1, cellElement bad ++ more) :: others))).
  rewrite drain_step.
  change (fst (Next it)) with (1 <=? total).
  assert ((1 <=? total) = true) as -> by (apply Z.leb_le; lia).
  change (Error (snd (Next it))) with (@None error). cbv iota.
  assert (Columns formattedValue d (snd (Next it)) = Panicked) as ->; [|reflexivity].
  unfold it, Next. cbn [snd curRow err totalRow stashRow decoder].
  change (wrapInt (0 + 1)) with 1. unfold Columns. cbn [stashRow curRow decoder].
  change (0 >=? 1) with false. cbv iota.
  set (ts := cellChildren bad ++ more ++ EndElement "row"
             :: sheetDataXML others ++ [EndElement "sheetData"; EndElement "worksheet"]).
  assert (worksheetXML ((1, cellElement bad ++ more) :: others)
          = [StartElement "worksheet" []; StartElement "sheetData" []]
            ++ StartElement "row" [mkAttr "r" (itoa 1)]
               :: StartElement "c" (cellAttrs bad) :: ts) as ->.
  { unfold worksheetXML, ts. cbn [sheetDataXML]. rewrite <- !app_assoc, rowElement_app.
    unfold cellElement. rewrite <- !app_assoc, <- !app_comm_cons. reflexivity. }
  set (all := [StartElement "worksheet" []; StartElement "sheetData" []]
              ++ StartElement "row" [mkAttr "r" (itoa 1)]
                 :: StartElement "c" (cellAttrs bad) :: ts).
  enough (forall (rows0 : Rows) (F : nat),
            curRow rows0 = 1 -> (List.length all < F)%nat ->
            columnsLoop formattedValue F d rows0 [] all = Panicked) as K
    by (apply K; [reflexivity | lia]).
  intros rows0 F Hcur HF.
  rewrite (columnsLoop_enough_fuel formattedValue F
             (List.length [StartElement "worksheet" []; StartElement "sheetData" []]
              + S (S (List.length all)))) by lia.
  unfold all at 2.
  rewrite (columnsLoop_passedOver formattedValue
             [StartElement "worksheet" []; StartElement "sheetData" []] eq_refl).
  rewrite columnsLoop_row, rowAhead_declared by (unfold maxInt; lia).
  rewrite Hcur. change (1 >? 1) with false. cbv iota.
  unfold ts. rewrite columnsLoop_c, DecodeElement_cellElement by exact Hstyle.
  destruct Href as (col & r & ->).
  rewrite (getValueFrom_negative_index formattedValue bad d n);
    try assumption; [reflexivity|].
  intros E. rewrite E in Hvalue. discriminate.
Qed.

End NegativeIndex.

Lemma X23_GetRows_negative_index_panics_witness :
  GetRows (fun _ v => v)
    (worksheetXML [(1, cellElement (mkC "A1" 0 "s" "-1" None) ++ [])]) ["x"]
  = Panic.
Proof.
  apply (X23_GetRows_negative_index_panics (fun _ v => v) ["x"]
           (mkC "A1" 0 "s" "-1" None) [] [] (-1)).
  - repeat constructor; simpl; unfold maxInt; lia.
  - simpl. lia.
  - simpl. unfold maxInt. lia.
  - exists 1, 1. vm_compute. reflexivity.
  - reflexivity.
  - vm_compute. reflexivity.
  - lia.
Defined.
